(** * stripe-infakt: a shallow embedding of the invoice transfer script

    The repository moves paid Stripe invoices into inFakt.  Its four
    Python files are embedded module by module:

    - [Py]            the fragment of Python the script relies on: JSON-shaped
                      values, truthiness, [dict.get], subscripting, exceptions;
    - [Float64]       [int(a / b)] on Python integers (true division rounds to
                      the nearest binary64, [int] truncates);
    - [Utils]         src/utils.py;
    - [StripeClient]  src/stripe_client.py (the client-side filter);
    - [InfaktClient]  src/infakt_client.py;
    - [Main]          src/main.py ([transform_stripe_to_infakt]);
    - [StripeFetch]   src/stripe_client.py (the constructor and the pagination
                      loop, run against the answers of the API);
    - [InfaktInit]    src/infakt_client.py (the constructor);
    - [Orchestrator]  src/main.py (the [__main__] block: configuration, the
                      loop over the invoices with its prompt, the exit code).

    Values that the Stripe API delivers as JSON are kept dynamically typed,
    as the script sees them: a field can be absent, null, or of an unexpected
    type, and the embedding raises the exception Python would raise.
    JSON numbers are integers throughout (amounts are minor currency units,
    timestamps are seconds); Python floats only occur as the intermediate
    result of [/], which [Float64] covers. *)

From stdpp Require Import gmap strings list fin_maps.
From Stdlib Require Import ZArith Lia Ascii.

Set Warnings "-register-all".
#[local] Open Scope Z_scope.

(* ===================================================================== *)
(** ** Python values and exceptions *)
(* ===================================================================== *)

Module Py.

Inductive pyval : Type :=
  | PNone
  | PBool (b : bool)
  | PInt (z : Z)
  | PStr (s : string)
  | PList (l : list pyval)
  | PDict (m : gmap string pyval).

Inductive exn : Type :=
  | AttributeError
  | TypeError
  | KeyError
  | IndexError
  | ValueError
  | OverflowError
  | ZeroDivisionError.

(** The outcome of evaluating an expression: a value or a raised exception. *)
Inductive res (A : Type) : Type :=
  | Ok (a : A)
  | Raise (e : exn).
Arguments Ok {A} a.
Arguments Raise {A} e.

#[global] Instance res_ret : MRet res := λ A a, Ok a.
#[global] Instance res_bind : MBind res :=
  λ A B f r, match r with Ok a => f a | Raise e => Raise e end.
#[global] Instance res_fmap : FMap res :=
  λ A B f r, match r with Ok a => Ok (f a) | Raise e => Raise e end.

Definition is_none (v : pyval) : bool :=
  match v with PNone => true | _ => false end.

(** [bool(v)] *)
Definition truthy (v : pyval) : bool :=
  match v with
  | PNone => false
  | PBool b => b
  | PInt z => negb (z =? 0)
  | PStr s => negb (String.eqb s EmptyString)
  | PList l => match l with [] => false | _ => true end
  | PDict m => negb (Nat.eqb (size m) 0)
  end.

(** [d.get(k, dflt)] on a dict, and on an arbitrary value (which has no
    [get] attribute unless it is a dict). *)
Definition dict_get (m : gmap string pyval) (k : string) (dflt : pyval) : pyval :=
  default dflt (m !! k).

Definition get (v : pyval) (k : string) (dflt : pyval) : res pyval :=
  match v with
  | PDict m => Ok (dict_get m k dflt)
  | _ => Raise AttributeError
  end.

(** [v[k]] for a string key. *)
Definition getitem (v : pyval) (k : string) : res pyval :=
  match v with
  | PDict m => match m !! k with Some x => Ok x | None => Raise KeyError end
  | _ => Raise TypeError
  end.

(** [v[0]] *)
Definition getitem0 (v : pyval) : res pyval :=
  match v with
  | PList (x :: _) => Ok x
  | PList [] => Raise IndexError
  | PStr (String c _) => Ok (PStr (String c EmptyString))
  | PStr EmptyString => Raise IndexError
  | PDict _ => Raise KeyError
  | _ => Raise TypeError
  end.

(** [len(v)] *)
Definition len (v : pyval) : res Z :=
  match v with
  | PList l => Ok (Z.of_nat (length l))
  | PStr s => Ok (Z.of_nat (String.length s))
  | PDict m => Ok (Z.of_nat (size m))
  | _ => Raise TypeError
  end.

Fixpoint chars (s : string) : list pyval :=
  match s with
  | EmptyString => []
  | String c s' => PStr (String c EmptyString) :: chars s'
  end.

(** [iter(v)]: the elements a [for] loop visits. *)
Definition iter (v : pyval) : res (list pyval) :=
  match v with
  | PList l => Ok l
  | PStr s => Ok (chars s)
  | PDict m => Ok (PStr <$> (map_to_list m).*1)
  | _ => Raise TypeError
  end.

(** The integer a value denotes in arithmetic ([bool] is a subclass of
    [int]); anything else makes [int + v] a [TypeError]. *)
Definition num (v : pyval) : res Z :=
  match v with
  | PInt z => Ok z
  | PBool b => Ok (Z.b2z b)
  | _ => Raise TypeError
  end.

(** [v == s] for a string literal [s], and [v == n] for an integer literal. *)
Definition eq_str (v : pyval) (s : string) : bool :=
  match v with PStr t => String.eqb t s | _ => false end.

Definition eq_int (v : pyval) (n : Z) : bool :=
  match v with
  | PInt z => z =? n
  | PBool b => Z.b2z b =? n
  | _ => false
  end.

(** [{k: v for k, v in d.items() if v is not None}] *)
Definition drop_none (d : gmap string pyval) : gmap string pyval :=
  omap (λ v, if is_none v then None else Some v) d.

(** [s.split(' ', 1)]: [None] stands for the one-element list [[s]],
    [Some (a, b)] for the two-element list [[a, b]] cut at the first space. *)
Fixpoint split_first_space (s : string) : option (string * string) :=
  match s with
  | EmptyString => None
  | String c s' =>
      if Ascii.eqb c " "%char then Some (EmptyString, s')
      else match split_first_space s' with
           | Some (a, b) => Some (String c a, b)
           | None => None
           end
  end.

Definition split_space_1 (s : string) : list string :=
  match split_first_space s with
  | Some (a, b) => [a; b]
  | None => [s]
  end.



End Py.
Import Py.

(* ===================================================================== *)
(** ** [int(a / b)] on integers *)
(* ===================================================================== *)

Module Float64.

(** CPython's [int.__truediv__] returns the binary64 number nearest to the
    exact quotient (ties to even), raising [OverflowError] when that number
    would not be finite and [ZeroDivisionError] for a zero divisor.  A
    finite binary64 is kept as a pair [(m, e)] meaning [m * 2^e]. *)

(** [n / d] rounded to the nearest integer, ties to even ([0 <= n], [0 < d]). *)
Definition rne_div (n d : Z) : Z :=
  let q := n / d in
  let r := n mod d in
  if 2 * r <? d then q
  else if d <? 2 * r then q + 1
  else if Z.even q then q else q + 1.

(** [floor (log2 (n / d))] for positive [n] and [d]. *)
Definition ilog2_ratio (n d : Z) : Z :=
  let s := Z.log2 n - Z.log2 d in
  if 0 <=? s
  then (if d * 2 ^ s <=? n then s else s - 1)
  else (if d <=? n * 2 ^ (- s) then s else s - 1).

(** The magnitude of the quotient of two positive integers as a binary64:
    53 significant bits, exponent no smaller than the subnormal one. *)
Definition div_pos (n d : Z) : res (Z * Z) :=
  let e := Z.max (ilog2_ratio n d - 52) (-1074) in
  let m := if 0 <=? e then rne_div n (d * 2 ^ e) else rne_div (n * 2 ^ (- e)) d in
  let too_large :=
    if 0 <=? e then 2 ^ 1024 <=? m * 2 ^ e else 2 ^ 1024 * 2 ^ (- e) <=? m in
  if too_large then Raise OverflowError else Ok (m, e).

(** [int(x)] for a non-negative finite binary64 [x = m * 2^e]. *)
Definition trunc_pos (x : Z * Z) : Z :=
  let '(m, e) := x in
  if 0 <=? e then m * 2 ^ e else m / 2 ^ (- e).

(** [int(a / b)] *)
Definition int_truediv (a b : Z) : res Z :=
  if b =? 0 then Raise ZeroDivisionError
  else if a =? 0 then Ok 0
  else
    x ← div_pos (Z.abs a) (Z.abs b);
    Ok (Z.sgn a * Z.sgn b * trunc_pos x).

End Float64.

(* ===================================================================== *)
(** ** The standard library's [datetime], as far as the script uses it *)
(* ===================================================================== *)

Module Datetime.

Definition MINYEAR : Z := 1.
Definition MAXYEAR : Z := 9999.

Definition is_leap (y : Z) : bool :=
  (y mod 4 =? 0) && (negb (y mod 100 =? 0) || (y mod 400 =? 0)).

Definition days_before_year (y : Z) : Z :=
  let p := y - 1 in p * 365 + p / 4 - p / 100 + p / 400.

Definition days_in_month (y m : Z) : Z :=
  if m =? 2 then (if is_leap y then 29 else 28)
  else if (m =? 4) || (m =? 6) || (m =? 9) || (m =? 11) then 30
  else 31.

(** The table [_DAYS_BEFORE_MONTH]: days of a common year that precede
    the first day of month [m]. *)
Definition DAYS_BEFORE_MONTH (m : Z) : Z :=
  match m with
  | 1 => 0 | 2 => 31 | 3 => 59 | 4 => 90 | 5 => 120 | 6 => 151
  | 7 => 181 | 8 => 212 | 9 => 243 | 10 => 273 | 11 => 304 | 12 => 334
  | _ => 0
  end.

Definition days_before_month (y m : Z) : Z :=
  DAYS_BEFORE_MONTH m + (if (2 <? m) && is_leap y then 1 else 0).

(** Proleptic Gregorian ordinal: 1 January of year 1 is day 1. *)
Definition ymd2ord (y m d : Z) : Z :=
  days_before_year y + days_before_month y m + d.

Definition MAXORDINAL : Z := 3652059.
Definition EPOCH_ORDINAL : Z := 719163.

(** An aware datetime in UTC with zero microseconds, identified by its
    ordinal day and its second within that day. *)
Record datetime : Type := mk_datetime { ordinal : Z; second_of_day : Z }.

(** [datetime.datetime(y, m, d, hh, mm, ss, tzinfo=utc)] *)
Definition make (y m d hh mm ss : Z) : res datetime :=
  if (MINYEAR <=? y) && (y <=? MAXYEAR) && (1 <=? m) && (m <=? 12)
     && (1 <=? d) && (d <=? days_in_month y m)
     && (0 <=? hh) && (hh <=? 23) && (0 <=? mm) && (mm <=? 59)
     && (0 <=? ss) && (ss <=? 59)
  then Ok (mk_datetime (ymd2ord y m d) (hh * 3600 + mm * 60 + ss))
  else Raise ValueError.

(** [t - datetime.timedelta(seconds=s)] *)
Definition sub_seconds (t : datetime) (s : Z) : res datetime :=
  let total := ordinal t * 86400 + second_of_day t - s in
  let o := total / 86400 in
  if (1 <=? o) && (o <=? MAXORDINAL)
  then Ok (mk_datetime o (total mod 86400))
  else Raise OverflowError.

(** Whole seconds since 1970-01-01T00:00:00Z. *)
Definition epoch_seconds (t : datetime) : Z :=
  (ordinal t - EPOCH_ORDINAL) * 86400 + second_of_day t.

(** [int(t.timestamp())]: for an aware datetime [timestamp] is
    [(t - epoch).total_seconds()], the microsecond count divided by 10**6
    with true division. *)
Definition int_timestamp (t : datetime) : res Z :=
  Float64.int_truediv (epoch_seconds t * 10 ^ 6) (10 ^ 6).

End Datetime.

(** What the script takes from the Python runtime without the embedding
    looking inside: date formatting and Unicode upper-casing. *)
Class Runtime : Type := {
  (** [datetime.fromtimestamp(ts, tz=utc).strftime('%Y-%m-%d')], [None] when
      either call raises. *)
  strftime_utc : pyval → option string;
  (** [str.upper] *)
  str_upper : string → string
}.

(* ===================================================================== *)
(** ** src/utils.py *)
(* ===================================================================== *)

Module Utils.

Definition get_month_timestamps (year month : Z) : res (Z * Z) :=
  start_dt ← Datetime.make year month 1 0 0 0;
  end_dt ←
    (if month =? 12
     then d ← Datetime.make (year + 1) 1 1 0 0 0; Datetime.sub_seconds d 1
     else d ← Datetime.make year (month + 1) 1 0 0 0; Datetime.sub_seconds d 1);
  start_timestamp ← Datetime.int_timestamp start_dt;
  end_timestamp ← Datetime.int_timestamp end_dt;
  Ok (start_timestamp, end_timestamp).

Definition timestamp_to_infakt_date `{rt : Runtime} (timestamp : pyval) : pyval :=
  if is_none timestamp then PNone
  else match strftime_utc timestamp with
       | Some s => PStr s
       | None => PNone
       end.

Definition map_stripe_tax_rate_to_infakt_symbol (percentage : pyval) : pyval :=
  if is_none percentage then PStr "zw" else PNone.

(** [stripe_invoice] is used with [.get] only, so it must be a dict. *)
Definition map_stripe_payment_method (stripe_invoice : pyval) : res pyval :=
  payment_intent_id ← get stripe_invoice "payment_intent" PNone;
  charge_id ← get stripe_invoice "charge" PNone;
  if truthy payment_intent_id || truthy charge_id
  then Ok (PStr "card")
  else Ok (PStr "other").

(** [customer_data.get("address", {}).get(field)] *)
Definition address_field (customer_data : pyval) (field : string) : res pyval :=
  a ← get customer_data "address" (PDict ∅);
  get a field PNone.

Definition get_client_details (customer_data : pyval) (tax_code : pyval)
  : res (gmap string pyval) :=
  if negb (truthy customer_data) then Ok ∅
  else
    street ← address_field customer_data "line1";
    city ← address_field customer_data "city";
    post_code ← address_field customer_data "postal_code";
    country ← address_field customer_data "country";
    let details : gmap string pyval :=
      <["client_country" := country]>
        (<["client_post_code" := post_code]>
          (<["client_city" := city]>
            (<["client_street" := street]> ∅))) in
    name ← get customer_data "name" PNone;
    details ←
      (if truthy tax_code then
         Ok (<["client_business_activity_kind" := PStr "other_business"]>
              (<["client_company_name" := name]>
                (<["client_tax_code" := tax_code]> details)))
       else if truthy name then
         match name with
         | PStr n =>
             match split_space_1 n with
             | [first; last] =>
                 Ok (<["client_business_activity_kind" := PStr "private_person"]>
                      (<["client_last_name" := PStr last]>
                        (<["client_first_name" := PStr first]> details)))
             | _ =>
                 Ok (<["client_business_activity_kind" := PStr "other_business"]>
                      (<["client_company_name" := name]> details))
             end
         | _ => Raise AttributeError
         end
       else Ok details);
    Ok (drop_none details).

End Utils.

(* ===================================================================== *)
(** ** src/stripe_client.py *)
(* ===================================================================== *)

Module StripeClient.

(** [paid_at and start_timestamp <= paid_at <= end_timestamp] *)
Definition paid_in_range (start_timestamp end_timestamp : Z) (paid_at : pyval)
  : res bool :=
  if truthy paid_at then
    p ← num paid_at;
    Ok ((start_timestamp <=? p) && (p <=? end_timestamp))
  else Ok false.

(** The client-side filtering loop; [filtered_invoices] is the list the
    loop appends to. *)
Fixpoint filter_loop (start_timestamp end_timestamp : Z)
    (filtered_invoices : list pyval) (raw : list pyval) : res (list pyval) :=
  match raw with
  | [] => Ok filtered_invoices
  | inv :: rest =>
      st ← get inv "status_transitions" (PDict ∅);
      paid_at ← get st "paid_at" PNone;
      keep ← paid_in_range start_timestamp end_timestamp paid_at;
      if (keep : bool)
      then filter_loop start_timestamp end_timestamp (filtered_invoices ++ [inv]) rest
      else filter_loop start_timestamp end_timestamp filtered_invoices rest
  end.

(** [get_paid_invoices] once the pagination loop has delivered
    [all_paid_invoices_raw] (already converted with [to_dict_recursive]). *)
Definition get_paid_invoices (all_paid_invoices_raw : list pyval)
    (start_timestamp end_timestamp : Z) : res (list pyval) :=
  filter_loop start_timestamp end_timestamp [] all_paid_invoices_raw.

End StripeClient.

(* ===================================================================== *)
(** ** src/infakt_client.py *)
(* ===================================================================== *)

Module InfaktClient.

(** A [requests.Response]: [json] is what [response.json()] returns,
    [None] when the body does not parse and the call raises a JSON decode
    error. *)
Record response : Type := mk_response {
  status_code : Z;
  text : string;
  json : option pyval
}.

Record request : Type := mk_request {
  endpoint : string;
  data : pyval       (* the value handed to [json.dumps] *)
}.

(** What [requests.post] does with a request. *)
Inductive post_result : Type :=
  | Responded (r : response)
  | RequestFailed          (* a [RequestException] without a response *)
  | Crashed (e : exn).     (* any other [Exception] *)

(** Exceptions that leave the [try] body, by the handler that takes them. *)
Inductive raised : Type :=
  | RequestException (r : option response)
  | OtherException.

Inductive log_entry : Type :=
  | InfoSubmitted (task_ref : pyval)
  | ErrorSending
  | ErrorResponseJson (error_details : pyval)
  | ErrorResponseText (body : string)
  | ErrorUnexpected.

(** [response.raise_for_status()]: [HTTPError] for 4xx and 5xx. *)
Definition is_http_error (r : response) : bool :=
  ((400 <=? status_code r) && (status_code r <? 500))
  || ((500 <=? status_code r) && (status_code r <? 600)).

Definition base_url : string := "https://api.infakt.pl/api/v3".

(** The body of the [try]: its value and what it logged, or the exception
    that leaves it.  [requests]' own JSON decode error is a
    [RequestException] that carries no response. *)
Definition try_body (result_of_post : post_result)
  : (pyval * list log_entry) + raised :=
  match result_of_post with
  | RequestFailed => inr (RequestException None)
  | Crashed _ => inr OtherException
  | Responded r =>
      if is_http_error r then inr (RequestException (Some r))
      else match json r with
           | None => inr (RequestException None)
           | Some response_data =>
               match get response_data "invoice_task_reference_number" PNone with
               | Ok ref => inl (response_data, [InfoSubmitted ref])
               | Raise _ => inr OtherException
               end
           end
  end.

Record outcome : Type := mk_outcome {
  returned : res pyval;        (* the return value, or an escaping exception *)
  log : list log_entry;
  sent : list request
}.

(** The [except] clauses: every exception that leaves the [try] body is
    logged and turned into [None]. *)
Definition except_clauses (req : request) (e : raised) : outcome :=
  match e with
  | RequestException None => mk_outcome (Ok PNone) [ErrorSending] [req]
  | RequestException (Some r) =>
      match json r with
      | Some error_details =>
          mk_outcome (Ok PNone) [ErrorSending; ErrorResponseJson error_details] [req]
      | None =>
          mk_outcome (Ok PNone) [ErrorSending; ErrorResponseText (text r)] [req]
      end
  | OtherException => mk_outcome (Ok PNone) [ErrorUnexpected] [req]
  end.

Definition create_invoice_async (post : request → post_result)
    (invoice_payload : gmap string pyval) : outcome :=
  let payload :=
    match invoice_payload !! "invoice" with
    | None => {["invoice" := PDict invoice_payload]}
    | Some _ => invoice_payload
    end in
  let req := mk_request (base_url +:+ "/async/invoices.json") (PDict payload) in
  match try_body (post req) with
  | inl (response_data, l) => mk_outcome (Ok response_data) l [req]
  | inr e => except_clauses req e
  end.

End InfaktClient.

(* ===================================================================== *)
(** ** src/main.py *)
(* ===================================================================== *)

Module Main.

(** The [tax_percentage] of a line item: the percentage of the first
    expanded tax rate, [None] when there is no tax rate. *)
Definition tax_percentage_of (item : pyval) : res pyval :=
  tr ← get item "tax_rates" PNone;
  if truthy tr then
    n ← (t ← getitem item "tax_rates"; len t);
    if 0 <? n then
      first ← (t ← getitem item "tax_rates"; getitem0 t);
      get first "percentage" PNone
    else Ok PNone
  else Ok PNone.

(** [sum(t.get('amount', 0) for t in ts)], with the running total [acc]. *)
Fixpoint sum_amounts (acc : Z) (ts : list pyval) : res Z :=
  match ts with
  | [] => Ok acc
  | t :: rest =>
      a ← get t "amount" (PInt 0);
      n ← num a;
      sum_amounts (acc + n) rest
  end.

Definition tax_amount_total_of (item : pyval) : res Z :=
  ta ← get item "tax_amounts" (PList []);
  ts ← iter ta;
  sum_amounts 0 ts.

(** [int(item['amount'] / item['quantity']) if item.get('quantity')
     else item.get('amount')] *)
Definition unit_net_price_of (item : pyval) : res pyval :=
  q ← get item "quantity" PNone;
  if truthy q then
    a ← getitem item "amount";
    q ← getitem item "quantity";
    x ← num a;
    y ← num q;
    PInt <$> Float64.int_truediv x y
  else get item "amount" PNone.

(** One pass of the loop body for an item that is a [line_item]: the
    service record appended to [infakt_services]. *)
Definition build_service (item : pyval) : res (gmap string pyval) :=
  tax_percentage ← tax_percentage_of item;
  tax_amount_total ← tax_amount_total_of item;
  name ← get item "description" (PStr "N/A");
  quantity ← get item "quantity" (PInt 1);
  unit ← (p ← get item "price" (PDict ∅); get p "unit_label" (PStr "szt."));
  net_price ← get item "amount" PNone;
  gross_price ← (a ← get item "amount" (PInt 0); n ← num a; Ok (n + tax_amount_total));
  unit_net_price ← unit_net_price_of item;
  let service : gmap string pyval :=
    <["flat_rate_tax_symbol" := PStr "12"]>
      (<["unit_net_price" := unit_net_price]>
        (<["gross_price" := PInt gross_price]>
          (<["tax_price" := PInt tax_amount_total]>
            (<["net_price" := net_price]>
              (<["unit" := unit]>
                (<["quantity" := quantity]>
                  (<["name" := name]> ∅))))))) in
  let infakt_tax_symbol := Utils.map_stripe_tax_rate_to_infakt_symbol tax_percentage in
  let service :=
    if truthy infakt_tax_symbol
    then <["tax_symbol" := infakt_tax_symbol]> service
    else service in
  Ok (drop_none service).

Definition is_line_item (item : pyval) : res bool :=
  obj ← get item "object" PNone;
  Ok (eq_str obj "line_item").

(** The [for item in stripe_invoice['lines']['data']] loop. *)
Fixpoint services_loop (infakt_services : list pyval) (items : list pyval)
  : res (list pyval) :=
  match items with
  | [] => Ok infakt_services
  | item :: rest =>
      li ← is_line_item item;
      if (li : bool) then
        s ← build_service item;
        services_loop (infakt_services ++ [PDict s]) rest
      else services_loop infakt_services rest
  end.

(** The [for tax_id_obj in customer_tax_ids] loop; [nip] is the value
    captured so far. *)
Fixpoint nip_loop (nip : pyval) (ids : list pyval) : res pyval :=
  match ids with
  | [] => Ok nip
  | tax_id_obj :: rest =>
      value ← get tax_id_obj "value" PNone;
      if truthy value then
        ty ← get tax_id_obj "type" PNone;
        if eq_str ty "eu_vat" then Ok value
        else nip_loop value rest
      else nip_loop nip rest
  end.

(** The tax identifier the transformation passes to [get_client_details]. *)
Definition extract_nip (stripe_invoice : pyval) : res pyval :=
  customer_tax_ids ← get stripe_invoice "customer_tax_ids" (PList []);
  ids ← iter customer_tax_ids;
  nip_loop PNone ids.

(** [s.upper()] on whatever [.get('currency', 'PLN')] returned. *)
Definition upper `{rt : Runtime} (v : pyval) : res pyval :=
  match v with
  | PStr s => Ok (PStr (str_upper s))
  | _ => Raise AttributeError
  end.

(** [transform_stripe_to_infakt]: [Ok None] is the skip outcome. *)
Definition transform_stripe_to_infakt `{rt : Runtime} (stripe_invoice : pyval)
  : res (option (gmap string pyval)) :=
  total ← get stripe_invoice "total" (PInt 0);
  if eq_int total 0 then Ok None
  else
    lines ← get stripe_invoice "lines" PNone;
    no_lines ←
      (if negb (truthy lines) then Ok true
       else l ← getitem stripe_invoice "lines";
            d ← get l "data" PNone;
            Ok (negb (truthy d)));
    if (no_lines : bool) then Ok None
    else
      items ← (l ← getitem stripe_invoice "lines"; d ← getitem l "data"; iter d);
      infakt_services ← services_loop [] items;
      if negb (truthy (PList infakt_services)) then Ok None
      else
        paid_at_ts ← (st ← get stripe_invoice "status_transitions" (PDict ∅);
                      get st "paid_at" PNone);
        let paid_date_str := Utils.timestamp_to_infakt_date paid_at_ts in
        created ← get stripe_invoice "created" PNone;
        let sale_date_str :=
          if truthy paid_date_str then paid_date_str
          else Utils.timestamp_to_infakt_date created in
        nip ← extract_nip stripe_invoice;
        customer ← get stripe_invoice "customer" PNone;
        client_data ← Utils.get_client_details customer nip;
        currency ← (c ← get stripe_invoice "currency" (PStr "PLN"); upper c);
        payment_method ← Utils.map_stripe_payment_method stripe_invoice;
        number ← get stripe_invoice "number" PNone;
        subtotal ← get stripe_invoice "subtotal" PNone;
        tax ← get stripe_invoice "tax" PNone;
        gross ← get stripe_invoice "total" PNone;
        amount_paid ← get stripe_invoice "amount_paid" PNone;
        let fixed : gmap string pyval :=
          <["services" := PList infakt_services]>
            (<["sale_type" := PStr "service"]>
              (<["left_to_pay" := PInt 0]>
                (<["paid_price" := amount_paid]>
                  (<["gross_price" := gross]>
                    (<["tax_price" := tax]>
                      (<["net_price" := subtotal]>
                        (<["number" := number]>
                          (<["payment_method" := payment_method]>
                            (<["kind" := PStr "vat"]>
                              (<["status" := PStr "paid"]>
                                (<["currency" := currency]>
                                  (<["payment_date" := paid_date_str]>
                                    (<["paid_date" := paid_date_str]>
                                      (<["sale_date" := sale_date_str]>
                                        (<["invoice_date" := paid_date_str]> ∅)))))))))))))))
        in
        (* [**client_data] comes last in the literal, so its keys win *)
        let payload := client_data ∪ fixed in
        let cleaned_payload := drop_none payload in
        if negb (truthy (dict_get cleaned_payload "services" PNone)) then Ok None
        else if negb (truthy (dict_get cleaned_payload "invoice_date" PNone)) then Ok None
        else Ok (Some cleaned_payload).

End Main.

(* ===================================================================== *)
(** ** src/stripe_client.py: the constructor and the pagination loop *)
(* ===================================================================== *)

Module StripeFetch.

(** [StripeClient.__init__] *)
Definition init (api_key : pyval) : res unit :=
  if negb (truthy api_key) then Raise ValueError else Ok tt.

(** What one call of [stripe.Invoice.list] does. *)
Inductive list_result : Type :=
  | Page (data : list pyval) (has_more : bool)
  | RateLimitError
  | StripeError            (* any other [stripe.error.StripeError] *)
  | OtherError (e : exn).  (* any other [Exception] *)

(** Why the loop re-raised. *)
Inductive failure : Type :=
  | StripeFailure
  | Unexpected (e : exn).

(** The variables of the loop, and what it did to the outside: the
    [starting_after] argument of every call so far (oldest first) and the
    seconds spent in [time.sleep]. *)
Record fetch_state : Type := mk_fetch {
  all_paid_invoices_raw : list pyval;
  starting_after : pyval;
  cursors : list pyval;
  slept : Z
}.

Definition initial : fetch_state := mk_fetch [] PNone [] 0.

Inductive fetch_outcome : Type :=
  | Fetched (s : fetch_state)             (* the loop was left with [break] *)
  | Failed (f : failure) (s : fetch_state) (* the loop re-raised *)
  | Calling (s : fetch_state).            (* the next call has not answered *)

(** [obj.id] on a [StripeObject] *)
Definition attr_id (obj : pyval) : res pyval :=
  match obj with
  | PDict m => match m !! "id" with Some v => Ok v | None => Raise AttributeError end
  | _ => Raise AttributeError
  end.

(** [while True: ...], run against the answers the API gives to the
    successive calls. *)
Fixpoint fetch_loop (answers : list list_result) (st : fetch_state) : fetch_outcome :=
  match answers with
  | [] => Calling st
  | answer :: rest =>
      let st := mk_fetch (all_paid_invoices_raw st) (starting_after st)
                         (cursors st ++ [starting_after st]) (slept st) in
      match answer with
      | RateLimitError =>
          fetch_loop rest (mk_fetch (all_paid_invoices_raw st) (starting_after st)
                                    (cursors st) (slept st + 5))
      | StripeError => Failed StripeFailure st
      | OtherError e => Failed (Unexpected e) st
      | Page data has_more =>
          match last data with
          | None => Fetched st
          | Some last_invoice =>
              let st := mk_fetch (all_paid_invoices_raw st ++ data) (starting_after st)
                                 (cursors st) (slept st) in
              if negb has_more then Fetched st
              else match attr_id last_invoice with
                   | Ok id =>
                       fetch_loop rest (mk_fetch (all_paid_invoices_raw st) id
                                                 (cursors st) (slept st))
                   | Raise e => Failed (Unexpected e) st
                   end
          end
      end
  end.

(** The whole of [get_paid_invoices]. *)
Inductive result : Type :=
  | Returned (filtered_invoices : list pyval)
  | Raised (f : failure)
  | Waiting.

Definition get_paid_invoices (answers : list list_result)
    (start_timestamp end_timestamp : Z) : result :=
  match fetch_loop answers initial with
  | Fetched st =>
      match StripeClient.get_paid_invoices (all_paid_invoices_raw st)
              start_timestamp end_timestamp with
      | Ok filtered => Returned filtered
      | Raise e => Raised (Unexpected e)
      end
  | Failed f _ => Raised f
  | Calling _ => Waiting
  end.

End StripeFetch.

(* ===================================================================== *)
(** ** src/infakt_client.py: the constructor *)
(* ===================================================================== *)

Module InfaktInit.

(** [InfaktClient.__init__] *)
Definition init (api_key : pyval) : res unit :=
  if negb (truthy api_key) then Raise ValueError else Ok tt.

End InfaktInit.

(* ===================================================================== *)
(** ** src/main.py: the run *)
(* ===================================================================== *)

Module Orchestrator.

(** What a Python [set] keeps of a hashable identifier: [None], an integer
    ([True] and [False] hash and compare as 1 and 0) or a string.  Lists
    and dicts are unhashable. *)
Definition key : Type := option (Z + string).

Definition hash_key (v : pyval) : res key :=
  match v with
  | PNone => Ok None
  | PBool b => Ok (Some (inl (Z.b2z b)))
  | PInt z => Ok (Some (inl z))
  | PStr s => Ok (Some (inr s))
  | PList _ | PDict _ => Raise TypeError
  end.

(** The counters and the set of the loop, and what the loop did to the
    outside: the identifiers it prompted for and the requests it posted
    (oldest first). *)
Record tally : Type := mk_tally {
  success_count : Z;
  failure_count : Z;
  skipped_by_user_count : Z;
  processed_stripe_ids : gset key;
  prompted : list key;
  posted : list (key * InfaktClient.request)
}.

Definition start : tally := mk_tally 0 0 0 ∅ [] [].

(** What ends the run early: an exception, or the end of the input at
    the prompt. *)
Inductive abort : Type :=
  | Exception (e : exn)
  | EOFError.

Inductive step : Type :=
  | Next (st : tally)
  | Stop (a : abort) (st : tally).

(** [a / b] on integers, for its exceptions only. *)
Definition truediv_check (a b : Z) : res unit :=
  if b =? 0 then Raise ZeroDivisionError
  else if a =? 0 then Ok tt
  else _ ← Float64.div_pos (Z.abs a) (Z.abs b); Ok tt.

Definition is_str (v : pyval) : bool :=
  match v with PStr _ => true | _ => false end.

(** The exceptions of building [details_summary]: the division of the
    gross price by 100, and [", ".join] over address parts that are not
    strings.  The text itself goes to the operator and is not kept. *)
Definition details_summary (infakt_payload : gmap string pyval) : res unit :=
  let gross_price_units := dict_get infakt_payload "gross_price" (PInt 0) in
  _ ← (if is_none gross_price_units then Ok tt
       else n ← num gross_price_units; truediv_check n 100);
  let street := dict_get infakt_payload "client_street" PNone in
  let country := dict_get infakt_payload "client_country" PNone in
  if (truthy street && negb (is_str street))
     || (truthy country && negb (is_str country))
  then Raise TypeError
  else Ok tt.

(** [input(...).lower() == 'y']: the only strings that lower-case to
    ["y"] are ["y"] and ["Y"]. *)
Definition answers_yes (typed : string) : bool :=
  String.eqb typed "y" || String.eqb typed "Y".

(** [result and result.get('invoice_task_reference_number')], as a truth
    value. *)
Definition task_accepted (result : pyval) : res bool :=
  if truthy result then
    ref ← get result "invoice_task_reference_number" PNone;
    Ok (truthy ref)
  else Ok false.

Definition record_processed (k : key) (st : tally) : tally :=
  mk_tally (success_count st) (failure_count st) (skipped_by_user_count st)
           ({[k]} ∪ processed_stripe_ids st) (prompted st) (posted st).

(** One pass of [for invoice_data in stripe_invoices], given what the
    operator types at the prompt ([None]: end of input) and how the
    destination answers a request. *)
Definition process_invoice `{rt : Runtime}
    (typed : option string) (post : InfaktClient.request → InfaktClient.post_result)
    (st : tally) (invoice_data : pyval) : step :=
  match get invoice_data "id" PNone with
  | Raise e => Stop (Exception e) st
  | Ok stripe_id =>
      if negb (truthy stripe_id) then Next st
      else
        match hash_key stripe_id with
        | Raise e => Stop (Exception e) st
        | Ok k =>
            if decide (k ∈ processed_stripe_ids st) then Next st
            else
              match Main.transform_stripe_to_infakt invoice_data with
              | Raise e => Stop (Exception e) st
              | Ok None =>
                  Next (record_processed k
                          (mk_tally (success_count st) (failure_count st + 1)
                                    (skipped_by_user_count st)
                                    (processed_stripe_ids st) (prompted st) (posted st)))
              | Ok (Some infakt_payload) =>
                  if negb (truthy (PDict infakt_payload)) then
                    Next (record_processed k
                            (mk_tally (success_count st) (failure_count st + 1)
                                      (skipped_by_user_count st)
                                      (processed_stripe_ids st) (prompted st) (posted st)))
                  else
                    match details_summary infakt_payload with
                    | Raise e => Stop (Exception e) st
                    | Ok _ =>
                        let st := mk_tally (success_count st) (failure_count st)
                                           (skipped_by_user_count st)
                                           (processed_stripe_ids st)
                                           (prompted st ++ [k]) (posted st) in
                        match typed with
                        | None => Stop EOFError st
                        | Some user_confirm =>
                            if answers_yes user_confirm then
                              let o := InfaktClient.create_invoice_async post
                                         {["invoice" := PDict infakt_payload]} in
                              let st := mk_tally (success_count st) (failure_count st)
                                          (skipped_by_user_count st)
                                          (processed_stripe_ids st) (prompted st)
                                          (posted st ++ ((λ r, (k, r)) <$> InfaktClient.sent o)) in
                              match InfaktClient.returned o ≫= task_accepted with
                              | Raise e => Stop (Exception e) st
                              | Ok true =>
                                  Next (record_processed k
                                          (mk_tally (success_count st + 1) (failure_count st)
                                                    (skipped_by_user_count st)
                                                    (processed_stripe_ids st)
                                                    (prompted st) (posted st)))
                              | Ok false =>
                                  Next (record_processed k
                                          (mk_tally (success_count st) (failure_count st + 1)
                                                    (skipped_by_user_count st)
                                                    (processed_stripe_ids st)
                                                    (prompted st) (posted st)))
                              end
                            else
                              Next (record_processed k
                                      (mk_tally (success_count st) (failure_count st)
                                                (skipped_by_user_count st + 1)
                                                (processed_stripe_ids st)
                                                (prompted st) (posted st)))
                        end
                    end
              end
        end
  end.

(** The loop over [stripe_invoices]; [i] counts the invoices seen, and the
    operator's input and the destination's answers are given per
    invoice. *)
Fixpoint process_loop `{rt : Runtime}
    (typed : nat → option string)
    (post : nat → InfaktClient.request → InfaktClient.post_result)
    (i : nat) (st : tally) (stripe_invoices : list pyval) : step :=
  match stripe_invoices with
  | [] => Next st
  | invoice_data :: rest =>
      match process_invoice (typed i) (post i) st invoice_data with
      | Next st' => process_loop typed post (S i) st' rest
      | Stop a st' => Stop a st'
      end
  end.

(** The settings read from the environment: the two keys as [os.getenv]
    returns them, and the target year and month when [int(...)] accepted
    both. *)
Record config : Type := mk_config {
  STRIPE_SECRET_KEY : pyval;
  INFAKT_API_KEY : pyval;
  TARGET : option (Z * Z)
}.

Inductive exit : Type :=
  | Exit (code : Z) (st : tally)
  | NoExit.     (* the pagination loop is still calling *)

(** The module body and the [__main__] block. *)
Definition main `{rt : Runtime} (cfg : config)
    (answers : list StripeFetch.list_result)
    (typed : nat → option string)
    (post : nat → InfaktClient.request → InfaktClient.post_result) : exit :=
  match TARGET cfg with
  | None => Exit 1 start
  | Some (TARGET_YEAR, TARGET_MONTH) =>
      if negb (truthy (STRIPE_SECRET_KEY cfg) && truthy (INFAKT_API_KEY cfg)
               && truthy (PInt TARGET_YEAR) && truthy (PInt TARGET_MONTH))
      then Exit 1 start
      else
        match (_ ← StripeFetch.init (STRIPE_SECRET_KEY cfg);
               _ ← InfaktInit.init (INFAKT_API_KEY cfg);
               Utils.get_month_timestamps TARGET_YEAR TARGET_MONTH) with
        | Raise _ => Exit 1 start
        | Ok (start_ts, end_ts) =>
            match StripeFetch.get_paid_invoices answers start_ts end_ts with
            | StripeFetch.Waiting => NoExit
            | StripeFetch.Raised _ => Exit 1 start
            | StripeFetch.Returned stripe_invoices =>
                if negb (truthy (PList stripe_invoices)) then Exit 0 start
                else
                  match process_loop typed post 0 start stripe_invoices with
                  | Next st => Exit 0 st
                  | Stop _ st => Exit 1 st
                  end
            end
        end
  end.

End Orchestrator.

(* ===================================================================== *)
(** ** A concrete runtime for closed examples *)
(* ===================================================================== *)

Module SampleRuntime.
Import Datetime.

(** [_ord2ymd]: the calendar date of an ordinal.  [days_in_month 1] is
    the table [_DAYS_IN_MONTH] of a common year. *)
Definition ord2ymd (ord : Z) : Z * Z * Z :=
  let n := ord - 1 in
  let n400 := n / 146097 in let n := n mod 146097 in
  let n100 := n / 36524 in let n := n mod 36524 in
  let n4 := n / 1461 in let n := n mod 1461 in
  let n1 := n / 365 in let n := n mod 365 in
  let year := n400 * 400 + 1 + n100 * 100 + n4 * 4 + n1 in
  if (n1 =? 4) || (n100 =? 4) then (year - 1, 12, 31)
  else
    let leapyear := (n1 =? 3) && (negb (n4 =? 24) || (n100 =? 3)) in
    let month := (n + 50) / 32 in
    let preceding :=
      DAYS_BEFORE_MONTH month + (if (2 <? month) && leapyear then 1 else 0) in
    if n <? preceding then
      let month := month - 1 in
      let preceding :=
        preceding - (days_in_month 1 month
                     + (if (month =? 2) && leapyear then 1 else 0)) in
      (year, month, n - preceding + 1)
    else (year, month, n - preceding + 1).

Definition digit (n : Z) : string :=
  String (ascii_of_nat (48 + Z.to_nat (n mod 10))) EmptyString.

Definition pad2 (n : Z) : string := digit (n / 10) +:+ digit n.
Definition pad4 (n : Z) : string := pad2 (n / 100) +:+ pad2 (n mod 100).

(** [fromtimestamp(ts, tz=utc).strftime('%Y-%m-%d')] for integer
    timestamps that fall in the years 1 to 9999. *)
Definition strftime (ts : pyval) : option string :=
  match num ts with
  | Ok s =>
      let ord := s / 86400 + EPOCH_ORDINAL in
      if (1 <=? ord) && (ord <=? MAXORDINAL) then
        let '(y, m, d) := ord2ymd ord in
        Some (pad4 y +:+ "-" +:+ pad2 m +:+ "-" +:+ pad2 d)
      else None
  | Raise _ => None
  end.

Definition upper_ascii (c : ascii) : ascii :=
  let n := nat_of_ascii c in
  if (97 <=? n)%nat && (n <=? 122)%nat then ascii_of_nat (n - 32) else c.

Fixpoint upper (s : string) : string :=
  match s with
  | EmptyString => EmptyString
  | String c s' => String (upper_ascii c) (upper s')
  end.

#[export] Instance runtime : Runtime :=
  {| strftime_utc := strftime; str_upper := upper |}.

End SampleRuntime.

(* ===================================================================== *)
(** ** Vocabulary of the properties, and concrete inputs *)
(* ===================================================================== *)

(** Seconds from the epoch to midnight UTC at the start of a calendar day. *)
Definition midnight_utc (y m d : Z) : Z :=
  (Datetime.ymd2ord y m d - Datetime.EPOCH_ORDINAL) * 86400.

(** The month after [(y, m)]. *)
Definition following_month (y m : Z) : Z * Z :=
  if m =? 12 then (y + 1, 1) else (y, m + 1).

(** Case analysis on a month number known to lie in [1..12]. *)
Ltac month_cases m :=
  let H := fresh "Hmonth" in
  assert (m = 1 \/ m = 2 \/ m = 3 \/ m = 4 \/ m = 5 \/ m = 6 \/ m = 7
          \/ m = 8 \/ m = 9 \/ m = 10 \/ m = 11 \/ m = 12) as H by lia;
  destruct H as [->|[->|[->|[->|[->|[->|[->|[->|[->|[->|[->| ->]]]]]]]]]]];
  try lia.

(** Evaluate sums of numerals left behind by a substitution. *)
Ltac eval_numeral_sums :=
  repeat match goal with
         | |- context [Z.pos ?p + Z.pos ?q] =>
             let r := eval vm_compute in (Z.pos p + Z.pos q) in
             change (Z.pos p + Z.pos q) with r
         end.

(** Peel one [x ← r; k] off a hypothesis that says the whole returns. *)
Ltac bind_inv H x Hx :=
  match type of H with
  | ?r ≫= _ = Ok _ =>
      destruct r as [x|] eqn:Hx; cbn [mbind res_bind] in H; [|discriminate H]
  end.

Definition amount_of (t : pyval) : res Z := a ← get t "amount" (PInt 0); num a.

Definition is_ok {A} (r : res A) : bool :=
  match r with Ok _ => true | Raise _ => false end.

(** Scenario B of the specification: one line with a quantity of two and
    one applied tax amount. *)
Definition item_b : gmap string pyval :=
  <["object" := PStr "line_item"]>
    (<["amount" := PInt 4000]>
      (<["quantity" := PInt 2]>
        (<["tax_amounts" := PList [PDict {["amount" := PInt 800]}]]> ∅))).

(** A credit line: negative amount, quantity two. *)
Definition item_credit : gmap string pyval :=
  <["object" := PStr "line_item"]>
    (<["amount" := PInt (-5)]>
      (<["quantity" := PInt 2]> ∅)).

(** A line without a quantity. *)
Definition item_no_quantity : gmap string pyval :=
  <["object" := PStr "line_item"]> (<["amount" := PInt 1500]> ∅).

(** A line taxed at 23 percent, and one whose rate carries no percentage. *)
Definition item_vat23 : gmap string pyval :=
  <["object" := PStr "line_item"]>
    (<["amount" := PInt 1000]>
      (<["tax_rates" := PList [PDict {["percentage" := PInt 23]}]]> ∅)).

Definition item_exempt : gmap string pyval :=
  <["object" := PStr "line_item"]>
    (<["amount" := PInt 1000]>
      (<["tax_rates" := PList [PDict {["percentage" := PNone]}]]> ∅)).

(** A line that has applied tax amounts but no [amount]. *)
Definition item_no_amount : gmap string pyval :=
  <["object" := PStr "line_item"]>
    (<["tax_amounts" := PList [PDict {["amount" := PInt 800]}]]> ∅).

(** The tax percentage a line shows: the [percentage] of the first of its
    [tax_rates], null when that rate has none or a null one, and null when
    the line has no tax rate at all ([tax_rates] missing, null or empty). *)
Definition first_tax_rate_percentage (im : gmap string pyval) : pyval :=
  match im !! "tax_rates" with
  | Some (PList (PDict rd :: _)) => dict_get rd "percentage" PNone
  | _ => PNone
  end.

(** An entry of the lines list whose [object] field equals ["line_item"]. *)
Definition has_object_line_item (item : pyval) : bool :=
  match item with
  | PDict d => eq_str (dict_get d "object" PNone) "line_item"
  | _ => false
  end.


(** A tax-identifier record. *)
Definition tax_id (type value : string) : pyval :=
  PDict (<["type" := PStr type]> (<["value" := PStr value]> ∅)).

(** Scenario E of the specification, and a variation without an
    [eu_vat] record. *)
Definition invoice_ein_then_eu_vat : pyval :=
  PDict {["customer_tax_ids" := PList [tax_id "us_ein" "1"; tax_id "eu_vat" "2"]]}.

Definition invoice_ein_then_gb_vat : pyval :=
  PDict {["customer_tax_ids" := PList [tax_id "us_ein" "1"; tax_id "gb_vat" "2"]]}.

(** The first record of a list that carries a truthy value, as the
    comment in the source ("otherwise take the first value found") and the
    specification describe the fallback. *)
Fixpoint first_value (ids : list pyval) : pyval :=
  match ids with
  | [] => PNone
  | PDict d :: rest =>
      if truthy (dict_get d "value" PNone) then dict_get d "value" PNone
      else first_value rest
  | _ :: rest => first_value rest
  end.

(** The last such record. *)
Fixpoint last_value (nip : pyval) (ids : list pyval) : pyval :=
  match ids with
  | [] => nip
  | PDict d :: rest =>
      if truthy (dict_get d "value" PNone)
      then last_value (dict_get d "value" PNone) rest
      else last_value nip rest
  | _ :: rest => last_value nip rest
  end.

(** A record of type [eu_vat] with a truthy value. *)
Definition is_eu_vat (t : pyval) : bool :=
  match t with
  | PDict d => truthy (dict_get d "value" PNone) && eq_str (dict_get d "type" PNone) "eu_vat"
  | _ => false
  end.

Definition is_dict (v : pyval) : bool :=
  match v with PDict _ => true | _ => false end.

Definition customer_null_address : pyval :=
  PDict (<["name" := PStr "Jan Kowalski"]> (<["address" := PNone]> ∅)).




(** The customer's address is missing or is an object. *)
Definition address_usable (c : gmap string pyval) : Prop :=
  c !! "address" = None ∨ ∃ a, c !! "address" = Some (PDict a).

(** [status_transitions.paid_at] of an invoice, when it is there. *)
Definition paid_at_of (inv : pyval) : option pyval :=
  match inv with
  | PDict m =>
      match m !! "status_transitions" with
      | Some (PDict st) => st !! "paid_at"
      | _ => None
      end
  | _ => None
  end.

(** The specification's criterion: the paid timestamp is non-null and lies in the
    inclusive range. *)
Definition non_null_and_in_range (start_ts end_ts : Z) (inv : pyval) : bool :=
  match paid_at_of inv with
  | Some (PInt p) => (start_ts <=? p) && (p <=? end_ts)
  | _ => false
  end.

(** The criterion the loop applies: additionally the timestamp is not 0. *)
Definition nonzero_and_in_range (start_ts end_ts : Z) (inv : pyval) : bool :=
  match paid_at_of inv with
  | Some (PInt p) => negb (p =? 0) && (start_ts <=? p) && (p <=? end_ts)
  | _ => false
  end.

(** An invoice as the Stripe API delivers it, as far as the filter looks:
    an object whose [status_transitions] is missing or an object, with
    [paid_at] missing, null or an integer. *)
Definition invoice_shape (inv : pyval) : bool :=
  match inv with
  | PDict m =>
      match m !! "status_transitions" with
      | None => true
      | Some (PDict st) =>
          match st !! "paid_at" with
          | None | Some PNone | Some (PInt _) => true
          | _ => false
          end
      | _ => false
      end
  | _ => false
  end.

Definition invoice_paid_at (id : string) (paid_at : pyval) : pyval :=
  PDict (<["id" := PStr id]>
          (<["status_transitions" := PDict {["paid_at" := paid_at]}]> ∅)).

(** The envelope the destination expects around an invoice. *)
Definition wrapped (invoice_payload : gmap string pyval) : gmap string pyval :=
  if decide (is_Some (invoice_payload !! "invoice"))
  then invoice_payload
  else {["invoice" := PDict invoice_payload]}.

Definition async_endpoint : string :=
  "https://api.infakt.pl/api/v3/async/invoices.json".

(** A server that answers every request with [304 Not Modified] and a
    JSON object. *)
Definition not_modified : InfaktClient.response :=
  InfaktClient.mk_response 304 "{}" (Some (PDict ∅)).

(** A server that rejects every request with [422] and a JSON error body,
    and one that fails with [502] and an HTML page. *)
Definition unprocessable : InfaktClient.response :=
  InfaktClient.mk_response 422 "[422]" (Some (PList [PInt 422])).

Definition bad_gateway : InfaktClient.response :=
  InfaktClient.mk_response 502 "<html>Bad Gateway</html>" None.

Definition bare_invoice : gmap string pyval := {["kind" := PStr "vat"]}.

(** A complete invoice: the line of scenario B, paid on 29 February 2024
    by the customer of scenario C. *)
Definition sample_invoice : pyval :=
  PDict (<["id" := PStr "in_1"]>
          (<["total" := PInt 5000]>
            (<["currency" := PStr "pln"]>
              (<["created" := PInt 1709200000]>
                (<["status_transitions" := PDict {["paid_at" := PInt 1709251199]}]>
                  (<["customer" := PDict {["name" := PStr "Jan Kowalski"]}]>
                    (<["lines" := PDict {["data" := PList [PDict item_b]]}]> ∅))))))).

(** *** The calendar of months *)

(** The months [get_month_timestamps] accepts. *)
Definition month_in_range (y m : Z) : Prop :=
  1 <= y <= 9999 /\ 1 <= m <= 12 /\ ~ (y = 9999 /\ m = 12).

(** [(y, m)] is an earlier month than [(y', m')]. *)
Definition month_before (y m y' m' : Z) : Prop :=
  y < y' \/ (y = y' /\ m < m').

(** *** The pagination loop *)

(** How the pagination loop was left. *)
Inductive ending : Type :=
  | Broke
  | Reraised (f : StripeFetch.failure)
  | StillCalling.

Definition ending_of (o : StripeFetch.fetch_outcome) : ending :=
  match o with
  | StripeFetch.Fetched _ => Broke
  | StripeFetch.Failed f _ => Reraised f
  | StripeFetch.Calling _ => StillCalling
  end.

Definition state_of (o : StripeFetch.fetch_outcome) : StripeFetch.fetch_state :=
  match o with
  | StripeFetch.Fetched s | StripeFetch.Failed _ s | StripeFetch.Calling s => s
  end.

Definition is_rate_limit (a : StripeFetch.list_result) : bool :=
  match a with StripeFetch.RateLimitError => true | _ => false end.

(** The answers with the rate-limit signals taken out. *)
Definition without_rate_limits (answers : list StripeFetch.list_result)
  : list StripeFetch.list_result :=
  List.filter (λ a, negb (is_rate_limit a)) answers.

(** A page after which the loop can go on: it has a last invoice, and
    that invoice has the [id] the next call starts after. *)
Definition full_page (data : list pyval) (id : pyval) : Prop :=
  ∃ last_invoice, last data = Some last_invoice ∧ StripeFetch.attr_id last_invoice = Ok id.

(** An answer after which the loop calls again. *)
Definition keeps_calling (a : StripeFetch.list_result) : Prop :=
  a = StripeFetch.RateLimitError
  ∨ ∃ data id, a = StripeFetch.Page data true ∧ full_page data id.

Definition invoice_with_id (id : string) : pyval := PDict {["id" := PStr id]}.

(** *** The filter on arbitrary invoices *)

(** The number the filter compares with the range: a truthy
    [status_transitions.paid_at] that is a number. *)
Definition paid_time (inv : pyval) : option Z :=
  match paid_at_of inv with
  | Some v => if truthy v then match num v with Ok p => Some p | Raise _ => None end
              else None
  | None => None
  end.

Definition paid_within (start_ts end_ts : Z) (inv : pyval) : bool :=
  match paid_time inv with
  | Some p => (start_ts <=? p) && (p <=? end_ts)
  | None => false
  end.

(** An invoice the filter can read: an object whose [status_transitions]
    is missing or an object, with [paid_at] missing, falsy or a number. *)
Definition readable (inv : pyval) : bool :=
  match inv with
  | PDict m =>
      match m !! "status_transitions" with
      | None => true
      | Some (PDict st) =>
          match st !! "paid_at" with
          | None => true
          | Some v => negb (truthy v) || is_ok (num v)
          end
      | Some _ => false
      end
  | _ => false
  end.

(** *** Client records *)

(** The keys a client record can have. *)
Definition client_keys : list string :=
  ["client_street"; "client_city"; "client_post_code"; "client_country";
   "client_tax_code"; "client_company_name"; "client_business_activity_kind";
   "client_first_name"; "client_last_name"].

(** A field that is carried over unless it is null. *)
Definition unless_null (o : option pyval) : option pyval :=
  match o with
  | Some v => if is_none v then None else Some v
  | None => None
  end.

(** The inputs on which [get_client_details] does not raise: no customer
    data at all, or a customer object whose address is missing or an
    object and whose name, when there is no tax code to make it a company
    name, is a string or falsy. *)
Definition classifier_accepts (customer_data tax_code : pyval) : bool :=
  if negb (truthy customer_data) then true
  else match customer_data with
       | PDict c =>
           match c !! "address" with
           | None | Some (PDict _) =>
               truthy tax_code
               || negb (truthy (dict_get c "name" PNone))
               || Orchestrator.is_str (dict_get c "name" PNone)
           | Some _ => false
           end
       | _ => false
       end.

Definition customer_acme : gmap string pyval :=
  <["name" := PStr "Acme Corp"]>
    (<["address" := PDict (<["line1" := PStr "Main St 1"]>
                            (<["city" := PNone]> ∅))]> ∅).

(** Case analysis on the branch that produced a client record; [inv] is
    the lemma that lists the branches. *)
Ltac client_cases inv Hd :=
  let Hok := fresh "Hok" in
  destruct (inv _ _ _ Hd) as [[? ->]|Hok];
  [ | let c := fresh "c" in let a := fresh "a" in
      let Hc := fresh "Hc" in let Ha := fresh "Ha" in let Hd' := fresh "Hd'" in
      destruct Hok as (c & a & Hc & Ha & Hd'); cbn zeta in Hd';
      repeat match type of Hd' with
             | (if ?b then _ else _) => destruct b eqn:?
             | ∃ _, _ => let n := fresh "n" in let Hn := fresh "Hn" in
                         destruct Hd' as (n & Hn & Hd')
             | match split_first_space ?n with _ => _ end =>
                 let first := fresh "first" in let last := fresh "last" in
                 destruct (split_first_space n) as [[first last]|] eqn:?
             end ].

(** *** Service records *)

(** [d.get(k, dflt)] once null values are dropped: the default for a
    missing key, nothing for a null, the value otherwise. *)
Definition or_default (dflt : pyval) (o : option pyval) : option pyval :=
  match o with
  | None => Some dflt
  | Some v => if is_none v then None else Some v
  end.

(** The keys a service record can have. *)
Definition service_keys : list string :=
  ["name"; "quantity"; "unit"; "net_price"; "tax_price"; "gross_price";
   "unit_net_price"; "flat_rate_tax_symbol"; "tax_symbol"].

(** One pass of the services loop raises [e] on [item]. *)
Definition line_raises (item : pyval) (e : exn) : Prop :=
  Main.is_line_item item = Raise e
  ∨ (Main.is_line_item item = Ok true ∧ Main.build_service item = Raise e).

(** One pass of the services loop goes through on [item]. *)
Definition line_passes (item : pyval) : Prop :=
  Main.is_line_item item = Ok false
  ∨ (Main.is_line_item item = Ok true ∧ ∃ s, Main.build_service item = Ok s).

(** A line whose amount is null. *)
Definition item_null_amount : gmap string pyval :=
  <["object" := PStr "line_item"]> (<["amount" := PNone]> ∅).

Definition invoice_with_lines (items : list pyval) : gmap string pyval :=
  <["id" := PStr "in_7"]>
    (<["total" := PInt 100]>
      (<["lines" := PDict {["data" := PList items]}]> ∅)).

(** *** Transformed invoices *)

(** The top-level fields of a destination invoice that do not come from
    the client record. *)
Definition invoice_keys : list string :=
  ["invoice_date"; "sale_date"; "paid_date"; "payment_date"; "currency";
   "status"; "kind"; "payment_method"; "number"; "net_price"; "tax_price";
   "gross_price"; "paid_price"; "left_to_pay"; "sale_type"; "services"].

(** [status_transitions.paid_at] as the transformation reads it. *)
Definition paid_at_ts_of (m : gmap string pyval) : res pyval :=
  st ← get (PDict m) "status_transitions" (PDict ∅);
  get st "paid_at" PNone.

(** A paid invoice with every field the transformation reads. *)
Definition paid_invoice : gmap string pyval :=
  <["id" := PStr "in_42"]>
    (<["number" := PStr "F-0042"]>
      (<["total" := PInt 4800]>
        (<["subtotal" := PInt 4000]>
          (<["tax" := PInt 800]>
            (<["amount_paid" := PInt 4800]>
              (<["currency" := PStr "eur"]>
                (<["created" := PInt 1709200000]>
                  (<["payment_intent" := PStr "pi_1"]>
                    (<["status_transitions" := PDict {["paid_at" := PInt 1709251199]}]>
                      (<["customer_tax_ids" := PList [tax_id "eu_vat" "DE123456789"]]>
                        (<["customer" := PDict customer_acme]>
                          (<["lines" := PDict {["data" := PList [PDict item_b]]}]>
                            ∅)))))))))))).

Definition is_some_ok {A} (r : res (option A)) : bool :=
  match r with Ok (Some _) => true | _ => false end.

(** Looking a field of a transformed invoice up: first in the client
    record, which has none of the invoice keys, then in the literal;
    [dropped] and [outside] are the lemmas about dropped nulls and about
    keys outside the client record. *)
Ltac payload_field dropped outside Hclient :=
  rewrite dropped;
  rewrite lookup_union_r
    by (eapply outside; [exact Hclient|];
        unfold client_keys; rewrite !not_elem_of_cons;
        split_and!; try done; apply not_elem_of_nil);
  rewrite ?lookup_insert_eq;
  repeat (rewrite lookup_insert_ne by done; rewrite ?lookup_insert_eq).

(** *** The run *)

(** The tally a pass or a run ends with. *)
Definition state_after (r : Orchestrator.step) : Orchestrator.tally :=
  match r with Orchestrator.Next st | Orchestrator.Stop _ st => st end.

(** The set key of an invoice's identifier, when the invoice has a truthy,
    hashable one. *)
Definition id_key (invoice_data : pyval) : option Orchestrator.key :=
  match get invoice_data "id" PNone with
  | Ok stripe_id =>
      if truthy stripe_id then
        match Orchestrator.hash_key stripe_id with
        | Ok k => Some k
        | Raise _ => None
        end
      else None
  | Raise _ => None
  end.

(** The request that carries an invoice in its envelope. *)
Definition enveloped (infakt_payload : gmap string pyval) : InfaktClient.request :=
  InfaktClient.mk_request async_endpoint (PDict {["invoice" := PDict infakt_payload]}).

Definition counted (st : Orchestrator.tally) : Z :=
  Orchestrator.success_count st + Orchestrator.failure_count st
  + Orchestrator.skipped_by_user_count st.

(** Closes the side conditions of one branch of a pass. *)
Ltac tally_leaf :=
  split_and!;
  first [ done
        | lia
        | by left
        | unfold counted; cbn; lia
        | right; by eauto 10
        | symmetry; apply subseteq_union_1_L; set_solver
        | set_solver ].

(** The tally a run of the script ends with; nothing was counted while
    the pagination loop is still calling. *)
Definition tally_of (x : Orchestrator.exit) : Orchestrator.tally :=
  match x with
  | Orchestrator.Exit _ st => st
  | Orchestrator.NoExit => Orchestrator.start
  end.

Definition is_next (r : Orchestrator.step) : bool :=
  match r with Orchestrator.Next _ => true | Orchestrator.Stop _ _ => false end.

Definition has_index {A} (l : list A) (i : nat) : bool :=
  match l !! i with Some _ => true | None => false end.

(** A run for closed examples: February 2024, one page with the paid
    invoice, an operator who confirms and a destination that accepts. *)
Definition february_2024_config : Orchestrator.config :=
  Orchestrator.mk_config (PStr "sk_test") (PStr "key") (Some (2024, 2)).

Definition one_page : list StripeFetch.list_result :=
  [StripeFetch.RateLimitError; StripeFetch.Page [PDict paid_invoice] false].

Definition always_yes : nat → option string := λ _, Some "y".

Definition accepting : nat → InfaktClient.request → InfaktClient.post_result :=
  λ _ _, InfaktClient.Responded
           (InfaktClient.mk_response 201 "{}"
              (Some (PDict {["invoice_task_reference_number" := PStr "task_1"]}))).

(** *** Invoices for the line-by-line properties *)

(** A paid invoice with the given lines. *)
Definition invoice_of_lines (items : list pyval) : gmap string pyval :=
  <["id" := PStr "in_9"]>
    (<["total" := PInt 100]>
      (<["status_transitions" := PDict {["paid_at" := PInt 1709251199]}]>
        (<["lines" := PDict {["data" := PList items]}]> ∅))).

(** What a transformed invoice with exactly one service shows of it. *)
Definition only_service_prices (o : option (gmap string pyval))
  : option (option pyval * option pyval * option pyval) :=
  p ← o;
  match p !! "services" with
  | Some (PList [PDict s]) =>
      Some (s !! "net_price", s !! "tax_price", s !! "gross_price")
  | _ => None
  end.

(* ===================================================================== *)
(** * Properties *)
(* ===================================================================== *)

(** ** Binary64 division of integers *)

Section Float64Facts.
Import Float64.

Lemma rne_div_bounds n d :
  0 <= n -> 0 < d ->
  n / d <= rne_div n d /\ 2 * d * rne_div n d <= 2 * n + d.
Proof.
  intros Hn Hd. unfold rne_div.
  pose proof (Z.div_mod n d ltac:(lia)) as E.
  pose proof (Z.mod_pos_bound n d Hd) as B.
  repeat case_match; try rewrite Z.ltb_lt in *; try rewrite Z.ltb_ge in *; nia.
Qed.

Lemma rne_div_exact k d : 0 < d -> rne_div (k * d) d = k.
Proof.
  intros Hd. unfold rne_div.
  rewrite Z.mod_mul, Z.div_mul by lia.
  replace (2 * 0 <? d) with true; [done|]. symmetry. apply Z.ltb_lt. lia.
Qed.

Lemma ilog2_ratio_lower n d :
  0 < n -> 0 < d ->
  (0 <= ilog2_ratio n d -> d * 2 ^ ilog2_ratio n d <= n)
  /\ (ilog2_ratio n d < 0 -> d <= n * 2 ^ (- ilog2_ratio n d)).
Proof.
  intros Hn Hd. unfold ilog2_ratio.
  destruct (Z.log2_spec n Hn) as [Ln Un].
  destruct (Z.log2_spec d Hd) as [Ld Ud].
  pose proof (Z.log2_nonneg n) as Nn. pose proof (Z.log2_nonneg d) as Nd.
  set (a := Z.log2 n) in *. set (b := Z.log2 d) in *.
  rewrite Z.pow_succ_r in Un, Ud by lia.
  destruct (Z.leb_spec 0 (a - b)) as [Hs|Hs].
  - destruct (Z.leb_spec (d * 2 ^ (a - b)) n) as [H1|H1].
    + split; [done | lia].
    + assert (Ea : 2 ^ a = 2 ^ b * 2 ^ (a - b)).
      { rewrite <- Z.pow_add_r by lia. f_equal; lia. }
      split; intros H.
      * assert (E2 : 2 ^ (a - b) = 2 * 2 ^ (a - b - 1)).
        { rewrite <- Z.pow_succ_r by lia. f_equal; lia. }
        pose proof (Z.pow_pos_nonneg 2 (a - b - 1) ltac:(lia) ltac:(lia)).
        nia.
      * assert (a - b = 0) as E0 by lia. rewrite E0 in *.
        replace (- (0 - 1)) with 1 by lia. change (2 ^ 1) with 2. change (2 ^ 0) with 1 in *. lia.
  - destruct (Z.leb_spec d (n * 2 ^ (- (a - b)))) as [H1|H1].
    + split; [lia | done].
    + split; [lia | intros _].
      assert (Eb : 2 ^ b = 2 ^ a * 2 ^ (b - a)).
      { rewrite <- Z.pow_add_r by lia. f_equal; lia. }
      replace (- (a - b - 1)) with (Z.succ (b - a)) by lia.
      rewrite Z.pow_succ_r by lia.
      pose proof (Z.pow_pos_nonneg 2 (b - a) ltac:(lia) ltac:(lia)).
      nia.
Qed.

Lemma ilog2_ratio_upper n d :
  0 < n -> 0 < d ->
  (0 <= ilog2_ratio n d + 1 -> n < d * 2 ^ (ilog2_ratio n d + 1))
  /\ (ilog2_ratio n d + 1 < 0 -> n * 2 ^ (- (ilog2_ratio n d + 1)) < d).
Proof.
  intros Hn Hd. unfold ilog2_ratio.
  destruct (Z.log2_spec n Hn) as [Ln Un].
  destruct (Z.log2_spec d Hd) as [Ld Ud].
  pose proof (Z.log2_nonneg n) as Nn. pose proof (Z.log2_nonneg d) as Nd.
  set (a := Z.log2 n) in *. set (b := Z.log2 d) in *.
  rewrite Z.pow_succ_r in Un, Ud by lia.
  destruct (Z.leb_spec 0 (a - b)) as [Hs|Hs].
  - destruct (Z.leb_spec (d * 2 ^ (a - b)) n) as [H1|H1].
    + split; [intros _ | lia].
      assert (Ea : 2 ^ a = 2 ^ b * 2 ^ (a - b)).
      { rewrite <- Z.pow_add_r by lia. f_equal; lia. }
      replace (a - b + 1) with (Z.succ (a - b)) by lia.
      rewrite Z.pow_succ_r by lia.
      pose proof (Z.pow_pos_nonneg 2 (a - b) ltac:(lia) ltac:(lia)).
      nia.
    + replace (a - b - 1 + 1) with (a - b) by lia. split; [done | lia].
  - destruct (Z.leb_spec d (n * 2 ^ (- (a - b)))) as [H1|H1].
    + assert (Eb : 2 ^ b = 2 ^ a * 2 ^ (b - a)).
      { rewrite <- Z.pow_add_r by lia. f_equal; lia. }
      split; intros H.
      * assert (a - b + 1 = 0) as E0 by lia. rewrite E0. change (2 ^ 0) with 1.
        assert (b - a = 1) as E1 by lia. rewrite E1 in Eb. change (2 ^ 1) with 2 in Eb. lia.
      * replace (- (a - b + 1)) with (b - a - 1) by lia.
        assert (E2 : 2 ^ (b - a) = 2 * 2 ^ (b - a - 1)).
        { rewrite <- Z.pow_succ_r by lia. f_equal; lia. }
        pose proof (Z.pow_pos_nonneg 2 (b - a - 1) ltac:(lia) ltac:(lia)).
        nia.
    + replace (a - b - 1 + 1) with (a - b) by lia. split; [lia | done].
Qed.


Lemma exponent_nonpos n d :
  0 < n -> 0 < d -> n < 2 ^ 53 * d ->
  Z.max (ilog2_ratio n d - 52) (-1074) <= 0.
Proof.
  intros Hn Hd Hlt.
  destruct (ilog2_ratio_lower n d Hn Hd) as [Hlo _].
  destruct (Z.le_gt_cases (ilog2_ratio n d) 52) as [|Hbig]; [lia|].
  exfalso.
  specialize (Hlo ltac:(lia)).
  pose proof (Z.pow_le_mono_r 2 53 (ilog2_ratio n d) ltac:(lia) ltac:(lia)).
  nia.
Qed.

(** With a quotient below [2^53] the exponent is not positive and the
    division cannot overflow: the result is the scaled quotient rounded
    and then cut back. *)
Lemma div_pos_trunc n d :
  0 < n -> 0 < d -> n < 2 ^ 53 * d ->
  trunc_pos <$> div_pos n d
  = Ok (rne_div (n * 2 ^ (- Z.max (ilog2_ratio n d - 52) (-1074))) d
        / 2 ^ (- Z.max (ilog2_ratio n d - 52) (-1074))).
Proof.
  intros Hn Hd Hlt. unfold div_pos.
  pose proof (exponent_nonpos n d Hn Hd Hlt) as He.
  assert (-1074 <= Z.max (ilog2_ratio n d - 52) (-1074)) as He' by lia.
  set (e := Z.max (ilog2_ratio n d - 52) (-1074)) in *.
  destruct (Z.leb_spec 0 e) as [H0|H0].
  - assert (e = 0) as -> by lia. cbn [Z.opp]. change (2 ^ 0) with 1.
    rewrite !Z.mul_1_r, Z.div_1_r.
    destruct (rne_div_bounds n d ltac:(lia) Hd) as [_ Hub].
    destruct (Z.leb_spec (2 ^ 1024) (rne_div n d)) as [Hov|Hov].
    2:{ cbv [fmap res_fmap trunc_pos]. change (0 <=? 0) with true.
        change (2 ^ 0) with 1. cbv iota. f_equal; lia. }
    exfalso. assert (2 ^ 53 < 2 ^ 1024) by (apply Z.pow_lt_mono_r; lia). nia.
  - pose proof (Z.pow_pos_nonneg 2 (- e) ltac:(lia) ltac:(lia)) as Hp.
    destruct (rne_div_bounds (n * 2 ^ (- e)) d ltac:(nia) Hd) as [_ Hub].
    destruct (Z.leb_spec (2 ^ 1024 * 2 ^ (- e)) (rne_div (n * 2 ^ (- e)) d)) as [Hov|Hov].
    2:{ cbv [fmap res_fmap trunc_pos]. destruct (Z.leb_spec 0 e); [lia | done]. }
    exfalso. assert (2 ^ 54 < 2 ^ 1024) by (apply Z.pow_lt_mono_r; lia).
    set (m := rne_div (n * 2 ^ (- e)) d) in *. set (P := 2 ^ (- e)) in *.
    assert (2 * d * (2 ^ 1024 * P) <= 2 * (n * P) + d) by nia.
    assert (2 * (n * P) + d < 2 * (2 ^ 53 * d * P) + d * P + 1) by nia.
    nia.
Qed.

Lemma int_truediv_sign a b n :
  b <> 0 -> a <> 0 ->
  trunc_pos <$> div_pos (Z.abs a) (Z.abs b) = Ok n ->
  int_truediv a b = Ok (Z.sgn a * Z.sgn b * n).
Proof.
  intros Hb Ha H. unfold int_truediv.
  destruct (Z.eqb_spec b 0); [done|]. destruct (Z.eqb_spec a 0); [done|].
  destruct (div_pos (Z.abs a) (Z.abs b)) as [x|]; [|done].
  injection H as <-. done.
Qed.

(** An exact quotient below [2^53] in magnitude survives the round trip
    through binary64. *)
Lemma int_truediv_exact q d :
  d <> 0 -> Z.abs q < 2 ^ 53 -> int_truediv (q * d) d = Ok q.
Proof.
  intros Hd Hq.
  destruct (Z.eq_dec q 0) as [->|Hq0].
  { unfold int_truediv. destruct (Z.eqb_spec d 0); [done|]. done. }
  rewrite (int_truediv_sign (q * d) d (Z.abs q)); [f_equal; nia | done | nia |].
  rewrite div_pos_trunc; [| nia | lia | nia].
  f_equal. rewrite Z.abs_mul.
  pose proof (exponent_nonpos (Z.abs q * Z.abs d) (Z.abs d) ltac:(nia) ltac:(lia) ltac:(nia)) as He.
  set (k := - Z.max _ _) in *.
  pose proof (Z.pow_pos_nonneg 2 k ltac:(lia) ltac:(lia)) as Hp.
  replace (Z.abs q * Z.abs d * 2 ^ k) with ((Z.abs q * 2 ^ k) * Z.abs d) by lia.
  rewrite rne_div_exact by lia. apply Z.div_mul. lia.
Qed.


(** Rounding a scaled quotient and cutting the scale off again gives the
    floor, as long as the scaled remainder stays more than half a unit
    below the divisor's multiple. *)
Lemma scaled_round_floor n d m P :
  0 <= n -> 0 < d -> 0 < P ->
  2 * (n mod d) * P + d < 2 * d * P ->
  (n * P) / d <= m -> 2 * d * m <= 2 * (n * P) + d ->
  m / P = n / d.
Proof.
  intros Hn Hd HP Hkey Hlb Hub.
  pose proof (Z.div_mod n d ltac:(lia)) as E.
  pose proof (Z.mod_pos_bound n d Hd) as B.
  set (t := n / d) in *. set (r := n mod d) in *.
  assert (n * P = d * (t * P) + r * P) as EP by (rewrite E at 1; ring).
  assert (t * P <= (n * P) / d) as Hlo.
  { apply Z.div_le_lower_bound; [lia|]. rewrite EP. nia. }
  assert (2 * d * m < 2 * d * ((t + 1) * P)) as Hhi.
  { replace (2 * d * ((t + 1) * P)) with (2 * (d * (t * P)) + 2 * d * P) by ring. lia. }
  assert (m < (t + 1) * P) as Hhi' by nia.
  symmetry. apply Z.div_unique with (r := m - t * P); lia.
Qed.

Lemma half_unit_normal r d P :
  0 <= r < d -> 0 < P -> d < 2 * P -> 2 * r * P + d < 2 * d * P.
Proof. intros. assert (r * P <= (d - 1) * P) by nia. lia. Qed.

Lemma half_unit_subnormal r n d Q :
  0 <= r <= n -> 2 <= Q -> n * Q < d ->
  2 * r * (Q * 2 ^ 52) + d < 2 * d * (Q * 2 ^ 52).
Proof.
  intros Hr HQ Hnd.
  assert (r * Q <= n * Q) by nia.
  assert (0 < d) by nia.
  assert (d * 2 <= d * Q) by nia.
  replace (2 * r * (Q * 2 ^ 52)) with (2 ^ 53 * (r * Q)) by ring.
  replace (2 * d * (Q * 2 ^ 52)) with (2 ^ 53 * (d * Q)) by ring.
  lia.
Qed.

Lemma divisor_below_scale n d L :
  0 < n < 2 ^ 53 -> 0 < d -> L <= 52 ->
  (0 <= L -> d * 2 ^ L <= n) -> (L < 0 -> d <= n * 2 ^ (- L)) ->
  d < 2 * 2 ^ (52 - L).
Proof.
  intros Hn Hd HL Hlo1 Hlo2.
  rewrite <- Z.pow_succ_r by lia.
  destruct (Z.le_gt_cases 0 L) as [H0|H0].
  - specialize (Hlo1 H0).
    assert (2 ^ 53 = 2 ^ Z.succ (52 - L) * 2 ^ L) as E53.
    { rewrite <- Z.pow_add_r by lia. f_equal; lia. }
    pose proof (Z.pow_pos_nonneg 2 L ltac:(lia) H0).
    pose proof (Z.pow_pos_nonneg 2 (Z.succ (52 - L)) ltac:(lia) ltac:(lia)).
    set (A := 2 ^ L) in *. set (B := 2 ^ Z.succ (52 - L)) in *. set (C := 2 ^ 53) in *.
    nia.
  - specialize (Hlo2 H0).
    assert (2 ^ Z.succ (52 - L) = 2 ^ 53 * 2 ^ (- L)) as E53.
    { rewrite <- Z.pow_add_r by lia. f_equal; lia. }
    pose proof (Z.pow_pos_nonneg 2 (- L) ltac:(lia) ltac:(lia)).
    set (A := 2 ^ (- L)) in *. set (B := 2 ^ Z.succ (52 - L)) in *. set (C := 2 ^ 53) in *.
    nia.
Qed.

(** Numerators below [2^53] in magnitude: rounding to binary64 never
    reaches the next integer, so [int(a / b)] is the quotient truncated
    toward zero. *)
Lemma int_truediv_small a b :
  b <> 0 -> Z.abs a < 2 ^ 53 -> int_truediv a b = Ok (a ÷ b).
Proof.
  intros Hb Ha.
  destruct (Z.eq_dec a 0) as [->|Ha0].
  { unfold int_truediv. destruct (Z.eqb_spec b 0); [done|]. by rewrite Z.quot_0_l. }
  rewrite (int_truediv_sign a b (Z.abs a / Z.abs b)); [| done | done |].
  { f_equal. symmetry. apply Z.quot_div. done. }
  set (n := Z.abs a) in *. set (d := Z.abs b).
  assert (0 < n) as Hn by lia. assert (0 < d) as Hd by lia.
  assert (n < 2 ^ 53 * d) as Hlt.
  { apply Z.lt_le_trans with (2 ^ 53 * 1); [lia|]. apply Z.mul_le_mono_nonneg_l; lia. }
  rewrite div_pos_trunc by done. f_equal.
  pose proof (exponent_nonpos n d Hn Hd Hlt) as He.
  destruct (ilog2_ratio_lower n d Hn Hd) as [Hlo1 Hlo2].
  destruct (ilog2_ratio_upper n d Hn Hd) as [_ Hup2].
  set (L := ilog2_ratio n d) in *.
  assert (0 < 2 ^ (- Z.max (L - 52) (-1074))) as Hp
    by (apply Z.pow_pos_nonneg; lia).
  assert (0 <= n * 2 ^ (- Z.max (L - 52) (-1074))) as Hnn
    by (apply Z.mul_nonneg_nonneg; lia).
  destruct (rne_div_bounds _ d Hnn Hd) as [Hlb Hub].
  apply scaled_round_floor; [lia | done | done | | done | done].
  pose proof (Z.mod_pos_bound n d Hd) as B.
  destruct (Z.le_gt_cases (-1074) (L - 52)) as [Hnc|Hc].
  - replace (- Z.max (L - 52) (-1074)) with (52 - L) in * by lia.
    apply half_unit_normal; [done | done |].
    apply (divisor_below_scale n); [lia | done | lia | done | done].
  - replace (- Z.max (L - 52) (-1074)) with 1074 in * by lia.
    change (2 ^ 1074) with (2 ^ 1022 * 2 ^ 52).
    apply (half_unit_subnormal _ n).
    + split; [lia|]. apply Z.mod_le; lia.
    + apply (Z.pow_le_mono_r 2 1 1022); lia.
    + specialize (Hup2 ltac:(lia)).
      apply Z.le_lt_trans with (n * 2 ^ (- (L + 1))); [|done].
      apply Z.mul_le_mono_nonneg_l; [lia|]. apply Z.pow_le_mono_r; lia.
Qed.
End Float64Facts.

(** ** The time range calculator *)

Section MonthRange.
Import Datetime.

Lemma days_in_month_bounds y m : 28 <= days_in_month y m <= 31.
Proof. unfold days_in_month. repeat case_match; lia. Qed.

Lemma year_length y :
  days_before_year (y + 1) - days_before_year y = 365 + (if is_leap y then 1 else 0).
Proof.
  unfold days_before_year, is_leap.
  replace (y + 1 - 1) with y by lia.
  destruct (Z.eqb_spec (y mod 4) 0), (Z.eqb_spec (y mod 100) 0),
    (Z.eqb_spec (y mod 400) 0); cbn [negb andb orb];
    Z.div_mod_to_equations; lia.
Qed.

Lemma month_length y m :
  1 <= m <= 12 ->
  ymd2ord (following_month y m).1 (following_month y m).2 1 - ymd2ord y m 1
  = days_in_month y m.
Proof.
  intros Hm. unfold following_month.
  destruct (Z.eqb_spec m 12) as [->|Hne]; cbn [fst snd].
  - unfold ymd2ord. pose proof (year_length y) as Hy. revert Hy.
    generalize (days_before_year (y + 1)) (days_before_year y). intros a b.
    unfold days_before_month, days_in_month. cbn.
    destruct (is_leap y); lia.
  - unfold ymd2ord, days_before_month, days_in_month.
    month_cases m; eval_numeral_sums; cbn; destruct (is_leap y); lia.
Qed.

Lemma ymd2ord_first_bounds y m :
  1 <= y <= 9999 -> 1 <= m <= 12 -> 1 <= ymd2ord y m 1 <= 3652030.
Proof.
  intros Hy Hm.
  assert (0 <= days_before_month y m <= 335) as Hb.
  { unfold days_before_month.
    month_cases m; eval_numeral_sums; cbn; destruct (is_leap y); lia. }
  unfold ymd2ord, days_before_year. Z.div_mod_to_equations. lia.
Qed.

Lemma make_first_of_month y m :
  1 <= y <= 9999 -> 1 <= m <= 12 ->
  make y m 1 0 0 0 = Ok (mk_datetime (ymd2ord y m 1) 0).
Proof.
  intros Hy Hm. unfold make, MINYEAR, MAXYEAR.
  pose proof (days_in_month_bounds y m).
  repeat (rewrite (proj2 (Z.leb_le _ _)) by lia). done.
Qed.

Lemma int_timestamp_exact t :
  Z.abs (epoch_seconds t) < 2 ^ 53 -> int_timestamp t = Ok (epoch_seconds t).
Proof. intros H. apply int_truediv_exact; [lia | done]. Qed.

Lemma first_of_month_timestamp y m :
  1 <= y <= 9999 -> 1 <= m <= 12 ->
  int_timestamp (mk_datetime (ymd2ord y m 1) 0) = Ok (midnight_utc y m 1).
Proof.
  intros Hy Hm. pose proof (ymd2ord_first_bounds y m Hy Hm) as Hb.
  rewrite int_timestamp_exact; unfold epoch_seconds, EPOCH_ORDINAL; cbn [ordinal second_of_day].
  - unfold midnight_utc, EPOCH_ORDINAL. f_equal. lia.
  - assert (2 ^ 53 = 9007199254740992) as -> by reflexivity. lia.
Qed.

(** One second before midnight at the start of a month (other than the
    very first one) is the last second of the day before. *)
Lemma last_second_before y m :
  1 <= y <= 9999 -> 1 <= m <= 12 -> 2 <= ymd2ord y m 1 ->
  (d ← make y m 1 0 0 0; e ← sub_seconds d 1; int_timestamp e)
  = Ok (midnight_utc y m 1 - 1).
Proof.
  intros Hy Hm Hord. pose proof (ymd2ord_first_bounds y m Hy Hm) as Hb.
  rewrite make_first_of_month by done. cbn [mbind res_bind].
  unfold sub_seconds, MAXORDINAL. cbn [ordinal second_of_day].
  set (o := ymd2ord y m 1) in *.
  assert ((o * 86400 + 0 - 1) / 86400 = o - 1) as -> by (Z.div_mod_to_equations; lia).
  assert ((o * 86400 + 0 - 1) mod 86400 = 86399) as -> by (Z.div_mod_to_equations; lia).
  rewrite !(proj2 (Z.leb_le _ _)) by lia. cbn [andb mbind res_bind].
  rewrite int_timestamp_exact; unfold epoch_seconds, EPOCH_ORDINAL; cbn [ordinal second_of_day].
  - unfold midnight_utc, EPOCH_ORDINAL. f_equal. lia.
  - assert (2 ^ 53 = 9007199254740992) as -> by reflexivity. lia.
Qed.

(** C6, in the form that holds. For every year from 1 to 9999 and every
    month from 1 to 12, December 9999 excepted, [get_month_timestamps]
    returns: the start is midnight UTC on day 1 of the month, the end is one
    second before midnight UTC on day 1 of the following month (January of
    the next year after December), and [end - start + 1] is the number of
    days of the month times 86400, leap-year February included. *)
Theorem month_range_inclusive_seconds (year month : Z) :
  1 <= year <= 9999 -> 1 <= month <= 12 -> ~ (year = 9999 /\ month = 12) ->
  ∃ start_ts end_ts,
    Utils.get_month_timestamps year month = Ok (start_ts, end_ts)
    ∧ start_ts = midnight_utc year month 1
    ∧ end_ts = midnight_utc (following_month year month).1 (following_month year month).2 1 - 1
    ∧ end_ts - start_ts + 1 = days_in_month year month * 86400.
Proof.
  intros Hy Hm Hlast.
  pose proof (month_length year month Hm) as Hlen.
  pose proof (ymd2ord_first_bounds year month Hy Hm) as Hb.
  exists (midnight_utc year month 1).
  exists (midnight_utc (following_month year month).1 (following_month year month).2 1 - 1).
  split; [| split; [reflexivity | split; [reflexivity |]]].
  - unfold Utils.get_month_timestamps.
    rewrite (make_first_of_month year month) by done. cbn [mbind res_bind].
    pose proof (days_in_month_bounds year month) as Hd.
    unfold following_month in *.
    destruct (Z.eqb_spec month 12) as [->|Hne]; cbn [fst snd] in *.
    + pose proof (last_second_before (year + 1) 1 ltac:(lia) ltac:(lia) ltac:(lia)) as Hend.
      rewrite first_of_month_timestamp by lia.
      destruct (make (year + 1) 1 1 0 0 0) as [d|]; [|done]. cbn [mbind res_bind] in *.
      destruct (sub_seconds d 1) as [e|]; [|done]. cbn [mbind res_bind] in *.
      by rewrite Hend.
    + pose proof (last_second_before year (month + 1) ltac:(lia) ltac:(lia) ltac:(lia)) as Hend.
      rewrite first_of_month_timestamp by lia.
      destruct (make year (month + 1) 1 0 0 0) as [d|]; [|done]. cbn [mbind res_bind] in *.
      destruct (sub_seconds d 1) as [e|]; [|done]. cbn [mbind res_bind] in *.
      by rewrite Hend.
  - unfold midnight_utc. lia.
Qed.

(** December 9999 has no following month that [datetime] can represent. *)
Lemma december_9999_raises :
  Utils.get_month_timestamps 9999 12 = Raise ValueError.
Proof. vm_compute. reflexivity. Qed.

Lemma month_range_inclusive_seconds_witness :
  ∃ start_ts end_ts,
    Utils.get_month_timestamps 2024 2 = Ok (start_ts, end_ts)
    ∧ end_ts - start_ts + 1 = 29 * 86400.
Proof.
  destruct (month_range_inclusive_seconds 2024 2) as (s & e & Hr & _ & _ & Hlen);
    [lia | lia | lia |].
  exists s, e. split; [exact Hr | exact Hlen].
Defined.

End MonthRange.

(** ** Generic facts about the Python fragment *)

Lemma get_ok v k dflt x :
  get v k dflt = Ok x → ∃ m, v = PDict m ∧ x = dict_get m k dflt.
Proof. destruct v; try discriminate. intros [= <-]. eauto. Qed.

Lemma lookup_drop_none (d : gmap string pyval) k :
  drop_none d !! k = match d !! k with
                     | Some v => if is_none v then None else Some v
                     | None => None
                     end.
Proof. unfold drop_none. rewrite lookup_omap. by destruct (d !! k). Qed.

Section Services.
Import Main.

Lemma sum_amounts_spec ts : ∀ acc r,
  sum_amounts acc ts = Ok r →
  ∃ ns, Forall2 (λ t n, amount_of t = Ok n) ts ns ∧ r = acc + foldr Z.add 0 ns.
Proof.
  induction ts as [|t ts IH]; intros acc r H; cbn in H.
  - injection H as <-. exists []. split; [constructor | cbn; lia].
  - bind_inv H a Ha. bind_inv H n Hn.
    destruct (IH _ _ H) as (ns & Hns & ->).
    exists (n :: ns). split; [|cbn; lia].
    constructor; [|done]. unfold amount_of. rewrite Ha. done.
Qed.

(** What a returned service record contains, field by field. *)
Lemma build_service_fields item s :
  build_service item = Ok s →
  ∃ m tax_percentage tax base unit_net_price,
    item = PDict m
    ∧ tax_percentage_of item = Ok tax_percentage
    ∧ tax_amount_total_of item = Ok tax
    ∧ num (dict_get m "amount" (PInt 0)) = Ok base
    ∧ unit_net_price_of item = Ok unit_net_price
    ∧ s !! "net_price" = m !! "amount"
    ∧ s !! "tax_price" = Some (PInt tax)
    ∧ s !! "gross_price" = Some (PInt (base + tax))
    ∧ s !! "unit_net_price"
        = (if is_none unit_net_price then None else Some unit_net_price)
    ∧ s !! "tax_symbol"
        = (if is_none tax_percentage then Some (PStr "zw") else None).
Proof.
  intros H. unfold build_service in H.
  bind_inv H tp Htp. bind_inv H tax Htax. bind_inv H name Hname.
  bind_inv H quantity Hq. bind_inv H unit_ Hunit. bind_inv H net Hnet.
  bind_inv H gross Hgross. bind_inv H unp Hunp.
  injection H as <-.
  destruct (get_ok _ _ _ _ Hnet) as (m & -> & ->).
  bind_inv Hgross a Ha. bind_inv Hgross base Hbase. injection Hgross as <-.
  cbn in Ha. injection Ha as <-.
  exists m, tp, tax, base, unp.
  repeat (split; [done|]).
  assert (Hnone : m !! "amount" ≠ Some PNone).
  { intros E. unfold dict_get in Hbase. rewrite E in Hbase. discriminate. }
  unfold Utils.map_stripe_tax_rate_to_infakt_symbol.
  destruct (is_none tp); cbn [truthy String.eqb negb Ascii.eqb Bool.eqb andb];
    rewrite !lookup_drop_none; simplify_map_eq; cbn [is_none];
    (split; [|done]);
    unfold dict_get; destruct (m !! "amount") as [[]|]; done.
Qed.

Lemma is_ok_true {A} (r : res A) : is_ok r = true → ∃ a, r = Ok a.
Proof. destruct r; [eauto | discriminate]. Defined.

(** One service record: [tax_price] is the sum of the amounts in the
    item's [tax_amounts], [net_price] is the item's [amount], and
    [gross_price] is that amount as a number (0 when the item has no
    amount) plus the tax. *)
Lemma build_service_prices (m s : gmap string pyval) :
  build_service (PDict m) = Ok s →
  ∃ (net tax : Z) (ts : list pyval) (ns : list Z),
    num (dict_get m "amount" (PInt 0)) = Ok net
    ∧ iter (dict_get m "tax_amounts" (PList [])) = Ok ts
    ∧ Forall2 (λ t n, amount_of t = Ok n) ts ns
    ∧ tax = foldr Z.add 0 ns
    ∧ s !! "net_price" = m !! "amount"
    ∧ s !! "tax_price" = Some (PInt tax)
    ∧ s !! "gross_price" = Some (PInt (net + tax)).
Proof.
  intros H.
  destruct (build_service_fields _ _ H)
    as (m' & tp & tax & base & unp & [= <-] & _ & Htax & Hbase & _ & Hn & Ht & Hg & _).
  unfold tax_amount_total_of in Htax.
  bind_inv Htax ta Hta. cbn in Hta. injection Hta as <-.
  bind_inv Htax ts Hts.
  destruct (sum_amounts_spec _ _ _ Htax) as (ns & Hns & ->).
  exists base, (foldr Z.add 0 ns), ts, ns.
  rewrite Z.add_0_l in Ht, Hg. done.
Qed.

Lemma unit_net_price_of_quantity m a q :
  m !! "amount" = Some (PInt a) → m !! "quantity" = Some (PInt q) → q ≠ 0 →
  unit_net_price_of (PDict m) = PInt <$> Float64.int_truediv a q.
Proof.
  intros Ha Hq Hq0. unfold unit_net_price_of. cbn [get mbind res_bind getitem].
  unfold dict_get. rewrite Ha, Hq. cbn [default id truthy].
  destruct (Z.eqb_spec q 0); [done|]. reflexivity.
Qed.

(** The unit net price of one service record. *)
Lemma build_service_unit_net_price (m s : gmap string pyval) :
  build_service (PDict m) = Ok s →
  (∀ a q, m !! "amount" = Some (PInt a) → m !! "quantity" = Some (PInt q) →
          q ≠ 0 → Z.abs a < 2 ^ 53 →
          s !! "unit_net_price" = Some (PInt (a ÷ q))
          ∧ (0 ≤ a → 0 < q → a ÷ q = a / q))
  ∧ (truthy (dict_get m "quantity" PNone) = false →
     s !! "unit_net_price" = s !! "net_price")
  ∧ (m !! "amount" = Some (PInt 4000) → m !! "quantity" = Some (PInt 2) →
     s !! "unit_net_price" = Some (PInt 2000)).
Proof.
  intros H.
  destruct (build_service_fields _ _ H)
    as (m' & tp & tax & base & unp & [= <-] & _ & _ & Hbase & Hunp & Hn & _ & _ & Hu & _).
  assert (Hdiv : ∀ a q, m !! "amount" = Some (PInt a) → m !! "quantity" = Some (PInt q) →
                        q ≠ 0 → Z.abs a < 2 ^ 53 →
                        s !! "unit_net_price" = Some (PInt (a ÷ q))).
  { intros a q Ha Hq Hq0 Hsmall.
    rewrite (unit_net_price_of_quantity m a q Ha Hq Hq0) in Hunp.
    rewrite int_truediv_small in Hunp by done.
    injection Hunp as <-. exact Hu. }
  split; [|split].
  - intros a q Ha Hq Hq0 Hsmall. split; [by apply Hdiv|].
    intros Ha0 Hq1. apply Z.quot_div_nonneg; lia.
  - intros Hfalsy. unfold unit_net_price_of in Hunp. cbn [get mbind res_bind] in Hunp.
    rewrite Hfalsy in Hunp. injection Hunp as <-.
    rewrite Hu, Hn. unfold dict_get in *.
    destruct (m !! "amount") as [[]|]; done.
  - intros Ha Hq. apply (Hdiv 4000 2 Ha Hq); [lia|]. by vm_compute.
Qed.

(** Flooring is not what happens on a credit line: [int(-5 / 2)] is [-2],
    the floor of [-5 / 2] is [-3]. *)
Lemma unit_net_price_not_floor :
  (λ s : gmap string pyval, s !! "unit_net_price") <$> build_service (PDict item_credit)
    = Ok (Some (PInt (-2)))
  ∧ (-5) / 2 = -3.
Proof. split; vm_compute; reflexivity. Qed.

Lemma tax_percentage_of_first m rd rest :
  m !! "tax_rates" = Some (PList (PDict rd :: rest)) →
  tax_percentage_of (PDict m) = Ok (dict_get rd "percentage" PNone).
Proof.
  intros H. unfold tax_percentage_of. cbn [get getitem mbind res_bind].
  unfold dict_get at 1. rewrite H. cbn [default truthy len getitem0 length mbind res_bind get].
  destruct (Z.ltb_spec 0 (Z.of_nat (S (length rest)))); [done | lia].
Qed.

Lemma tax_percentage_of_absent m :
  m !! "tax_rates" = None → tax_percentage_of (PDict m) = Ok PNone.
Proof.
  intros H. unfold tax_percentage_of. cbn [get mbind res_bind].
  unfold dict_get. by rewrite H.
Qed.

(** The percentage the loop body reads is the one the line shows; on
    every other shape of [tax_rates] the loop body raises. *)
Lemma tax_percentage_of_shown (im : gmap string pyval) (p : pyval) :
  tax_percentage_of (PDict im) = Ok p → p = first_tax_rate_percentage im.
Proof.
  unfold tax_percentage_of, first_tax_rate_percentage.
  cbn [get getitem mbind res_bind]. unfold dict_get at 1.
  destruct (im !! "tax_rates") as [tr|] eqn:E; cbn [default id truthy];
    [|by intros [= <-]].
  destruct tr as [|b|z|str|l|d]; cbn [id truthy].
  - by intros [= <-].
  - destruct b; cbn [len mbind res_bind]; [discriminate | by intros [= <-]].
  - destruct (negb (z =? 0)); cbn [len mbind res_bind];
      [discriminate | by intros [= <-]].
  - destruct (negb (String.eqb str EmptyString)); cbn [len mbind res_bind];
      [|by intros [= <-]].
    destruct (0 <? Z.of_nat (String.length str)); [|by intros [= <-]].
    destruct str; cbn [getitem0 get mbind res_bind]; discriminate.
  - destruct l as [|x l]; cbn [len mbind res_bind]; [by intros [= <-]|].
    cbn [length]. destruct (Z.ltb_spec 0 (Z.of_nat (S (length l)))) as [_|Hlen]; [|lia].
    cbn [getitem0 mbind res_bind]. destruct x; cbn [get]; try discriminate.
    by intros [= <-].
  - destruct (negb (size d =? 0)%nat); cbn [len mbind res_bind]; [|by intros [= <-]].
    destruct (0 <? Z.of_nat (size d)); cbn [getitem0 mbind res_bind];
      [discriminate | by intros [= <-]].
Qed.

(** The tax symbol of one service record. *)
Lemma build_service_tax_symbol (im s : gmap string pyval) :
  build_service (PDict im) = Ok s →
  s !! "tax_symbol"
  = (if is_none (first_tax_rate_percentage im) then Some (PStr "zw") else None).
Proof.
  intros H.
  destruct (build_service_fields _ _ H)
    as (m' & tp & tax & base & unp & [= <-] & Htp & _ & _ & _ & _ & _ & _ & _ & Hs).
  by rewrite <- (tax_percentage_of_shown _ _ Htp).
Qed.

End Services.

Lemma lookup_Some_truthy (m : gmap string pyval) k v :
  m !! k = Some v → truthy (PDict m) = true.
Proof.
  intros H. cbn. destruct (Nat.eqb_spec (size m) 0) as [E|]; [|done].
  apply map_size_empty_iff in E. subst m. by rewrite lookup_empty in H.
Qed.

Lemma dict_get_Some (m : gmap string pyval) k dflt v :
  m !! k = Some v → dict_get m k dflt = v.
Proof. intros E. unfold dict_get. by rewrite E. Qed.

Section Transform.
Context `{rt : Runtime}.
Import Main.

Lemma is_line_item_ok item b :
  is_line_item item = Ok b → b = has_object_line_item item.
Proof.
  unfold is_line_item. intros Hb. bind_inv Hb o Ho.
  destruct (get_ok _ _ _ _ Ho) as (d & -> & ->). by injection Hb as <-.
Qed.

Lemma services_loop_spec items : ∀ acc svcs,
  services_loop acc items = Ok svcs →
  ∃ new, svcs = acc ++ new
         ∧ Forall2 (λ item svc, ∃ d, build_service item = Ok d ∧ svc = PDict d)
                   (List.filter has_object_line_item items) new.
Proof.
  induction items as [|item items IH]; intros acc svcs Hl; cbn in Hl.
  - injection Hl as <-. exists []. split; [by rewrite app_nil_r | constructor].
  - bind_inv Hl li Hli. apply is_line_item_ok in Hli. cbn [List.filter].
    rewrite <- Hli. destruct li.
    + bind_inv Hl s Hs. destruct (IH _ _ Hl) as (new & -> & Hnew).
      exists (PDict s :: new). split; [by rewrite <- app_assoc|].
      constructor; [eauto | done].
    + exact (IH _ _ Hl).
Qed.



End Transform.


Section TaxIdentifier.
Import Main.

(** Scanning stops at the first [eu_vat] record with a value. *)
Lemma nip_loop_eu_vat pre d post : ∀ nip,
  Forall (λ t, is_dict t = true ∧ is_eu_vat t = false) pre →
  is_eu_vat (PDict d) = true →
  nip_loop nip (pre ++ PDict d :: post) = Ok (dict_get d "value" PNone).
Proof.
  induction pre as [|t pre IH]; intros nip Hpre Hd; cbn [app nip_loop get mbind res_bind].
  - cbn in Hd. apply andb_prop in Hd as [-> ->]. done.
  - inversion Hpre as [|? ? [Ht Hne] Hrest]; subst.
    destruct t as [| | | | |dt]; try discriminate.
    cbn [get mbind res_bind]. cbn in Hne.
    destruct (truthy (dict_get dt "value" PNone)); cbn in Hne; [rewrite Hne|]; by apply IH.
Qed.

(** Without such a record every later value overwrites the earlier one. *)
Lemma nip_loop_no_eu_vat ids : ∀ nip,
  Forall (λ t, is_dict t = true ∧ is_eu_vat t = false) ids →
  nip_loop nip ids = Ok (last_value nip ids).
Proof.
  induction ids as [|t ids IH]; intros nip Hall; [done|].
  inversion Hall as [|? ? [Ht Hne] Hrest]; subst.
  destruct t as [| | | | |dt]; try discriminate.
  cbn [nip_loop last_value get mbind res_bind]. cbn in Hne.
  destruct (truthy (dict_get dt "value" PNone)); cbn in Hne; [rewrite Hne|]; by apply IH.
Qed.

(** C2. The specification asks for the first value found when no record is
    of type [eu_vat], and so does the comment above the loop. On the two
    records [us_ein "1"], [gb_vat "2"] the loop returns the second value,
    ["2"], where the first value found is ["1"]. *)
Theorem extract_nip_keeps_last_value :
  extract_nip invoice_ein_then_gb_vat = Ok (PStr "2")
  ∧ first_value [tax_id "us_ein" "1"; tax_id "gb_vat" "2"] = PStr "1".
Proof. split; vm_compute; reflexivity. Qed.

Example extract_nip_scenario_e : extract_nip invoice_ein_then_eu_vat = Ok (PStr "2").
Proof. vm_compute. reflexivity. Qed.

End TaxIdentifier.

(** ** The client classifier *)

Section Classifier.
Import Utils.



Lemma address_field_ok c f :
  address_usable c → ∃ v, address_field (PDict c) f = Ok v.
Proof.
  intros [Hn|[a Ha]]; unfold address_field; cbn [get mbind res_bind];
    unfold dict_get at 1; [rewrite Hn | rewrite Ha]; cbn; eauto.
Qed.

(** The result of [get_client_details] when it returns: the stripped
    address fields extended by the fields of the branch taken. *)
Lemma get_client_details_ok customer tax_code d :
  get_client_details customer tax_code = Ok d →
  truthy customer = false ∧ d = ∅
  ∨ ∃ (c base : gmap string pyval),
      customer = PDict c
      ∧ base !! "client_company_name" = None
      ∧ base !! "client_first_name" = None
      ∧ base !! "client_last_name" = None
      ∧ base !! "client_tax_code" = None
      ∧ base !! "client_business_activity_kind" = None
      ∧ base !! "services" = None
      ∧ let name := dict_get c "name" PNone in
        if truthy tax_code then
          d = drop_none (<["client_business_activity_kind" := PStr "other_business"]>
                          (<["client_company_name" := name]>
                            (<["client_tax_code" := tax_code]> base)))
        else if truthy name then
          ∃ n, name = PStr n
               ∧ match split_first_space n with
                 | Some (first, last) =>
                     d = drop_none
                           (<["client_business_activity_kind" := PStr "private_person"]>
                             (<["client_last_name" := PStr last]>
                               (<["client_first_name" := PStr first]> base)))
                 | None =>
                     d = drop_none
                           (<["client_business_activity_kind" := PStr "other_business"]>
                             (<["client_company_name" := name]> base))
                 end
        else d = drop_none base.
Proof.
  unfold get_client_details. destruct (truthy customer) eqn:Ht; cbn [negb].
  2:{ intros [= <-]. by left. }
  intros Hd. right.
  bind_inv Hd street Hstreet. bind_inv Hd city Hcity.
  bind_inv Hd post_code Hpost. bind_inv Hd country Hcountry.
  bind_inv Hd name Hname. destruct (get_ok _ _ _ _ Hname) as (c & -> & ->).
  bind_inv Hd details Hdetails. injection Hd as <-.
  eexists c, _. split; [done|].
  repeat (split; [shelve|]). cbn zeta.
  destruct (truthy tax_code).
  - injection Hdetails as <-. reflexivity.
  - destruct (truthy (dict_get c "name" PNone)).
    + destruct (dict_get c "name" PNone) as [| | |n| |]; try discriminate.
      exists n. split; [done|]. unfold split_space_1 in Hdetails.
      destruct (split_first_space n) as [[first last]|];
        injection Hdetails as <-; reflexivity.
    + injection Hdetails as <-. reflexivity.
  Unshelve. all: by simplify_map_eq.
Qed.





(** C4. The specification says [get_client_details] never raises. A customer
    whose [address] is null, which is how Stripe reports a customer without
    an address, makes it raise [AttributeError]: the default of
    [.get("address", {})] only covers a missing key. *)
Theorem get_client_details_raises_on_null_address :
  get_client_details customer_null_address PNone = Raise AttributeError.
Proof. vm_compute. reflexivity. Qed.

(** Whenever the classifier returns, the record is not mixed. *)
Lemma get_client_details_not_mixed customer tax_code d :
  get_client_details customer tax_code = Ok d →
  ¬ (is_Some (d !! "client_company_name")
     ∧ (is_Some (d !! "client_first_name") ∨ is_Some (d !! "client_last_name"))).
Proof.
  intros Hd.
  destruct (get_client_details_ok _ _ _ Hd) as [[_ ->]|Hok].
  { rewrite !lookup_empty. intros [[? ?] _]. done. }
  destruct Hok as (c & base & -> & Hb1 & Hb2 & Hb3 & Hb4 & Hb5 & _ & Hd').
  cbn zeta in Hd'.
  destruct (truthy tax_code).
  - subst d. rewrite !lookup_drop_none. simplify_map_eq.
    intros [_ [[? ?]|[? ?]]]; done.
  - destruct (truthy (dict_get c "name" PNone)).
    + destruct Hd' as (n & Hn & Hd').
      destruct (split_first_space n) as [[first last]|]; subst d;
        rewrite !lookup_drop_none; simplify_map_eq.
      * intros [[? ?] _]; done.
      * intros [_ [[? ?]|[? ?]]]; done.
    + subst d. rewrite !lookup_drop_none. simplify_map_eq.
      intros [[? ?] _]; done.
Qed.

(** Without customer data the result is empty. *)
Lemma get_client_details_no_customer customer tax_code :
  truthy customer = false → get_client_details customer tax_code = Ok ∅.
Proof. intros Ht. unfold get_client_details. by rewrite Ht. Qed.

(** The classifier does not produce a [services] key. *)
Lemma get_client_details_no_services customer tax_code d :
  get_client_details customer tax_code = Ok d → d !! "services" = None.
Proof.
  intros Hd.
  destruct (get_client_details_ok _ _ _ Hd) as [[_ ->]|Hok]; [done|].
  destruct Hok as (c & base & -> & Hb1 & Hb2 & Hb3 & Hb4 & Hb5 & Hb6 & Hd').
  cbn zeta in Hd'.
  destruct (truthy tax_code).
  - subst d. rewrite lookup_drop_none. by simplify_map_eq.
  - destruct (truthy (dict_get c "name" PNone)).
    + destruct Hd' as (n & Hn & Hd').
      destruct (split_first_space n) as [[first last]|]; subst d;
        rewrite lookup_drop_none; by simplify_map_eq.
    + subst d. rewrite lookup_drop_none. by simplify_map_eq.
Qed.

End Classifier.

(** ** The transformation, end to end *)

Lemma is_some_ok_true {A} (r : res (option A)) :
  is_some_ok r = true → ∃ a, r = Ok (Some a).
Proof. destruct r as [[a|]|]; [eauto | discriminate | discriminate]. Defined.

Section TransformOutput.
Context `{rt : Runtime}.
Import Main.

(** The services of a transformed invoice are the records the loop built
    from the [line_item] entries of [lines.data], in order. *)
Lemma transform_services (m payload : gmap string pyval) :
  transform_stripe_to_infakt (PDict m) = Ok (Some payload) →
  ∃ (l : gmap string pyval) (data : pyval) (items svcs : list pyval),
    m !! "lines" = Some (PDict l)
    ∧ l !! "data" = Some data
    ∧ iter data = Ok items
    ∧ payload !! "services" = Some (PList svcs)
    ∧ Forall2 (λ item svc, ∃ d, build_service item = Ok d ∧ svc = PDict d)
              (List.filter has_object_line_item items) svcs.
Proof.
  unfold transform_stripe_to_infakt. intros H.
  bind_inv H tot Htot. destruct (eq_int tot 0); [discriminate|].
  bind_inv H lines Hlines. bind_inv H no_lines Hno.
  destruct no_lines; [discriminate|].
  bind_inv H items Hitems. bind_inv H svcs Hsvcs.
  destruct (truthy (PList svcs)) eqn:Hts; [|discriminate]. cbn [negb] in H.
  bind_inv H paid_at Hpaid. bind_inv H created Hcreated. bind_inv H nip Hnip.
  bind_inv H customer Hcustomer. bind_inv H client_data Hclient.
  bind_inv H currency Hcur. bind_inv H pm Hpm. bind_inv H number Hnumber.
  bind_inv H subtotal Hsub. bind_inv H tax Htax. bind_inv H gross Hgross.
  bind_inv H amount_paid Hap.
  match type of H with
  | (if negb (truthy (dict_get ?c _ _)) then _ else _) = _ => set (cleaned := c) in *
  end.
  destruct (truthy (dict_get cleaned "services" PNone)); [|discriminate].
  destruct (truthy (dict_get cleaned "invoice_date" PNone)); [|discriminate].
  cbn [negb] in H. injection H as <-.
  bind_inv Hitems l Hl. bind_inv Hitems data Hdata.
  cbn [getitem] in Hl. destruct (m !! "lines") as [lv|] eqn:Eml; [|discriminate].
  injection Hl as ->.
  unfold getitem in Hdata. destruct l as [| | | | |l]; try discriminate.
  destruct (l !! "data") as [dv|] eqn:Eld; [|discriminate]. injection Hdata as ->.
  exists l, data, items, svcs. repeat (split; [done|]).
  split.
  - subst cleaned. rewrite lookup_drop_none.
    rewrite lookup_union_r by (eapply get_client_details_no_services; eauto).
    rewrite lookup_insert_eq. done.
  - destruct (services_loop_spec _ _ _ Hsvcs) as (new & -> & Hnew). done.
Qed.

(** C1, in the form that holds. The services of every invoice
    [transform_stripe_to_infakt] returns are, in order, the records of the
    [line_item] entries of [lines.data], and for each of them [tax_price]
    is the sum of the amounts in the line's [tax_amounts] (0 when there are
    none) and [gross_price] is computed from the line's [amount] and that
    sum, no field of the line being copied into it. When the line has an
    [amount], [net_price] is that amount and [gross_price = net_price +
    tax_price]. When the line has no [amount], the amount counts as 0 in
    the sum only: the record has no [net_price] and [gross_price =
    tax_price]. *)
Theorem gross_price_is_net_plus_tax (m payload : gmap string pyval) :
  transform_stripe_to_infakt (PDict m) = Ok (Some payload) →
  ∃ (l : gmap string pyval) (data : pyval) (items svcs : list pyval),
    m !! "lines" = Some (PDict l)
    ∧ l !! "data" = Some data
    ∧ iter data = Ok items
    ∧ payload !! "services" = Some (PList svcs)
    ∧ Forall2
        (λ item svc,
           ∃ (im s : gmap string pyval) (tax : Z) (ts : list pyval) (ns : list Z),
             item = PDict im ∧ svc = PDict s
             ∧ iter (dict_get im "tax_amounts" (PList [])) = Ok ts
             ∧ Forall2 (λ t n, amount_of t = Ok n) ts ns
             ∧ tax = foldr Z.add 0 ns
             ∧ s !! "tax_price" = Some (PInt tax)
             ∧ ((∃ (amount : pyval) (net : Z),
                   im !! "amount" = Some amount ∧ num amount = Ok net
                   ∧ s !! "net_price" = Some amount
                   ∧ s !! "gross_price" = Some (PInt (net + tax)))
                ∨ (im !! "amount" = None
                   ∧ s !! "net_price" = None
                   ∧ s !! "gross_price" = Some (PInt tax))))
        (List.filter has_object_line_item items) svcs.
Proof.
  intros H.
  destruct (transform_services m payload H)
    as (l & data & items & svcs & Hl & Hd & Hi & Hs & Hall).
  exists l, data, items, svcs. repeat (split; [done|]).
  eapply Forall2_impl; [exact Hall|].
  intros item svc (d & Hb & ->).
  destruct (build_service_fields _ _ Hb) as (im & _ & _ & _ & _ & -> & _).
  destruct (build_service_prices im d Hb)
    as (net & tax & ts & ns & Hnet & Hts & Hns & Htax & Hn & Ht & Hg).
  exists im, d, tax, ts, ns. repeat (split; [done|]).
  unfold dict_get in Hnet.
  destruct (im !! "amount") as [amount|] eqn:Ham; cbn [default] in Hnet.
  - left. exists amount, net. done.
  - right. injection Hnet as <-. done.
Qed.

(** C10. [map_stripe_tax_rate_to_infakt_symbol] returns ["zw"] for a null
    percentage and [None] for every other percentage. So in the services of
    every invoice [transform_stripe_to_infakt] returns, which are the
    records of the [line_item] entries of [lines.data] in order, a record
    has a [tax_symbol] exactly when the percentage its line shows is null,
    and the symbol is then ["zw"]. The percentage a line shows is that of
    its first tax rate; it is null as well when the line has no tax rate,
    so a line whose [tax_rates] is missing, null or empty gets ["zw"]. *)
Theorem tax_symbol_only_for_null_percentage :
  Utils.map_stripe_tax_rate_to_infakt_symbol PNone = PStr "zw"
  ∧ (∀ p, p ≠ PNone → Utils.map_stripe_tax_rate_to_infakt_symbol p = PNone)
  ∧ (∀ (m payload : gmap string pyval),
       transform_stripe_to_infakt (PDict m) = Ok (Some payload) →
       ∃ (l : gmap string pyval) (data : pyval) (items svcs : list pyval),
         m !! "lines" = Some (PDict l)
         ∧ l !! "data" = Some data
         ∧ iter data = Ok items
         ∧ payload !! "services" = Some (PList svcs)
         ∧ Forall2
             (λ item svc,
                ∃ (im s : gmap string pyval),
                  item = PDict im ∧ svc = PDict s
                  ∧ (s !! "tax_symbol" = Some (PStr "zw")
                     ↔ first_tax_rate_percentage im = PNone)
                  ∧ (s !! "tax_symbol" = None
                     ↔ first_tax_rate_percentage im ≠ PNone)
                  ∧ (im !! "tax_rates" = None ∨ im !! "tax_rates" = Some PNone
                     ∨ im !! "tax_rates" = Some (PList []) →
                     s !! "tax_symbol" = Some (PStr "zw"))
                  ∧ (∀ (rd : gmap string pyval) (rest : list pyval),
                       im !! "tax_rates" = Some (PList (PDict rd :: rest)) →
                       (s !! "tax_symbol" = Some (PStr "zw")
                        ↔ dict_get rd "percentage" PNone = PNone)
                       ∧ (s !! "tax_symbol" = None
                          ↔ dict_get rd "percentage" PNone ≠ PNone)))
             (List.filter has_object_line_item items) svcs).
Proof.
  split; [done|]. split; [by intros []|].
  intros m payload H.
  destruct (transform_services m payload H)
    as (l & data & items & svcs & Hl & Hd & Hi & Hs & Hall).
  exists l, data, items, svcs. repeat (split; [done|]).
  eapply Forall2_impl; [exact Hall|].
  intros item svc (d & Hb & ->).
  destruct (build_service_fields _ _ Hb) as (im & _ & _ & _ & _ & -> & _).
  pose proof (build_service_tax_symbol im d Hb) as Hsym.
  assert (Hiff : ∀ p, first_tax_rate_percentage im = p →
            (d !! "tax_symbol" = Some (PStr "zw") ↔ p = PNone)
            ∧ (d !! "tax_symbol" = None ↔ p ≠ PNone)).
  { intros p Hp. rewrite Hsym, Hp.
    destruct p; cbn [is_none]; split; split; (done || congruence). }
  exists im, d. split; [done|]. split; [done|].
  split; [apply (Hiff _ eq_refl)|]. split; [apply (Hiff _ eq_refl)|]. split.
  - intros Hnone. rewrite Hsym. unfold first_tax_rate_percentage.
    by destruct Hnone as [->|[->| ->]].
  - intros rd rest Hrd. apply Hiff. unfold first_tax_rate_percentage. by rewrite Hrd.
Qed.

(** C5, in the form that holds. For a line item with integer amount and
    nonzero integer quantity, the amount below [2^53] in magnitude,
    [unit_net_price] is [amount / quantity] truncated toward zero, which is
    the floor of the quotient when the amount is not negative and the
    quantity is positive. With a falsy quantity (absent, null, zero)
    [unit_net_price] equals [net_price]. Amount 4000 with quantity 2 gives
    2000. This holds for every record the loop body builds, and so for the
    services of every invoice [transform_stripe_to_infakt] returns, which
    are the records of the [line_item] entries of [lines.data] in order. *)
Theorem unit_net_price_truncates :
  (∀ (m s : gmap string pyval),
     build_service (PDict m) = Ok s →
     (∀ a q, m !! "amount" = Some (PInt a) → m !! "quantity" = Some (PInt q) →
             q ≠ 0 → Z.abs a < 2 ^ 53 →
             s !! "unit_net_price" = Some (PInt (a ÷ q))
             ∧ (0 ≤ a → 0 < q → a ÷ q = a / q))
     ∧ (truthy (dict_get m "quantity" PNone) = false →
        s !! "unit_net_price" = s !! "net_price")
     ∧ (m !! "amount" = Some (PInt 4000) → m !! "quantity" = Some (PInt 2) →
        s !! "unit_net_price" = Some (PInt 2000)))
  ∧ (∀ (m payload : gmap string pyval),
       transform_stripe_to_infakt (PDict m) = Ok (Some payload) →
       ∃ (l : gmap string pyval) (data : pyval) (items svcs : list pyval),
         m !! "lines" = Some (PDict l)
         ∧ l !! "data" = Some data
         ∧ iter data = Ok items
         ∧ payload !! "services" = Some (PList svcs)
         ∧ Forall2
             (λ item svc,
                ∃ (im s : gmap string pyval),
                  item = PDict im ∧ svc = PDict s
                  ∧ (∀ a q, im !! "amount" = Some (PInt a) →
                            im !! "quantity" = Some (PInt q) →
                            q ≠ 0 → Z.abs a < 2 ^ 53 →
                            s !! "unit_net_price" = Some (PInt (a ÷ q))
                            ∧ (0 ≤ a → 0 < q → a ÷ q = a / q))
                  ∧ (truthy (dict_get im "quantity" PNone) = false →
                     s !! "unit_net_price" = s !! "net_price")
                  ∧ (im !! "amount" = Some (PInt 4000) →
                     im !! "quantity" = Some (PInt 2) →
                     s !! "unit_net_price" = Some (PInt 2000)))
             (List.filter has_object_line_item items) svcs).
Proof.
  split; [exact build_service_unit_net_price|].
  intros m payload H.
  destruct (transform_services m payload H)
    as (l & data & items & svcs & Hl & Hd & Hi & Hs & Hall).
  exists l, data, items, svcs. repeat (split; [done|]).
  eapply Forall2_impl; [exact Hall|].
  intros item svc (d & Hb & ->).
  destruct (build_service_fields _ _ Hb) as (im & _ & _ & _ & _ & -> & _).
  exists im, d. split; [done|]. split; [done|].
  exact (build_service_unit_net_price im d Hb).
Qed.

End TransformOutput.

Lemma gross_price_is_net_plus_tax_witness :
  ∃ (payload s : gmap string pyval),
    @Main.transform_stripe_to_infakt SampleRuntime.runtime (PDict paid_invoice)
    = Ok (Some payload)
    ∧ payload !! "services" = Some (PList [PDict s])
    ∧ s !! "net_price" = Some (PInt 4000)
    ∧ s !! "tax_price" = Some (PInt 800)
    ∧ s !! "gross_price" = Some (PInt 4800).
Proof.
  destruct (is_some_ok_true
              (@Main.transform_stripe_to_infakt SampleRuntime.runtime (PDict paid_invoice)))
    as [payload E]; [vm_compute; reflexivity|].
  destruct (@gross_price_is_net_plus_tax SampleRuntime.runtime paid_invoice payload E)
    as (l & data & items & svcs & Hl & Hd & Hi & Hs & Hall).
  assert (Hlines : paid_invoice !! "lines"
                   = Some (PDict {["data" := PList [PDict item_b]]})) by reflexivity.
  rewrite Hlines in Hl. injection Hl as <-.
  rewrite lookup_singleton_eq in Hd. injection Hd as <-.
  cbn [iter] in Hi. injection Hi as <-.
  assert (Hline : has_object_line_item (PDict item_b) = true) by (vm_compute; reflexivity).
  cbn [List.filter] in Hall. rewrite Hline in Hall.
  inversion Hall as [|item svc items' svcs' Hone Hrest]; subst.
  inversion Hrest; subst.
  destruct Hone as (im & s & tax & ts & ns & [= <-] & -> & Hts & Hns & -> & Ht & Hprices).
  exists payload, s. split; [exact E|]. split; [exact Hs|].
  vm_compute in Hts. injection Hts as <-.
  inversion Hns as [|t n ts' ns' Hn1 Hrest']; subst.
  inversion Hrest'; subst.
  vm_compute in Hn1. injection Hn1 as <-.
  destruct Hprices as [(amount & net & Ham & Hnet & Hn & Hg)|(Ham & _)].
  - vm_compute in Ham. injection Ham as <-.
    cbn in Hnet. injection Hnet as <-.
    rewrite Hn, Ht, Hg. split; [|split]; reflexivity.
  - vm_compute in Ham. discriminate Ham.
Defined.

(** A line without an amount: the service has a gross price of 800, the
    tax, and no net price to add the tax to. *)
Lemma service_without_amount_has_no_net_price :
  only_service_prices
    <$> @Main.transform_stripe_to_infakt SampleRuntime.runtime
          (PDict (invoice_of_lines [PDict item_no_amount]))
  = Ok (Some (None, Some (PInt 800), Some (PInt 800))).
Proof. vm_compute. reflexivity. Qed.

Lemma tax_symbol_only_for_null_percentage_witness :
  ∃ (payload s1 s2 s3 : gmap string pyval),
    @Main.transform_stripe_to_infakt SampleRuntime.runtime
      (PDict (invoice_of_lines [PDict item_exempt; PDict item_vat23; PDict item_b]))
    = Ok (Some payload)
    ∧ payload !! "services" = Some (PList [PDict s1; PDict s2; PDict s3])
    ∧ s1 !! "tax_symbol" = Some (PStr "zw")
    ∧ s2 !! "tax_symbol" = None
    ∧ s3 !! "tax_symbol" = Some (PStr "zw").
Proof.
  destruct (is_some_ok_true
              (@Main.transform_stripe_to_infakt SampleRuntime.runtime
                 (PDict (invoice_of_lines
                           [PDict item_exempt; PDict item_vat23; PDict item_b]))))
    as [payload E]; [vm_compute; reflexivity|].
  destruct (@tax_symbol_only_for_null_percentage SampleRuntime.runtime) as (_ & _ & H).
  destruct (H _ payload E) as (l & data & items & svcs & Hl & Hd & Hi & Hs & Hall).
  assert (Hlines : invoice_of_lines [PDict item_exempt; PDict item_vat23; PDict item_b]
                   !! "lines"
                   = Some (PDict {["data" := PList [PDict item_exempt; PDict item_vat23;
                                                     PDict item_b]]})) by reflexivity.
  rewrite Hlines in Hl. injection Hl as <-.
  rewrite lookup_singleton_eq in Hd. injection Hd as <-.
  cbn [iter] in Hi. injection Hi as <-.
  assert (H1 : has_object_line_item (PDict item_exempt) = true) by (vm_compute; reflexivity).
  assert (H2 : has_object_line_item (PDict item_vat23) = true) by (vm_compute; reflexivity).
  assert (H3 : has_object_line_item (PDict item_b) = true) by (vm_compute; reflexivity).
  cbn [List.filter] in Hall. rewrite H1, H2, H3 in Hall.
  inversion Hall as [|i1 v1 r1 w1 Ha Hall1]; subst.
  inversion Hall1 as [|i2 v2 r2 w2 Hb Hall2]; subst.
  inversion Hall2 as [|i3 v3 r3 w3 Hc Hall3]; subst.
  inversion Hall3; subst.
  destruct Ha as (im1 & s1 & [= <-] & -> & _ & _ & _ & Hfirst1).
  destruct Hb as (im2 & s2 & [= <-] & -> & _ & _ & _ & Hfirst2).
  destruct Hc as (im3 & s3 & [= <-] & -> & _ & _ & Hnone3 & _).
  exists payload, s1, s2, s3. split; [exact E|]. split; [exact Hs|].
  split; [|split].
  - apply (Hfirst1 {["percentage" := PNone]} []); reflexivity.
  - apply (Hfirst2 {["percentage" := PInt 23]} []); [reflexivity | discriminate].
  - apply Hnone3. left. reflexivity.
Defined.

Lemma unit_net_price_truncates_witness :
  (∃ s, Main.build_service (PDict item_b) = Ok s
        ∧ s !! "unit_net_price" = Some (PInt 2000))
  ∧ (∃ s, Main.build_service (PDict item_no_quantity) = Ok s
          ∧ s !! "unit_net_price" = s !! "net_price")
  ∧ (∃ (payload s : gmap string pyval),
       @Main.transform_stripe_to_infakt SampleRuntime.runtime (PDict paid_invoice)
       = Ok (Some payload)
       ∧ payload !! "services" = Some (PList [PDict s])
       ∧ s !! "unit_net_price" = Some (PInt 2000)).
Proof.
  destruct (@unit_net_price_truncates SampleRuntime.runtime) as [Hrecord Hservices].
  split; [|split].
  - destruct (is_ok_true (Main.build_service (PDict item_b))) as [s E];
      [vm_compute; reflexivity|].
    exists s. split; [exact E|].
    destruct (Hrecord item_b s E) as (_ & _ & H).
    apply H; reflexivity.
  - destruct (is_ok_true (Main.build_service (PDict item_no_quantity))) as [s E];
      [vm_compute; reflexivity|].
    exists s. split; [exact E|].
    destruct (Hrecord item_no_quantity s E) as (_ & H & _).
    apply H; vm_compute; reflexivity.
  - destruct (is_some_ok_true
                (@Main.transform_stripe_to_infakt SampleRuntime.runtime
                   (PDict paid_invoice)))
      as [payload E]; [vm_compute; reflexivity|].
    destruct (Hservices paid_invoice payload E)
      as (l & data & items & svcs & Hl & Hd & Hi & Hs & Hall).
    assert (Hlines : paid_invoice !! "lines"
                     = Some (PDict {["data" := PList [PDict item_b]]})) by reflexivity.
    rewrite Hlines in Hl. injection Hl as <-.
    rewrite lookup_singleton_eq in Hd. injection Hd as <-.
    cbn [iter] in Hi. injection Hi as <-.
    assert (Hline : has_object_line_item (PDict item_b) = true)
      by (vm_compute; reflexivity).
    cbn [List.filter] in Hall. rewrite Hline in Hall.
    inversion Hall as [|item svc items' svcs' Hone Hrest]; subst.
    inversion Hrest; subst.
    destruct Hone as (im & s & [= <-] & -> & _ & _ & H).
    exists payload, s. split; [exact E|]. split; [exact Hs|].
    apply H; reflexivity.
Defined.

(** ** The client-side filter *)

Section Filter.
Import StripeClient.

Lemma filter_step start_ts end_ts inv :
  invoice_shape inv = true →
  (st ← get inv "status_transitions" (PDict ∅);
   paid_at ← get st "paid_at" PNone;
   paid_in_range start_ts end_ts paid_at)
  = Ok (nonzero_and_in_range start_ts end_ts inv).
Proof.
  unfold invoice_shape, nonzero_and_in_range, paid_at_of.
  destruct inv as [| | | | |m]; try discriminate.
  cbn [get mbind res_bind]. unfold dict_get at 1.
  destruct (m !! "status_transitions") as [[| | | | |st]|]; try discriminate;
    cbn [default id get mbind res_bind]; unfold dict_get.
  - destruct (st !! "paid_at") as [[]|]; try discriminate; intros _; [done| |done].
    cbn [default id]. unfold paid_in_range. cbn [truthy num mbind res_bind].
    destruct (z =? 0); cbn [negb andb]; done.
  - intros _. by rewrite lookup_empty.
Qed.

Lemma filter_loop_spec start_ts end_ts raw : ∀ acc,
  Forall (λ inv, invoice_shape inv = true) raw →
  filter_loop start_ts end_ts acc raw
  = Ok (acc ++ List.filter (nonzero_and_in_range start_ts end_ts) raw).
Proof.
  induction raw as [|inv raw IH]; intros acc Hall.
  - cbn. by rewrite app_nil_r.
  - inversion Hall as [|? ? Hinv Hrest]; subst.
    pose proof (filter_step start_ts end_ts inv Hinv) as Hstep.
    cbn [filter_loop List.filter].
    destruct (get inv "status_transitions" (PDict ∅)) as [st|]; [|done].
    cbn [mbind res_bind] in *.
    destruct (get st "paid_at" PNone) as [paid_at|]; [|done].
    cbn [mbind res_bind] in *. rewrite Hstep. cbn [mbind res_bind].
    destruct (nonzero_and_in_range start_ts end_ts inv).
    + rewrite IH by done. by rewrite <- app_assoc.
    + by apply IH.
Qed.

(** C7, in the form that holds. On fetched invoices of the shape the API
    delivers, [get_paid_invoices] returns, in the upstream order, exactly
    the invoices whose [status_transitions.paid_at] is an integer other than
    0 with [start_ts <= paid_at <= end_ts]. *)
Theorem paid_invoices_filtered_in_order (raw : list pyval) (start_ts end_ts : Z) :
  Forall (λ inv, invoice_shape inv = true) raw →
  get_paid_invoices raw start_ts end_ts
  = Ok (List.filter (nonzero_and_in_range start_ts end_ts) raw).
Proof. intros Hall. unfold get_paid_invoices. by rewrite filter_loop_spec. Qed.

Lemma paid_invoices_filtered_in_order_witness :
  get_paid_invoices
    [invoice_paid_at "in_1" (PInt 1706745600);
     invoice_paid_at "in_2" (PInt 1700000000);
     invoice_paid_at "in_3" PNone;
     invoice_paid_at "in_4" (PInt 1709251199)]
    1706745600 1709251199
  = Ok [invoice_paid_at "in_1" (PInt 1706745600);
        invoice_paid_at "in_4" (PInt 1709251199)].
Proof.
  rewrite paid_invoices_filtered_in_order.
  - reflexivity.
  - repeat constructor.
Defined.

(** For January 1970 an invoice paid at second 0 is non-null and inside
    the range, and the loop drops it. *)
Lemma paid_at_zero_is_dropped :
  non_null_and_in_range 0 2678399 (invoice_paid_at "in_0" (PInt 0)) = true
  ∧ get_paid_invoices [invoice_paid_at "in_0" (PInt 0)] 0 2678399 = Ok [].
Proof. split; vm_compute; reflexivity. Qed.

End Filter.

(** ** The destination submitter *)

Section Submitter.
Import InfaktClient.

(** C8, in the form that holds. [create_invoice_async] sends exactly one
    request, whose body is the payload itself when it has an ["invoice"] key
    and the payload wrapped as [{"invoice": payload}] otherwise. It never
    raises. It returns [None] for every 4xx or 5xx response, logging the
    parsed error body when the body parses and the raw text otherwise; for a
    network failure; and for a body that does not parse or is not a JSON
    object. A response with any other status and a JSON object as body is
    returned as the result. *)
Theorem create_invoice_async_failures
    (post : request → post_result) (invoice_payload : gmap string pyval) :
  let req := mk_request async_endpoint (PDict (wrapped invoice_payload)) in
  let o := create_invoice_async post invoice_payload in
  (* one request, carrying the envelope *)
  sent o = [req]
  ∧ (is_Some (invoice_payload !! "invoice") → wrapped invoice_payload = invoice_payload)
  ∧ (invoice_payload !! "invoice" = None →
     wrapped invoice_payload = {["invoice" := PDict invoice_payload]})
  (* nothing escapes *)
  ∧ (∃ v, returned o = Ok v)
  (* 4xx and 5xx *)
  ∧ (∀ r, post req = Responded r → 400 ≤ status_code r < 600 →
       returned o = Ok PNone
       ∧ log o = [ErrorSending;
                  match json r with
                  | Some error_details => ErrorResponseJson error_details
                  | None => ErrorResponseText (text r)
                  end])
  (* network failure *)
  ∧ (post req = RequestFailed → returned o = Ok PNone ∧ log o = [ErrorSending])
  (* malformed body *)
  ∧ (∀ r, post req = Responded r → json r = None → returned o = Ok PNone)
  ∧ (∀ r body, post req = Responded r → json r = Some body → is_dict body = false →
       returned o = Ok PNone)
  (* any other status with a JSON object is handed back *)
  ∧ (∀ r body, post req = Responded r → ¬ (400 ≤ status_code r < 600) →
       json r = Some (PDict body) → returned o = Ok (PDict body)).
Proof.
  intros req o.
  assert (Ho : o = match try_body (post req) with
                   | inl (response_data, l) => mk_outcome (Ok response_data) l [req]
                   | inr e => except_clauses req e
                   end).
  { subst o req. unfold create_invoice_async, wrapped, async_endpoint. cbn zeta.
    destruct (invoice_payload !! "invoice") eqn:E.
    - rewrite decide_True by eauto. reflexivity.
    - rewrite decide_False by (intros [? ?]; done). reflexivity. }
  clearbody o req. subst o.
  assert (Herr : ∀ r, 400 ≤ status_code r < 600 → is_http_error r = true).
  { intros r Hs. unfold is_http_error.
    destruct (Z.leb_spec 400 (status_code r)), (Z.ltb_spec (status_code r) 500),
      (Z.leb_spec 500 (status_code r)), (Z.ltb_spec (status_code r) 600); cbn; lia. }
  assert (Hnoerr : ∀ r, ¬ (400 ≤ status_code r < 600) → is_http_error r = false).
  { intros r Hs. unfold is_http_error.
    destruct (Z.leb_spec 400 (status_code r)), (Z.ltb_spec (status_code r) 500),
      (Z.leb_spec 500 (status_code r)), (Z.ltb_spec (status_code r) 600); cbn; lia. }
  split.
  { destruct (try_body (post req)) as [[? ?]|[[r|]|]]; [done| |done|done].
    cbn. by destruct (json r). }
  split.
  { intros [v Hv]. unfold wrapped. rewrite decide_True by eauto. done. }
  split.
  { intros Hn. unfold wrapped. rewrite decide_False; [done|]. rewrite Hn. by intros [? ?]. }
  split.
  { destruct (try_body (post req)) as [[? ?]|[[r|]|]]; cbn; eauto.
    destruct (json r); cbn; eauto. }
  split.
  { intros r Hr Hs. rewrite Hr. unfold try_body. rewrite (Herr r) by done.
    cbn. by destruct (json r). }
  split.
  { intros Hr. by rewrite Hr. }
  split.
  { intros r Hr Hj. rewrite Hr. unfold try_body.
    destruct (is_http_error r); cbn; rewrite !Hj; done. }
  split.
  { intros r body Hr Hj Hb. rewrite Hr. unfold try_body.
    destruct (is_http_error r); cbn; rewrite !Hj; [done|]. by destruct body. }
  intros r body Hr Hs Hj. rewrite Hr. unfold try_body.
  rewrite (Hnoerr r) by done. by rewrite Hj.
Qed.

Lemma create_invoice_async_failures_witness :
  returned (create_invoice_async (λ _, Responded unprocessable) bare_invoice) = Ok PNone
  ∧ log (create_invoice_async (λ _, Responded unprocessable) bare_invoice)
    = [ErrorSending; ErrorResponseJson (PList [PInt 422])]
  ∧ log (create_invoice_async (λ _, Responded bad_gateway) bare_invoice)
    = [ErrorSending; ErrorResponseText "<html>Bad Gateway</html>"]
  ∧ returned (create_invoice_async (λ _, RequestFailed) bare_invoice) = Ok PNone.
Proof.
  pose proof (create_invoice_async_failures (λ _, Responded unprocessable) bare_invoice)
    as (_ & _ & _ & _ & H1 & _).
  pose proof (create_invoice_async_failures (λ _, Responded bad_gateway) bare_invoice)
    as (_ & _ & _ & _ & H2 & _).
  pose proof (create_invoice_async_failures (λ _, RequestFailed) bare_invoice)
    as (_ & _ & _ & _ & _ & H3 & _).
  destruct (H1 unprocessable eq_refl) as [Hr Hl]; [cbn; lia|].
  destruct (H2 bad_gateway eq_refl) as [_ Hl2]; [cbn; lia|].
  destruct (H3 eq_refl) as [Hr3 _].
  repeat split; assumption.
Defined.

(** A 304 is not a 2xx response, and its body is handed back as a
    success. *)
Lemma not_modified_is_returned :
  ¬ (200 ≤ status_code not_modified < 300)
  ∧ returned (create_invoice_async (λ _, Responded not_modified) bare_invoice)
    = Ok (PDict ∅).
Proof. split; [cbn; lia | reflexivity]. Qed.

End Submitter.

(** ** The calendar of months *)

Section MonthCalendar.
Import Datetime.

Lemma get_month_timestamps_value y m :
  month_in_range y m ->
  Utils.get_month_timestamps y m
  = Ok (midnight_utc y m 1,
        midnight_utc (following_month y m).1 (following_month y m).2 1 - 1).
Proof.
  intros (Hy & Hm & Hlast).
  pose proof (ymd2ord_first_bounds y m Hy Hm) as Hb.
  pose proof (month_length y m Hm) as Hlen.
  pose proof (days_in_month_bounds y m) as Hd.
  unfold Utils.get_month_timestamps.
  rewrite (make_first_of_month y m) by done. cbn [mbind res_bind].
  rewrite first_of_month_timestamp by done.
  unfold following_month in *.
  destruct (Z.eqb_spec m 12) as [->|Hne]; cbn [fst snd] in *.
  - pose proof (last_second_before (y + 1) 1 ltac:(lia) ltac:(lia) ltac:(lia)) as Hend.
    destruct (make (y + 1) 1 1 0 0 0) as [d|]; [|done]. cbn [mbind res_bind] in *.
    destruct (sub_seconds d 1) as [e|]; [|done]. cbn [mbind res_bind] in *.
    by rewrite Hend.
  - pose proof (last_second_before y (m + 1) ltac:(lia) ltac:(lia) ltac:(lia)) as Hend.
    destruct (make y (m + 1) 1 0 0 0) as [d|]; [|done]. cbn [mbind res_bind] in *.
    destruct (sub_seconds d 1) as [e|]; [|done]. cbn [mbind res_bind] in *.
    by rewrite Hend.
Qed.

Lemma make_out_of_range y m d hh mm ss :
  ~ (1 <= y <= 9999 /\ 1 <= m <= 12) -> make y m d hh mm ss = Raise ValueError.
Proof.
  intros Hbad. unfold make, MINYEAR, MAXYEAR.
  destruct (Z.leb_spec 1 y), (Z.leb_spec y 9999), (Z.leb_spec 1 m), (Z.leb_spec m 12);
    cbn [andb]; try done; lia.
Qed.

(** X1. [get_month_timestamps] returns for exactly the months 1 to 12 of
    the years 1 to 9999 other than December 9999, and then the start lies
    before the end; for every other year or month it raises. *)
Theorem get_month_timestamps_domain (year month : Z) :
  (month_in_range year month ->
     ∃ start_ts end_ts,
       Utils.get_month_timestamps year month = Ok (start_ts, end_ts)
       ∧ start_ts < end_ts)
  ∧ (~ month_in_range year month ->
     ∃ e, Utils.get_month_timestamps year month = Raise e).
Proof.
  split.
  - intros Hin. rewrite get_month_timestamps_value by done.
    eexists _, _. split; [reflexivity|].
    destruct Hin as (Hy & Hm & _).
    pose proof (month_length year month Hm). pose proof (days_in_month_bounds year month).
    unfold midnight_utc. lia.
  - intros Hout. exists ValueError. unfold Utils.get_month_timestamps.
    destruct (decide (1 <= year <= 9999 /\ 1 <= month <= 12)) as [[Hy Hm]|Hbad].
    + assert (year = 9999 /\ month = 12) as [-> ->].
      { unfold month_in_range in Hout. lia. }
      reflexivity.
    + rewrite (make_out_of_range year month) by done. reflexivity.
Qed.

Lemma get_month_timestamps_domain_witness :
  (∃ start_ts end_ts,
     Utils.get_month_timestamps 2023 12 = Ok (start_ts, end_ts) ∧ start_ts < end_ts)
  ∧ ∃ e, Utils.get_month_timestamps 2024 13 = Raise e.
Proof.
  split.
  - apply (proj1 (get_month_timestamps_domain 2023 12)). unfold month_in_range. lia.
  - apply (proj2 (get_month_timestamps_domain 2024 13)). unfold month_in_range. lia.
Defined.

Lemma days_before_year_step y :
  365 <= days_before_year (y + 1) - days_before_year y <= 366.
Proof. rewrite year_length. destruct (is_leap y); lia. Qed.

Lemma days_before_year_mono y y' :
  y <= y' -> days_before_year y <= days_before_year y'.
Proof.
  intros H. unfold days_before_year. Z.div_mod_to_equations. lia.
Qed.

Lemma days_before_month_bounds y m :
  1 <= m <= 12 -> 0 <= days_before_month y m <= 335.
Proof.
  intros Hm. unfold days_before_month.
  month_cases m; cbn; destruct (is_leap y); lia.
Qed.

Lemma days_before_month_mono y m m' :
  1 <= m <= 12 -> 1 <= m' <= 12 -> m <= m' ->
  days_before_month y m <= days_before_month y m'.
Proof.
  intros Hm Hm' Hle. unfold days_before_month.
  month_cases m; month_cases m'; cbn; destruct (is_leap y); lia.
Qed.

(** The first days of the months come in calendar order. *)
Lemma ymd2ord_first_mono y m y' m' :
  1 <= m <= 12 -> 1 <= m' <= 12 ->
  y < y' \/ (y = y' /\ m <= m') ->
  ymd2ord y m 1 <= ymd2ord y' m' 1.
Proof.
  intros Hm Hm' [Hlt|[-> Hle]]; unfold ymd2ord.
  - pose proof (days_before_year_step y). 
    pose proof (days_before_year_mono (y + 1) y' ltac:(lia)).
    pose proof (days_before_month_bounds y m Hm).
    pose proof (days_before_month_bounds y' m' Hm'). lia.
  - pose proof (days_before_month_mono y' m m' Hm Hm' Hle). lia.
Qed.

(** X2. Consecutive months are adjacent: the range of the following month
    starts one second after the range of a month ends. *)
Theorem consecutive_months_are_adjacent (year month : Z) :
  month_in_range year month ->
  month_in_range (following_month year month).1 (following_month year month).2 ->
  ∃ start_ts end_ts next_start next_end,
    Utils.get_month_timestamps year month = Ok (start_ts, end_ts)
    ∧ Utils.get_month_timestamps (following_month year month).1
                                 (following_month year month).2
      = Ok (next_start, next_end)
    ∧ next_start = end_ts + 1.
Proof.
  intros Hin Hnext. rewrite !get_month_timestamps_value by done.
  eexists _, _, _, _. split; [reflexivity|]. split; [reflexivity|]. lia.
Qed.

Lemma consecutive_months_are_adjacent_witness :
  ∃ start_ts end_ts next_start next_end,
    Utils.get_month_timestamps 2023 12 = Ok (start_ts, end_ts)
    ∧ Utils.get_month_timestamps 2024 1 = Ok (next_start, next_end)
    ∧ next_start = end_ts + 1.
Proof.
  apply (consecutive_months_are_adjacent 2023 12); unfold month_in_range; cbn; lia.
Defined.

(** X3. The ranges of two different months do not overlap: the earlier
    month ends before the later one starts, so no paid time lies in
    both. *)
Theorem earlier_month_ends_before_later_starts (y m y' m' : Z) :
  month_in_range y m -> month_in_range y' m' -> month_before y m y' m' ->
  ∃ start_ts end_ts start_ts' end_ts',
    Utils.get_month_timestamps y m = Ok (start_ts, end_ts)
    ∧ Utils.get_month_timestamps y' m' = Ok (start_ts', end_ts')
    ∧ end_ts < start_ts'
    ∧ ∀ paid_at, ~ (start_ts <= paid_at <= end_ts ∧ start_ts' <= paid_at <= end_ts').
Proof.
  intros Hin Hin' Hbefore. rewrite !get_month_timestamps_value by done.
  eexists _, _, _, _. split; [reflexivity|]. split; [reflexivity|].
  assert (Hord : ymd2ord (following_month y m).1 (following_month y m).2 1
                 <= ymd2ord y' m' 1).
  { destruct Hin as (Hy & Hm & _), Hin' as (Hy' & Hm' & _).
    unfold following_month, month_before in *.
    destruct (Z.eqb_spec m 12) as [->|Hne]; cbn [fst snd];
      apply ymd2ord_first_mono; lia. }
  unfold midnight_utc. split; [lia|]. intros paid_at. lia.
Qed.

Lemma earlier_month_ends_before_later_starts_witness :
  ∃ start_ts end_ts start_ts' end_ts',
    Utils.get_month_timestamps 2023 11 = Ok (start_ts, end_ts)
    ∧ Utils.get_month_timestamps 2024 2 = Ok (start_ts', end_ts')
    ∧ end_ts < start_ts'.
Proof.
  destruct (earlier_month_ends_before_later_starts 2023 11 2024 2)
    as (s & e & s' & e' & H1 & H2 & H3 & _);
    [unfold month_in_range; lia | unfold month_in_range; lia | left; lia |].
  exists s, e, s', e'. split; [exact H1 | split; [exact H2 | exact H3]].
Defined.

End MonthCalendar.

(** ** The client record *)

Section ClientRecord.
Import Utils.

Lemma address_field_value (c : gmap string pyval) f v :
  address_field (PDict c) f = Ok v →
  ∃ a, dict_get c "address" (PDict ∅) = PDict a ∧ v = dict_get a f PNone.
Proof.
  unfold address_field. cbn [get mbind res_bind]. intros H.
  destruct (dict_get c "address" (PDict ∅)) as [| | | | |a]; try discriminate.
  injection H as <-. eauto.
Qed.

(** The record before null fields are dropped, branch by branch. *)
Lemma get_client_details_inv customer tax_code d :
  get_client_details customer tax_code = Ok d →
  truthy customer = false ∧ d = ∅
  ∨ ∃ (c a : gmap string pyval),
      customer = PDict c
      ∧ dict_get c "address" (PDict ∅) = PDict a
      ∧ let base : gmap string pyval :=
          <["client_country" := dict_get a "country" PNone]>
            (<["client_post_code" := dict_get a "postal_code" PNone]>
              (<["client_city" := dict_get a "city" PNone]>
                (<["client_street" := dict_get a "line1" PNone]> ∅))) in
        let name := dict_get c "name" PNone in
        if truthy tax_code then
          d = drop_none (<["client_business_activity_kind" := PStr "other_business"]>
                          (<["client_company_name" := name]>
                            (<["client_tax_code" := tax_code]> base)))
        else if truthy name then
          ∃ n, name = PStr n
               ∧ match split_first_space n with
                 | Some (first, last) =>
                     d = drop_none
                           (<["client_business_activity_kind" := PStr "private_person"]>
                             (<["client_last_name" := PStr last]>
                               (<["client_first_name" := PStr first]> base)))
                 | None =>
                     d = drop_none
                           (<["client_business_activity_kind" := PStr "other_business"]>
                             (<["client_company_name" := name]> base))
                 end
        else d = drop_none base.
Proof.
  unfold get_client_details. destruct (truthy customer) eqn:Ht; cbn [negb].
  2:{ intros [= <-]. by left. }
  intros Hd. right.
  bind_inv Hd street Hstreet. bind_inv Hd city Hcity.
  bind_inv Hd post_code Hpost. bind_inv Hd country Hcountry.
  bind_inv Hd name Hname. destruct (get_ok _ _ _ _ Hname) as (c & -> & ->).
  bind_inv Hd details Hdetails. injection Hd as <-.
  destruct (address_field_value _ _ _ Hstreet) as (a & Ha & ->).
  destruct (address_field_value _ _ _ Hcity) as (a2 & Ha2 & ->).
  destruct (address_field_value _ _ _ Hpost) as (a3 & Ha3 & ->).
  destruct (address_field_value _ _ _ Hcountry) as (a4 & Ha4 & ->).
  rewrite Ha in Ha2, Ha3, Ha4. injection Ha2 as <-. injection Ha3 as <-. injection Ha4 as <-.
  exists c, a. split; [done|]. split; [done|]. cbn zeta.
  destruct (truthy tax_code).
  - injection Hdetails as <-. reflexivity.
  - destruct (truthy (dict_get c "name" PNone)).
    + destruct (dict_get c "name" PNone) as [| | |n| |]; try discriminate.
      exists n. split; [done|]. unfold split_space_1 in Hdetails.
      destruct (split_first_space n) as [[first last]|];
        injection Hdetails as <-; reflexivity.
    + injection Hdetails as <-. reflexivity.
Qed.

(** X4. A client record has no null value and no key outside the nine
    client fields. *)
Theorem client_record_has_known_keys_and_no_nulls customer tax_code d :
  get_client_details customer tax_code = Ok d →
  ∀ k v, d !! k = Some v → v ≠ PNone ∧ k ∈ client_keys.
Proof.
  intros Hd k v Hk.
  assert (Hnn : v ≠ PNone).
  { client_cases get_client_details_inv Hd; [by rewrite lookup_empty in Hk| | | |]; subst d;
      rewrite lookup_drop_none in Hk; destruct (_ !! k) as [w|]; try done;
      destruct w; cbn in Hk; congruence. }
  split; [done|].
  unfold client_keys. rewrite !elem_of_cons.
  destruct (decide (k = "client_street")); [tauto|].
  destruct (decide (k = "client_city")); [tauto|].
  destruct (decide (k = "client_post_code")); [tauto|].
  destruct (decide (k = "client_country")); [tauto|].
  destruct (decide (k = "client_tax_code")); [tauto|].
  destruct (decide (k = "client_company_name")); [tauto|].
  destruct (decide (k = "client_business_activity_kind")); [tauto|].
  destruct (decide (k = "client_first_name")); [tauto|].
  destruct (decide (k = "client_last_name")); [tauto|].
  exfalso.
  client_cases get_client_details_inv Hd; [by rewrite lookup_empty in Hk| | | |]; subst d;
    rewrite lookup_drop_none in Hk;
    rewrite ?lookup_insert_ne, lookup_empty in Hk by done; done.
Qed.

Lemma client_record_has_known_keys_and_no_nulls_witness :
  ∃ d, get_client_details (PDict customer_acme) (PStr "PL1234567890") = Ok d
       ∧ d !! "client_city" = None
       ∧ ∀ k v, d !! k = Some v → v ≠ PNone ∧ k ∈ client_keys.
Proof.
  destruct (is_ok_true (get_client_details (PDict customer_acme) (PStr "PL1234567890")))
    as [d E]; [vm_compute; reflexivity|].
  exists d. split; [exact E|]. split.
  - destruct (d !! "client_city") as [v|] eqn:Hv; [|reflexivity].
    exfalso.
    assert (Hc : (λ d : gmap string pyval, d !! "client_city")
                   <$> get_client_details (PDict customer_acme) (PStr "PL1234567890")
                 = Ok None) by (vm_compute; reflexivity).
    rewrite E in Hc. cbn in Hc. congruence.
  - exact (client_record_has_known_keys_and_no_nulls _ _ d E).
Defined.

(** X5. For a non-empty customer and a truthy tax code the record is a
    company's: it has the tax code, the business kind other_business and the
    customer's name as company name (dropped when missing or null), and
    neither a first nor a last name. *)
Theorem tax_code_makes_a_company (c : gmap string pyval) (tax_code : pyval) (d : gmap string pyval) :
  truthy (PDict c) = true → truthy tax_code = true →
  get_client_details (PDict c) tax_code = Ok d →
  d !! "client_tax_code" = Some tax_code
  ∧ d !! "client_business_activity_kind" = Some (PStr "other_business")
  ∧ d !! "client_company_name" = unless_null (c !! "name")
  ∧ d !! "client_first_name" = None
  ∧ d !! "client_last_name" = None.
Proof.
  intros Hc Ht Hd.
  destruct (get_client_details_inv _ _ _ Hd) as [[Hf ->]|Hok]; [congruence|].
  destruct Hok as (c' & a & [= <-] & Ha & Hd'). cbn zeta in Hd'.
  rewrite Ht in Hd'. subst d. rewrite !lookup_drop_none. simplify_map_eq.
  split_and!; try done.
  - by destruct tax_code.
  - unfold dict_get, unless_null. by destruct (c !! "name") as [[]|].
Qed.

Lemma tax_code_makes_a_company_witness :
  ∃ d, get_client_details (PDict customer_acme) (PStr "PL1234567890") = Ok d
       ∧ d !! "client_tax_code" = Some (PStr "PL1234567890")
       ∧ d !! "client_business_activity_kind" = Some (PStr "other_business").
Proof.
  destruct (is_ok_true (get_client_details (PDict customer_acme) (PStr "PL1234567890")))
    as [d E]; [vm_compute; reflexivity|].
  exists d. split; [exact E|].
  destruct (tax_code_makes_a_company customer_acme (PStr "PL1234567890") d eq_refl eq_refl E)
    as (H1 & H2 & _).
  split; [exact H1 | exact H2].
Defined.

(** X6. When the customer has an address object, the four address fields
    of the record are its line1, city, postal_code and country, each
    dropped when missing or null. *)
Theorem address_is_carried_over (c a : gmap string pyval) (tax_code : pyval)
    (d : gmap string pyval) :
  c !! "address" = Some (PDict a) →
  get_client_details (PDict c) tax_code = Ok d →
  d !! "client_street" = unless_null (a !! "line1")
  ∧ d !! "client_city" = unless_null (a !! "city")
  ∧ d !! "client_post_code" = unless_null (a !! "postal_code")
  ∧ d !! "client_country" = unless_null (a !! "country").
Proof.
  intros Haddr Hd.
  assert (Hun : ∀ f, (if is_none (dict_get a f PNone) then None
                      else Some (dict_get a f PNone)) = unless_null (a !! f)).
  { intros f. unfold dict_get, unless_null. by destruct (a !! f) as [[]|]. }
  destruct (get_client_details_inv _ _ _ Hd) as [[Hf ->]|Hok].
  { by rewrite (lookup_Some_truthy c "address" _ Haddr) in Hf. }
  destruct Hok as (c' & a' & [= <-] & Ha & Hd'). cbn zeta in Hd'.
  rewrite (dict_get_Some c "address" _ _ Haddr) in Ha. injection Ha as <-.
  destruct (truthy tax_code).
  - subst d. rewrite !lookup_drop_none. simplify_map_eq. by rewrite !Hun.
  - destruct (truthy (dict_get c "name" PNone)).
    + destruct Hd' as (n & Hn & Hd').
      destruct (split_first_space n) as [[first last]|]; subst d;
        rewrite !lookup_drop_none; simplify_map_eq; by rewrite !Hun.
    + subst d. rewrite !lookup_drop_none. simplify_map_eq. by rewrite !Hun.
Qed.

Lemma address_is_carried_over_witness :
  ∃ d, get_client_details (PDict customer_acme) PNone = Ok d
       ∧ d !! "client_street" = Some (PStr "Main St 1")
       ∧ d !! "client_city" = None.
Proof.
  destruct (is_ok_true (get_client_details (PDict customer_acme) PNone))
    as [d E]; [vm_compute; reflexivity|].
  exists d. split; [exact E|].
  destruct (address_is_carried_over customer_acme
              (<["line1" := PStr "Main St 1"]> (<["city" := PNone]> ∅)) PNone d eq_refl E)
    as (H1 & H2 & _).
  split; [exact H1 | exact H2].
Defined.

Lemma address_field_raises (c : gmap string pyval) v f :
  c !! "address" = Some v → (∀ a, v ≠ PDict a) →
  address_field (PDict c) f = Raise AttributeError.
Proof.
  intros Hv Hnd. unfold address_field. cbn [get mbind res_bind].
  rewrite (dict_get_Some c "address" _ _ Hv). destruct v; try done. by destruct (Hnd m).
Qed.

(** X7. [get_client_details] returns a record on exactly the inputs
    [classifier_accepts] describes, and on every other input it raises
    AttributeError. *)
Theorem get_client_details_raises_exactly (customer tax_code : pyval) :
  (classifier_accepts customer tax_code = true →
     ∃ d, get_client_details customer tax_code = Ok d)
  ∧ (classifier_accepts customer tax_code = false →
     get_client_details customer tax_code = Raise AttributeError).
Proof.
  unfold classifier_accepts, get_client_details.
  destruct (truthy customer) eqn:Ht; cbn [negb]; [|split; [eauto | done]].
  destruct customer as [| | | | |c]; try (split; [done | reflexivity]).
  assert (address_usable c ∨ ∃ v, c !! "address" = Some v ∧ ∀ a, v ≠ PDict a)
    as [Hus|(v & Hv & Hnd)].
  { unfold address_usable. destruct (c !! "address") as [v|]; [|by left; left].
    destruct v; try (right; eexists; split; [reflexivity | done]).
    left. right. eauto. }
  - destruct (address_field_ok c "line1" Hus) as [v1 ->].
    destruct (address_field_ok c "city" Hus) as [v2 ->].
    destruct (address_field_ok c "postal_code" Hus) as [v3 ->].
    destruct (address_field_ok c "country" Hus) as [v4 ->].
    cbn [mbind res_bind get].
    assert (Hacc : match c !! "address" with
                   | None | Some (PDict _) =>
                       truthy tax_code
                       || negb (truthy (dict_get c "name" PNone))
                       || Orchestrator.is_str (dict_get c "name" PNone)
                   | Some _ => false
                   end
                   = truthy tax_code
                     || negb (truthy (dict_get c "name" PNone))
                     || Orchestrator.is_str (dict_get c "name" PNone)).
    { destruct Hus as [->|[a ->]]; done. }
    rewrite Hacc. clear Hacc.
    destruct (truthy tax_code); cbn [orb]; [split; [eauto | done]|].
    destruct (truthy (dict_get c "name" PNone)) eqn:Hn; cbn [negb orb];
      [|split; [eauto | done]].
    destruct (dict_get c "name" PNone) as [| | |n| |]; cbn [Orchestrator.is_str];
      try (split; [done | reflexivity]).
    split; [intros _|done].
    unfold split_space_1. destruct (split_first_space n) as [[? ?]|]; cbn; eauto.
  - rewrite (address_field_raises c v "line1" Hv Hnd). cbn [mbind res_bind].
    rewrite Hv. destruct v; try (split; [done | reflexivity]). by destruct (Hnd m).
Qed.

Lemma get_client_details_raises_exactly_witness :
  (∃ d, get_client_details (PDict customer_acme) PNone = Ok d)
  ∧ get_client_details (PStr "cus_123") PNone = Raise AttributeError.
Proof.
  split.
  - apply (proj1 (get_client_details_raises_exactly (PDict customer_acme) PNone)).
    vm_compute. reflexivity.
  - apply (proj2 (get_client_details_raises_exactly (PStr "cus_123") PNone)).
    vm_compute. reflexivity.
Defined.

End ClientRecord.

(** ** The pagination loop *)

Section Pagination.
Import StripeFetch.

(** X8. Rate-limit signals change nothing but the time slept and the
    number of calls: the pagination loop ends the same way, with the same
    invoices and the same cursor, as on the answers without the signals, and
    it sleeps 5 seconds for every extra call. *)
Theorem rate_limits_only_cost_time (answers : list list_result) (st : fetch_state) :
  let o := fetch_loop answers st in
  let o' := fetch_loop (without_rate_limits answers) st in
  ending_of o = ending_of o'
  ∧ all_paid_invoices_raw (state_of o) = all_paid_invoices_raw (state_of o')
  ∧ starting_after (state_of o) = starting_after (state_of o')
  ∧ slept (state_of o) - slept (state_of o')
    = 5 * (Z.of_nat (length (cursors (state_of o)))
           - Z.of_nat (length (cursors (state_of o')))).
Proof.
  cbn zeta.
  assert (H : ∀ answers st st',
    all_paid_invoices_raw st = all_paid_invoices_raw st' →
    starting_after st = starting_after st' →
    slept st - slept st'
      = 5 * (Z.of_nat (length (cursors st)) - Z.of_nat (length (cursors st'))) →
    ending_of (fetch_loop answers st)
      = ending_of (fetch_loop (without_rate_limits answers) st')
    ∧ all_paid_invoices_raw (state_of (fetch_loop answers st))
      = all_paid_invoices_raw (state_of (fetch_loop (without_rate_limits answers) st'))
    ∧ starting_after (state_of (fetch_loop answers st))
      = starting_after (state_of (fetch_loop (without_rate_limits answers) st'))
    ∧ slept (state_of (fetch_loop answers st))
      - slept (state_of (fetch_loop (without_rate_limits answers) st'))
      = 5 * (Z.of_nat (length (cursors (state_of (fetch_loop answers st))))
             - Z.of_nat (length (cursors (state_of
                   (fetch_loop (without_rate_limits answers) st')))))).
  { clear. induction answers as [|a rest IH]; intros st st' Hraw Hsa Hsl.
    { cbn. done. }
    destruct a as [data more| | |e]; cbn [without_rate_limits List.filter is_rate_limit negb];
      fold (without_rate_limits rest); cbn [fetch_loop all_paid_invoices_raw starting_after
                                            cursors slept].
    - destruct (last data) as [x|] eqn:Hlast.
      + destruct more; cbn [negb].
        * destruct (attr_id x) as [id|e].
          -- apply IH; cbn; rewrite ?Hraw, ?Hsa; try done.
             rewrite !length_app. cbn. lia.
          -- cbn. rewrite Hraw, Hsa, !length_app. cbn. split_and!; try done. lia.
        * cbn. rewrite Hraw, Hsa, !length_app. cbn. split_and!; try done. lia.
      + cbn. rewrite Hraw, Hsa, !length_app. cbn. split_and!; try done. lia.
    - apply IH; cbn; try done. rewrite !length_app. cbn. lia.
    - cbn. rewrite Hraw, Hsa, !length_app. cbn. split_and!; try done. lia.
    - cbn. rewrite Hraw, Hsa, !length_app. cbn. split_and!; try done. lia. }
  apply H; try done. lia.
Qed.

Lemma last_nonempty_default {A} (a : A) (l : list A) (d d' : A) :
  List.last (a :: l) d = List.last (a :: l) d'.
Proof. revert a. induction l as [|b l IH]; intros a; [done|]. apply (IH b). Qed.

Lemma fetch_loop_pages pages : ∀ final more rest st,
  Forall (λ p : list pyval * pyval, full_page p.1 p.2) pages →
  final = [] ∨ more = false →
  fetch_loop (((λ p : list pyval * pyval, Page p.1 true) <$> pages)
              ++ Page final more :: rest) st
  = Fetched (mk_fetch (all_paid_invoices_raw st ++ concat (pages.*1) ++ final)
                      (List.last (pages.*2) (starting_after st))
                      (cursors st ++ starting_after st :: pages.*2)
                      (slept st)).
Proof.
  induction pages as [|[d id] pages IH]; intros final more rest st Hpages Hfinal.
  - cbn [fmap list_fmap app fetch_loop all_paid_invoices_raw starting_after cursors slept
         concat List.last].
    destruct (last final) as [x|] eqn:Hlast.
    + destruct Hfinal as [->| ->]; [discriminate Hlast|]. cbn [negb]. done.
    + apply last_None in Hlast as ->. by rewrite app_nil_r.
  - inversion Hpages as [|? ? (x & Hx & Hid) Hrest]; subst. cbn [fst snd] in *.
    cbn [fmap list_fmap app fetch_loop all_paid_invoices_raw starting_after cursors slept
         fst snd].
    rewrite Hx. cbn [negb]. rewrite Hid.
    change (list_fmap _ _ (λ p : list pyval * pyval, Page p.1 true) pages)
      with ((λ p : list pyval * pyval, Page p.1 true) <$> pages).
    rewrite IH by done.
    cbn [all_paid_invoices_raw starting_after cursors slept concat].
    f_equal. f_equal.
    + by rewrite <- !app_assoc.
    + cbn [fmap list_fmap snd]. destruct pages as [|q pages]; [done|].
      cbn [fmap list_fmap].
      transitivity (List.last (q.2 :: pages.*2) (starting_after st));
        [apply last_nonempty_default | reflexivity].
    + by rewrite <- app_assoc.
Qed.

(** X9. When the source answers with full pages and then with a page that
    is empty or reports no more, the loop collects the invoices of all pages
    in order, calls first without a cursor and then with the id of each
    page's last invoice, never sleeps, and [get_paid_invoices] is the filter
    applied to the concatenation; later answers are not asked for. *)
Theorem pages_are_concatenated (pages : list (list pyval * pyval))
    (final : list pyval) (more : bool) (rest : list list_result)
    (start_ts end_ts : Z) :
  Forall (λ p : list pyval * pyval, full_page p.1 p.2) pages →
  final = [] ∨ more = false →
  let answers := ((λ p : list pyval * pyval, Page p.1 true) <$> pages)
                 ++ Page final more :: rest in
  ∃ st,
    fetch_loop answers initial = Fetched st
    ∧ all_paid_invoices_raw st = concat (pages.*1) ++ final
    ∧ cursors st = PNone :: pages.*2
    ∧ slept st = 0
    ∧ get_paid_invoices answers start_ts end_ts
      = match StripeClient.get_paid_invoices (concat (pages.*1) ++ final)
                start_ts end_ts with
        | Ok filtered => Returned filtered
        | Raise e => Raised (Unexpected e)
        end.
Proof.
  intros Hpages Hfinal answers. subst answers.
  eexists. split; [by apply fetch_loop_pages|].
  cbn [all_paid_invoices_raw cursors slept starting_after initial app].
  split_and!; try done.
  unfold get_paid_invoices. rewrite fetch_loop_pages by done. done.
Qed.

Lemma pages_are_concatenated_witness :
  ∃ st,
    fetch_loop [Page [invoice_with_id "in_1"; invoice_with_id "in_2"] true;
                Page [invoice_with_id "in_3"] false;
                StripeError] initial = Fetched st
    ∧ all_paid_invoices_raw st
      = [invoice_with_id "in_1"; invoice_with_id "in_2"; invoice_with_id "in_3"]
    ∧ cursors st = [PNone; PStr "in_2"].
Proof.
  destruct (pages_are_concatenated
              [([invoice_with_id "in_1"; invoice_with_id "in_2"], PStr "in_2")]
              [invoice_with_id "in_3"] false [StripeError] 0 0)
    as (st & Hst & Hraw & Hcur & _).
  - repeat constructor. exists (invoice_with_id "in_2"). split; reflexivity.
  - by right.
  - exists st. split; [exact Hst|]. split; [exact Hraw | exact Hcur].
Defined.

Lemma fetch_loop_keeps_calling prefix : ∀ st,
  Forall keeps_calling prefix →
  ∀ rest, ∃ st', ∀ o, fetch_loop rest st' = o → fetch_loop (prefix ++ rest) st = o.
Proof.
  induction prefix as [|a prefix IH]; intros st Hall rest.
  - exists st. by intros o <-.
  - inversion Hall as [|? ? Ha Hrest]; subst.
    destruct Ha as [->|(data & id & -> & x & Hx & Hid)];
      cbn [app fetch_loop all_paid_invoices_raw starting_after cursors slept].
    + apply IH. done.
    + rewrite Hx. cbn [negb]. rewrite Hid. apply IH. done.
Qed.

(** X10. While the source answers with rate limits and full pages only, the
    loop keeps calling; a Stripe error or any other exception after such
    answers leaves [get_paid_invoices] as it was raised, and the invoices
    collected so far are not returned. *)
Theorem fetch_never_gives_up_nor_swallows (prefix rest : list list_result)
    (start_ts end_ts : Z) :
  Forall keeps_calling prefix →
  get_paid_invoices prefix start_ts end_ts = Waiting
  ∧ get_paid_invoices (prefix ++ StripeError :: rest) start_ts end_ts
    = Raised StripeFailure
  ∧ ∀ e, get_paid_invoices (prefix ++ OtherError e :: rest) start_ts end_ts
         = Raised (Unexpected e).
Proof.
  intros Hall. unfold get_paid_invoices. split_and!.
  - destruct (fetch_loop_keeps_calling prefix initial Hall []) as [st' H].
    specialize (H _ eq_refl). rewrite app_nil_r in H. by rewrite H.
  - destruct (fetch_loop_keeps_calling prefix initial Hall (StripeError :: rest)) as [st' H].
    specialize (H _ eq_refl). by rewrite H.
  - intros e.
    destruct (fetch_loop_keeps_calling prefix initial Hall (OtherError e :: rest)) as [st' H].
    specialize (H _ eq_refl). by rewrite H.
Qed.

Lemma fetch_never_gives_up_nor_swallows_witness :
  get_paid_invoices [RateLimitError; RateLimitError; RateLimitError] 0 10 = Waiting
  ∧ get_paid_invoices [Page [invoice_with_id "in_1"] true; RateLimitError; StripeError]
      0 10 = Raised StripeFailure.
Proof.
  split.
  - apply (fetch_never_gives_up_nor_swallows
             [RateLimitError; RateLimitError; RateLimitError] [] 0 10).
    repeat constructor.
  - apply (fetch_never_gives_up_nor_swallows
             [Page [invoice_with_id "in_1"] true; RateLimitError] [] 0 10).
    constructor; [|constructor; [by left | constructor]].
    right. exists [invoice_with_id "in_1"], (PStr "in_1").
    split; [reflexivity|]. exists (invoice_with_id "in_1"). split; reflexivity.
Defined.

End Pagination.

(** ** Invoices the filter cannot read *)

Section FilterErrors.
Import StripeClient.

Lemma filter_step_readable start_ts end_ts inv :
  readable inv = true →
  (st ← get inv "status_transitions" (PDict ∅);
   paid_at ← get st "paid_at" PNone;
   paid_in_range start_ts end_ts paid_at)
  = Ok (paid_within start_ts end_ts inv).
Proof.
  unfold readable, paid_within, paid_time, paid_at_of.
  destruct inv as [| | | | |m]; try discriminate.
  cbn [get mbind res_bind]. unfold dict_get at 1.
  destruct (m !! "status_transitions") as [[| | | | |st]|]; try discriminate;
    cbn [default id get mbind res_bind]; unfold dict_get.
  - destruct (st !! "paid_at") as [v|]; cbn [default id]; [|done].
    unfold paid_in_range. destruct (truthy v); cbn [negb orb]; [|done].
    destruct (num v) as [p|]; cbn [is_ok mbind res_bind]; [done|discriminate].
  - intros _. by rewrite lookup_empty.
Qed.

Lemma filter_step_unreadable start_ts end_ts inv :
  readable inv = false →
  ∃ e, (st ← get inv "status_transitions" (PDict ∅);
        paid_at ← get st "paid_at" PNone;
        paid_in_range start_ts end_ts paid_at) = Raise e.
Proof.
  unfold readable.
  destruct inv as [| | | | |m]; try (by eexists).
  cbn [get mbind res_bind]. unfold dict_get at 1.
  destruct (m !! "status_transitions") as [[| | | | |st]|]; try discriminate;
    cbn [default id get mbind res_bind]; try (by eexists); unfold dict_get.
  destruct (st !! "paid_at") as [v|]; cbn [default id]; [|discriminate].
  unfold paid_in_range. destruct (truthy v); cbn [negb orb]; [|discriminate].
  destruct (num v) as [p|e]; cbn [is_ok mbind res_bind]; [discriminate|by eexists].
Qed.

Lemma filter_loop_readable start_ts end_ts raw : ∀ acc,
  Forall (λ inv, readable inv = true) raw →
  filter_loop start_ts end_ts acc raw
  = Ok (acc ++ List.filter (paid_within start_ts end_ts) raw).
Proof.
  induction raw as [|inv raw IH]; intros acc Hall.
  - cbn. by rewrite app_nil_r.
  - inversion Hall as [|? ? Hinv Hrest]; subst.
    pose proof (filter_step_readable start_ts end_ts inv Hinv) as Hstep.
    cbn [filter_loop List.filter].
    destruct (get inv "status_transitions" (PDict ∅)) as [st|]; [|done].
    cbn [mbind res_bind] in *.
    destruct (get st "paid_at" PNone) as [paid_at|]; [|done].
    cbn [mbind res_bind] in *. rewrite Hstep. cbn [mbind res_bind].
    destruct (paid_within start_ts end_ts inv).
    + rewrite IH by done. by rewrite <- app_assoc.
    + by apply IH.
Qed.

Lemma filter_loop_unreadable start_ts end_ts raw : ∀ acc,
  Exists (λ inv, readable inv = false) raw →
  ∃ e, filter_loop start_ts end_ts acc raw = Raise e.
Proof.
  induction raw as [|inv raw IH]; intros acc Hex; [by inversion Hex|].
  cbn [filter_loop].
  destruct (readable inv) eqn:Hinv.
  - apply Exists_cons in Hex as [Hex|Hex]; [congruence|].
    pose proof (filter_step_readable start_ts end_ts inv Hinv) as Hstep.
    destruct (get inv "status_transitions" (PDict ∅)) as [st|]; [|done].
    cbn [mbind res_bind] in *.
    destruct (get st "paid_at" PNone) as [paid_at|]; [|done].
    cbn [mbind res_bind] in *. rewrite Hstep. cbn [mbind res_bind].
    destruct (paid_within start_ts end_ts inv); by apply IH.
  - destruct (filter_step_unreadable start_ts end_ts inv Hinv) as [e Hstep].
    destruct (get inv "status_transitions" (PDict ∅)) as [st|e1]; [|by eexists].
    cbn [mbind res_bind] in *.
    destruct (get st "paid_at" PNone) as [paid_at|e2]; [|by eexists].
    cbn [mbind res_bind] in *. rewrite Hstep. by eexists.
Qed.

(** Whenever the filter returns, it returns the invoices with a paid time
    inside the range, in the upstream order. *)
Lemma get_paid_invoices_returns raw start_ts end_ts filtered :
  get_paid_invoices raw start_ts end_ts = Ok filtered →
  filtered = List.filter (paid_within start_ts end_ts) raw.
Proof.
  unfold get_paid_invoices. intros H.
  destruct (decide (Forall (λ inv, readable inv = true) raw)) as [Hall|Hnall].
  - rewrite filter_loop_readable in H by done. by injection H as <-.
  - apply not_Forall_Exists in Hnall; [|intros x; apply _].
    destruct (filter_loop_unreadable start_ts end_ts raw []) as [e He].
    + eapply Exists_impl; [exact Hnall|]. intros x Hx. cbn in Hx.
      by destruct (readable x).
    + congruence.
Qed.

(** X11. One invoice the filter cannot read makes [get_paid_invoices]
    raise: no partial list is returned. *)
Theorem unreadable_invoice_aborts_the_filter
    (raw : list pyval) (start_ts end_ts : Z) (inv : pyval) :
  inv ∈ raw → readable inv = false →
  ∃ e, get_paid_invoices raw start_ts end_ts = Raise e.
Proof.
  intros Hin Hinv. apply filter_loop_unreadable.
  apply Exists_exists. by exists inv.
Qed.

Lemma unreadable_invoice_aborts_the_filter_witness :
  ∃ e, get_paid_invoices
         [invoice_paid_at "in_1" (PInt 1706745600);
          invoice_paid_at "in_2" (PStr "1706745600")]
         1706745600 1709251199 = Raise e.
Proof.
  apply (unreadable_invoice_aborts_the_filter _ _ _
           (invoice_paid_at "in_2" (PStr "1706745600"))).
  - apply list_elem_of_further, list_elem_of_here.
  - vm_compute. reflexivity.
Defined.

End FilterErrors.

(** ** Service records *)

Section ServiceRecord.
Import Main.

(** The service record before null fields are dropped. *)
Lemma build_service_inv (m s : gmap string pyval) :
  build_service (PDict m) = Ok s →
  ∃ (tax_percentage unit_net_price : pyval) (tax base : Z) (p : gmap string pyval),
    tax_percentage_of (PDict m) = Ok tax_percentage
    ∧ unit_net_price_of (PDict m) = Ok unit_net_price
    ∧ num (dict_get m "amount" (PInt 0)) = Ok base
    ∧ dict_get m "price" (PDict ∅) = PDict p
    ∧ let service : gmap string pyval :=
        <["flat_rate_tax_symbol" := PStr "12"]>
          (<["unit_net_price" := unit_net_price]>
            (<["gross_price" := PInt (base + tax)]>
              (<["tax_price" := PInt tax]>
                (<["net_price" := dict_get m "amount" PNone]>
                  (<["unit" := dict_get p "unit_label" (PStr "szt.")]>
                    (<["quantity" := dict_get m "quantity" (PInt 1)]>
                      (<["name" := dict_get m "description" (PStr "N/A")]> ∅))))))) in
      s = drop_none (if is_none tax_percentage
                     then <["tax_symbol" := PStr "zw"]> service
                     else service).
Proof.
  intros H. unfold build_service in H.
  bind_inv H tp Htp. bind_inv H tax Htax. bind_inv H name Hname.
  bind_inv H quantity Hq. bind_inv H unit_ Hunit. bind_inv H net Hnet.
  bind_inv H gross Hgross. bind_inv H unp Hunp.
  injection H as <-.
  cbn in Hname, Hq, Hnet. injection Hname as <-. injection Hq as <-. injection Hnet as <-.
  bind_inv Hgross a Ha. bind_inv Hgross base Hbase. injection Hgross as <-.
  cbn in Ha. injection Ha as <-.
  bind_inv Hunit pv Hpv. cbn in Hpv. injection Hpv as <-.
  destruct (dict_get m "price" (PDict ∅)) as [| | | | |p] eqn:Hp; try discriminate.
  cbn in Hunit. injection Hunit as <-.
  exists tp, unp, tax, base, p. split_and!; try done.
  cbn zeta. unfold Utils.map_stripe_tax_rate_to_infakt_symbol.
  destruct (is_none tp); reflexivity.
Qed.

(** X12. A service record takes its name from the line's description
    (default N/A), its quantity from the line (default 1) and its unit from
    price.unit_label (default szt.), each dropped when null; its flat-rate
    tax symbol is always 12; it has no null value and no key outside the
    nine service fields. *)
Theorem service_record_defaults (m s : gmap string pyval) :
  build_service (PDict m) = Ok s →
  s !! "name" = or_default (PStr "N/A") (m !! "description")
  ∧ s !! "quantity" = or_default (PInt 1) (m !! "quantity")
  ∧ (∃ p, dict_get m "price" (PDict ∅) = PDict p
          ∧ s !! "unit" = or_default (PStr "szt.") (p !! "unit_label"))
  ∧ s !! "flat_rate_tax_symbol" = Some (PStr "12")
  ∧ ∀ k v, s !! k = Some v → v ≠ PNone ∧ k ∈ service_keys.
Proof.
  intros H.
  destruct (build_service_inv _ _ H) as (tp & unp & tax & base & p & _ & _ & _ & Hp & Hs).
  cbn zeta in Hs.
  assert (Hor : ∀ (d : gmap string pyval) f dflt, is_none dflt = false →
            (if is_none (dict_get d f dflt) then None else Some (dict_get d f dflt))
            = or_default dflt (d !! f)).
  { intros d f dflt Hd. unfold dict_get, or_default.
    destruct (d !! f) as [w|]; cbn [default]; [done|]. by rewrite Hd. }
  split_and!.
  - subst s. destruct (is_none tp); rewrite lookup_drop_none; simplify_map_eq; by apply Hor.
  - subst s. destruct (is_none tp); rewrite lookup_drop_none; simplify_map_eq; by apply Hor.
  - exists p. split; [done|].
    subst s. destruct (is_none tp); rewrite lookup_drop_none; simplify_map_eq; by apply Hor.
  - subst s. destruct (is_none tp); rewrite lookup_drop_none; by simplify_map_eq.
  - intros k v Hk. split.
    + subst s. rewrite lookup_drop_none in Hk.
      destruct (_ !! k) as [w|]; [|done]. destruct w; cbn in Hk; congruence.
    + unfold service_keys. rewrite !elem_of_cons.
      repeat match goal with
             | |- ?k = ?x ∨ _ => destruct (decide (k = x)); [tauto|right]
             end.
      subst s. rewrite lookup_drop_none in Hk.
      destruct (is_none tp);
        rewrite ?lookup_insert_ne, lookup_empty in Hk by done; done.
Qed.

Lemma service_record_defaults_witness :
  ∃ s, build_service (PDict item_b) = Ok s
       ∧ s !! "name" = Some (PStr "N/A")
       ∧ s !! "quantity" = Some (PInt 2)
       ∧ s !! "flat_rate_tax_symbol" = Some (PStr "12").
Proof.
  destruct (is_ok_true (build_service (PDict item_b))) as [s E];
    [vm_compute; reflexivity|].
  destruct (service_record_defaults item_b s E) as (H1 & H2 & _ & H4 & _).
  exists s. split; [exact E|]. rewrite H1, H2, H4.
  split_and!; vm_compute; reflexivity.
Defined.

(** X13. A line whose amount is null builds no service; a line with a
    truthy quantity builds one only when amount and quantity are both
    present numbers, and then the service's net_price is the amount and its
    unit_net_price the truncated binary64 quotient of the two. *)
Theorem quantity_needs_an_amount (m s : gmap string pyval) :
  build_service (PDict m) = Ok s →
  m !! "amount" ≠ Some PNone
  ∧ (truthy (dict_get m "quantity" PNone) = true →
     ∃ (amount quantity : pyval) (a q u : Z),
       m !! "amount" = Some amount ∧ num amount = Ok a
       ∧ m !! "quantity" = Some quantity ∧ num quantity = Ok q ∧ q ≠ 0
       ∧ Float64.int_truediv a q = Ok u
       ∧ s !! "net_price" = Some amount
       ∧ s !! "unit_net_price" = Some (PInt u)).
Proof.
  intros H.
  destruct (build_service_inv _ _ H) as (tp & unp & tax & base & p & _ & Hunp & Hbase & _ & Hs).
  cbn zeta in Hs.
  assert (Hnn : m !! "amount" ≠ Some PNone).
  { intros E. unfold dict_get in Hbase. rewrite E in Hbase. discriminate. }
  split; [done|]. intros Hq.
  unfold unit_net_price_of in Hunp. cbn [get mbind res_bind] in Hunp. rewrite Hq in Hunp.
  bind_inv Hunp amount Ham. bind_inv Hunp quantity Hqu.
  bind_inv Hunp a Ha. bind_inv Hunp q Hqn.
  cbn [getitem] in Ham, Hqu.
  destruct (m !! "amount") as [amount'|] eqn:Eam; [|discriminate]. injection Ham as ->.
  destruct (m !! "quantity") as [quantity'|] eqn:Equ; [|discriminate]. injection Hqu as ->.
  destruct (Float64.int_truediv a q) as [u|] eqn:Hdiv; [|discriminate].
  cbn in Hunp. injection Hunp as <-.
  exists amount, quantity, a, q, u. split_and!; try done.
  - intros ->. unfold Float64.int_truediv in Hdiv. done.
  - subst s. destruct (is_none tp); rewrite lookup_drop_none; simplify_map_eq;
      unfold dict_get; rewrite Eam; destruct amount; done.
  - subst s. destruct (is_none tp); rewrite lookup_drop_none; by simplify_map_eq.
Qed.

Lemma quantity_needs_an_amount_witness :
  ∃ s u, build_service (PDict item_b) = Ok s
         ∧ s !! "unit_net_price" = Some (PInt u).
Proof.
  destruct (is_ok_true (build_service (PDict item_b))) as [s E];
    [vm_compute; reflexivity|].
  destruct (quantity_needs_an_amount item_b s E) as [_ H].
  destruct H as (amount & quantity & a & q & u & _ & _ & _ & _ & _ & _ & _ & Hu);
    [vm_compute; reflexivity|].
  exists s, u. split; [exact E | exact Hu].
Defined.

Lemma services_loop_passes pre : ∀ acc,
  Forall line_passes pre →
  ∀ rest, ∃ acc', ∀ r, services_loop acc' rest = r → services_loop acc (pre ++ rest) = r.
Proof.
  induction pre as [|item pre IH]; intros acc Hall rest.
  - exists acc. by intros r <-.
  - inversion Hall as [|? ? Hitem Hrest]; subst.
    cbn [app services_loop].
    destruct Hitem as [->|(-> & s & ->)]; cbn [mbind res_bind]; by apply IH.
Qed.

End ServiceRecord.

Section BadLine.
Context `{rt : Runtime}.
Import Main.

(** X14. A line on which the services loop raises aborts the
    transformation of the whole invoice with that exception, whatever lines
    follow it. *)
Theorem bad_line_aborts_the_transformation
    (m l : gmap string pyval) (pre post : list pyval) (item : pyval) (e : exn) :
  eq_int (dict_get m "total" (PInt 0)) 0 = false →
  m !! "lines" = Some (PDict l) →
  l !! "data" = Some (PList (pre ++ item :: post)) →
  Forall line_passes pre →
  line_raises item e →
  transform_stripe_to_infakt (PDict m) = Raise e.
Proof.
  intros Htotal Hlines Hdata Hpre Hitem.
  unfold transform_stripe_to_infakt. cbn [get getitem mbind res_bind].
  rewrite Htotal, Hlines, (dict_get_Some m "lines" PNone _ Hlines).
  rewrite (lookup_Some_truthy l "data" _ Hdata). cbn [negb get getitem mbind res_bind].
  rewrite Hdata, (dict_get_Some l "data" PNone _ Hdata).
  assert (truthy (PList (pre ++ item :: post)) = true) as -> by by destruct pre.
  cbn [negb iter mbind res_bind].
  destruct (services_loop_passes pre [] Hpre (item :: post)) as [acc' H].
  rewrite (H _ eq_refl). cbn [services_loop].
  destruct Hitem as [->|[-> ->]]; reflexivity.
Qed.

End BadLine.

Lemma bad_line_aborts_the_transformation_witness :
  @Main.transform_stripe_to_infakt SampleRuntime.runtime
    (PDict (invoice_with_lines [PDict item_b; PDict item_null_amount])) = Raise TypeError.
Proof.
  apply (@bad_line_aborts_the_transformation SampleRuntime.runtime
           (invoice_with_lines [PDict item_b; PDict item_null_amount])
           {["data" := PList [PDict item_b; PDict item_null_amount]]}
           [PDict item_b] [] (PDict item_null_amount) TypeError).
  - vm_compute. reflexivity.
  - reflexivity.
  - reflexivity.
  - constructor; [|constructor]. right. split; [vm_compute; reflexivity|].
    apply (is_ok_true (Main.build_service (PDict item_b))). vm_compute. reflexivity.
  - right. split; vm_compute; reflexivity.
Defined.

(** ** The fields of a transformed invoice *)

Section ClientKeys.
Import Utils.

Lemma client_data_lookup_outside customer tax_code d k :
  get_client_details customer tax_code = Ok d →
  k ∉ client_keys → d !! k = None.
Proof.
  intros Hd Hk. unfold client_keys in Hk. rewrite !not_elem_of_cons in Hk.
  destruct Hk as (?&?&?&?&?&?&?&?&?&_).
  client_cases get_client_details_inv Hd; [by rewrite lookup_empty| | | |]; subst d;
    rewrite lookup_drop_none;
    rewrite ?lookup_insert_ne, lookup_empty by done; done.
Qed.

Lemma client_data_lookup_not_null customer tax_code d k v :
  get_client_details customer tax_code = Ok d → d !! k = Some v → v ≠ PNone.
Proof.
  intros Hd Hk.
  client_cases get_client_details_inv Hd; [by rewrite lookup_empty in Hk| | | |]; subst d;
    rewrite lookup_drop_none in Hk; destruct (_ !! k) as [w|]; try done;
    destruct w; cbn in Hk; congruence.
Qed.

End ClientKeys.

Section TransformInversion.
Context `{rt : Runtime}.
Import Main.

(** Everything a transformed invoice is made of. *)
Lemma transform_Some_inv (m payload : gmap string pyval) :
  transform_stripe_to_infakt (PDict m) = Ok (Some payload) →
  ∃ (svcs : list pyval) (paid_at nip : pyval) (client_data : gmap string pyval)
    (cur date : string) (payment_method : pyval),
    paid_at_ts_of m = Ok paid_at
    ∧ Utils.timestamp_to_infakt_date paid_at = PStr date
    ∧ date ≠ EmptyString
    ∧ svcs ≠ []
    ∧ extract_nip (PDict m) = Ok nip
    ∧ Utils.get_client_details (dict_get m "customer" PNone) nip = Ok client_data
    ∧ dict_get m "currency" (PStr "PLN") = PStr cur
    ∧ Utils.map_stripe_payment_method (PDict m) = Ok payment_method
    ∧ eq_int (dict_get m "total" (PInt 0)) 0 = false
    ∧ payload
      = drop_none
          (client_data ∪
           <["services" := PList svcs]>
             (<["sale_type" := PStr "service"]>
               (<["left_to_pay" := PInt 0]>
                 (<["paid_price" := dict_get m "amount_paid" PNone]>
                   (<["gross_price" := dict_get m "total" PNone]>
                     (<["tax_price" := dict_get m "tax" PNone]>
                       (<["net_price" := dict_get m "subtotal" PNone]>
                         (<["number" := dict_get m "number" PNone]>
                           (<["payment_method" := payment_method]>
                             (<["kind" := PStr "vat"]>
                               (<["status" := PStr "paid"]>
                                 (<["currency" := PStr (str_upper cur)]>
                                   (<["payment_date" := PStr date]>
                                     (<["paid_date" := PStr date]>
                                       (<["sale_date" := PStr date]>
                                         (<["invoice_date" := PStr date]> ∅)))))))))))))))).
Proof.
  unfold transform_stripe_to_infakt. intros H.
  bind_inv H tot Htot. cbn in Htot. injection Htot as <-.
  destruct (eq_int (dict_get m "total" (PInt 0)) 0) eqn:Hnz; [discriminate|].
  bind_inv H lines Hlines. bind_inv H no_lines Hno.
  destruct no_lines; [discriminate|].
  bind_inv H items Hitems. bind_inv H svcs Hsvcs.
  destruct (truthy (PList svcs)) eqn:Hts; [|discriminate]. cbn [negb] in H.
  bind_inv H paid_at Hpaid. bind_inv H created Hcreated. bind_inv H nip Hnip.
  bind_inv H customer Hcustomer. bind_inv H client_data Hclient.
  bind_inv H currency Hcur. bind_inv H pm Hpm. bind_inv H number Hnumber.
  bind_inv H subtotal Hsub. bind_inv H tax Htax. bind_inv H gross Hgross.
  bind_inv H amount_paid Hap.
  cbn in Hcreated, Hcustomer, Hnumber, Hsub, Htax, Hgross, Hap.
  injection Hcreated as <-. injection Hcustomer as <-. injection Hnumber as <-.
  injection Hsub as <-. injection Htax as <-. injection Hgross as <-. injection Hap as <-.
  bind_inv Hcur c Hc. cbn in Hc. injection Hc as <-.
  unfold upper in Hcur.
  destruct (dict_get m "currency" (PStr "PLN")) as [| | |cur| |] eqn:Ecur; try discriminate.
  injection Hcur as <-.
  match type of H with
  | (if negb (truthy (dict_get ?c _ _)) then _ else _) = _ => set (cleaned := c) in *
  end.
  destruct (truthy (dict_get cleaned "services" PNone)); [|discriminate].
  destruct (truthy (dict_get cleaned "invoice_date" PNone)) eqn:Hdate; [|discriminate].
  cbn [negb] in H. injection H as <-.
  assert (Hcd : client_data !! "invoice_date" = None).
  { eapply client_data_lookup_outside; [exact Hclient|]. unfold client_keys.
    rewrite !not_elem_of_cons. split_and!; try done. apply not_elem_of_nil. }
  assert (Hinv : dict_get cleaned "invoice_date" PNone
                 = Utils.timestamp_to_infakt_date paid_at).
  { unfold dict_get. subst cleaned. rewrite lookup_drop_none.
    rewrite lookup_union_r by done. simplify_map_eq.
    by destruct (Utils.timestamp_to_infakt_date paid_at). }
  rewrite Hinv in Hdate.
  assert (∃ date, Utils.timestamp_to_infakt_date paid_at = PStr date ∧ date ≠ EmptyString)
    as (date & Edate & Hdne).
  { unfold Utils.timestamp_to_infakt_date in *.
    destruct (is_none paid_at); [done|].
    destruct (strftime_utc paid_at) as [s|]; [|done].
    exists s. split; [done|]. intros ->. done. }
  exists svcs, paid_at, nip, client_data, cur, date, pm.
  split_and!; try done.
  - by destruct svcs.
  - subst cleaned. rewrite Edate. cbn [truthy].
    destruct (negb (String.eqb date EmptyString)) eqn:E; [reflexivity|].
    rewrite Edate in Hdate. cbn in Hdate. congruence.
Qed.

End TransformInversion.

Section TransformFields.
Context `{rt : Runtime}.
Import Main.

(** X15. A transformed invoice is dated by its payment: the paid time is
    not null and formats to a non-empty date, and the invoice date, sale
    date, paid date and payment date are all that date (the creation time is
    not used). *)
Theorem transformed_invoice_is_dated_by_payment (m payload : gmap string pyval) :
  transform_stripe_to_infakt (PDict m) = Ok (Some payload) →
  ∃ (paid_at : pyval) (date : string),
    paid_at_ts_of m = Ok paid_at
    ∧ paid_at ≠ PNone
    ∧ strftime_utc paid_at = Some date
    ∧ date ≠ EmptyString
    ∧ payload !! "invoice_date" = Some (PStr date)
    ∧ payload !! "sale_date" = Some (PStr date)
    ∧ payload !! "paid_date" = Some (PStr date)
    ∧ payload !! "payment_date" = Some (PStr date).
Proof.
  intros H.
  destruct (transform_Some_inv _ _ H)
    as (svcs & paid_at & nip & cd & cur & date & pm
        & Hpaid & Hdate & Hne & _ & _ & Hclient & _ & _ & _ & ->).
  exists paid_at, date.
  assert (paid_at ≠ PNone ∧ strftime_utc paid_at = Some date) as [? ?].
  { unfold Utils.timestamp_to_infakt_date in Hdate.
    destruct paid_at; cbn [is_none] in Hdate; try discriminate;
      (split; [done|]); destruct (strftime_utc _); congruence. }
  split_and!; try done; by payload_field lookup_drop_none client_data_lookup_outside Hclient.
Qed.

(** X16. Every transformed invoice is a paid VAT invoice for a service
    with nothing left to pay; its payment method is card when the source
    invoice has a truthy payment_intent or charge and other otherwise; its
    currency is the upper-cased source currency, PLN when that is missing. *)
Theorem transformed_invoice_fixed_fields (m payload : gmap string pyval) :
  transform_stripe_to_infakt (PDict m) = Ok (Some payload) →
  payload !! "status" = Some (PStr "paid")
  ∧ payload !! "kind" = Some (PStr "vat")
  ∧ payload !! "sale_type" = Some (PStr "service")
  ∧ payload !! "left_to_pay" = Some (PInt 0)
  ∧ payload !! "payment_method"
    = Some (PStr (if truthy (dict_get m "payment_intent" PNone)
                     || truthy (dict_get m "charge" PNone)
                  then "card" else "other"))
  ∧ ∃ cur, dict_get m "currency" (PStr "PLN") = PStr cur
           ∧ payload !! "currency" = Some (PStr (str_upper cur)).
Proof.
  intros H.
  destruct (transform_Some_inv _ _ H)
    as (svcs & paid_at & nip & cd & cur & date & pm
        & _ & _ & _ & _ & _ & Hclient & Hcur & Hpm & _ & ->).
  assert (pm = PStr (if truthy (dict_get m "payment_intent" PNone)
                        || truthy (dict_get m "charge" PNone)
                     then "card" else "other")) as ->.
  { unfold Utils.map_stripe_payment_method in Hpm. cbn [get mbind res_bind] in Hpm.
    destruct (_ || _); by injection Hpm as <-. }
  split_and!; try by payload_field lookup_drop_none client_data_lookup_outside Hclient.
  exists cur. split; [done|]. by payload_field lookup_drop_none client_data_lookup_outside Hclient.
Qed.

(** X17. The totals of a transformed invoice are copied from the source
    invoice, not recomputed from the services: net_price, tax_price,
    gross_price and paid_price are subtotal, tax, total and amount_paid,
    and number is number, each dropped when missing or null; the source
    total is not 0. *)
Theorem transformed_invoice_totals_are_copied (m payload : gmap string pyval) :
  transform_stripe_to_infakt (PDict m) = Ok (Some payload) →
  payload !! "net_price" = unless_null (m !! "subtotal")
  ∧ payload !! "tax_price" = unless_null (m !! "tax")
  ∧ payload !! "gross_price" = unless_null (m !! "total")
  ∧ payload !! "paid_price" = unless_null (m !! "amount_paid")
  ∧ payload !! "number" = unless_null (m !! "number")
  ∧ eq_int (dict_get m "total" (PInt 0)) 0 = false.
Proof.
  intros H.
  destruct (transform_Some_inv _ _ H)
    as (svcs & paid_at & nip & cd & cur & date & pm
        & _ & _ & _ & _ & _ & Hclient & _ & _ & Hnz & ->).
  assert (Hun : ∀ f, (if is_none (dict_get m f PNone) then None
                      else Some (dict_get m f PNone)) = unless_null (m !! f)).
  { intros f. unfold dict_get, unless_null. by destruct (m !! f) as [[]|]. }
  split_and!; try (payload_field lookup_drop_none client_data_lookup_outside Hclient; apply Hun).
  exact Hnz.
Qed.

(** X18. A transformed invoice has no null value and no key outside the
    invoice fields and the client fields. *)
Theorem transformed_invoice_has_no_nulls (m payload : gmap string pyval) :
  transform_stripe_to_infakt (PDict m) = Ok (Some payload) →
  ∀ k v, payload !! k = Some v →
         v ≠ PNone ∧ (k ∈ invoice_keys ∨ k ∈ client_keys).
Proof.
  intros H k v Hk.
  destruct (transform_Some_inv _ _ H)
    as (svcs & paid_at & nip & cd & cur & date & pm
        & _ & _ & _ & _ & _ & Hclient & _ & _ & _ & ->).
  rewrite lookup_drop_none in Hk.
  split.
  - destruct (_ !! k) as [w|]; [|done]. destruct w; cbn in Hk; congruence.
  - destruct (decide (k ∈ client_keys)) as [|Hout]; [by right|]. left.
    rewrite lookup_union_r in Hk by (eapply client_data_lookup_outside; done).
    unfold invoice_keys. rewrite !elem_of_cons.
    repeat match goal with
           | |- ?k = ?s ∨ _ => destruct (decide (k = s)); [tauto|right]
           end.
    rewrite ?lookup_insert_ne, lookup_empty in Hk by done. done.
Qed.

(** X19. On the client fields a transformed invoice agrees with the client
    record built from the invoice's customer and the tax identifier picked
    from customer_tax_ids. *)
Theorem transformed_invoice_carries_the_client (m payload : gmap string pyval) :
  transform_stripe_to_infakt (PDict m) = Ok (Some payload) →
  ∃ (nip : pyval) (client_data : gmap string pyval),
    extract_nip (PDict m) = Ok nip
    ∧ Utils.get_client_details (dict_get m "customer" PNone) nip = Ok client_data
    ∧ ∀ k, k ∈ client_keys → payload !! k = client_data !! k.
Proof.
  intros H.
  destruct (transform_Some_inv _ _ H)
    as (svcs & paid_at & nip & cd & cur & date & pm
        & _ & _ & _ & _ & Hnip & Hclient & _ & _ & _ & ->).
  exists nip, cd. split; [done|]. split; [done|].
  intros k Hk. rewrite lookup_drop_none.
  destruct (cd !! k) as [v|] eqn:Hv.
  - rewrite (lookup_union_Some_l _ _ _ _ Hv).
    pose proof (client_data_lookup_not_null _ _ _ k v Hclient Hv) as Hnn.
    by destruct v.
  - rewrite lookup_union_r by done.
    unfold client_keys in Hk. rewrite !elem_of_cons in Hk.
    destruct Hk as [->|[->|[->|[->|[->|[->|[->|[->|[->|Hk]]]]]]]]];
      [..|by apply elem_of_nil in Hk]; by simplify_map_eq.
Qed.

End TransformFields.

Section TransformExamples.
Import Main.

Lemma transformed_invoice_is_dated_by_payment_witness :
  ∃ payload date,
    @transform_stripe_to_infakt SampleRuntime.runtime (PDict paid_invoice) = Ok (Some payload)
    ∧ payload !! "invoice_date" = Some (PStr date)
    ∧ payload !! "sale_date" = Some (PStr date).
Proof.
  destruct (is_some_ok_true
              (@transform_stripe_to_infakt SampleRuntime.runtime (PDict paid_invoice)))
    as [payload E]; [vm_compute; reflexivity|].
  destruct (@transformed_invoice_is_dated_by_payment SampleRuntime.runtime
              paid_invoice payload E)
    as (paid_at & date & _ & _ & _ & _ & H1 & H2 & _).
  exists payload, date. split; [exact E|]. split; [exact H1 | exact H2].
Defined.

Lemma transformed_invoice_fixed_fields_witness :
  ∃ payload,
    @transform_stripe_to_infakt SampleRuntime.runtime (PDict paid_invoice) = Ok (Some payload)
    ∧ payload !! "status" = Some (PStr "paid")
    ∧ payload !! "payment_method" = Some (PStr "card").
Proof.
  destruct (is_some_ok_true
              (@transform_stripe_to_infakt SampleRuntime.runtime (PDict paid_invoice)))
    as [payload E]; [vm_compute; reflexivity|].
  destruct (@transformed_invoice_fixed_fields SampleRuntime.runtime paid_invoice payload E)
    as (H1 & _ & _ & _ & H2 & _).
  exists payload. split; [exact E|]. split; [exact H1|].
  rewrite H2. vm_compute. reflexivity.
Defined.

Lemma transformed_invoice_totals_are_copied_witness :
  ∃ payload,
    @transform_stripe_to_infakt SampleRuntime.runtime (PDict paid_invoice) = Ok (Some payload)
    ∧ payload !! "gross_price" = Some (PInt 4800)
    ∧ payload !! "net_price" = Some (PInt 4000).
Proof.
  destruct (is_some_ok_true
              (@transform_stripe_to_infakt SampleRuntime.runtime (PDict paid_invoice)))
    as [payload E]; [vm_compute; reflexivity|].
  destruct (@transformed_invoice_totals_are_copied SampleRuntime.runtime
              paid_invoice payload E)
    as (H1 & _ & H2 & _).
  exists payload. split; [exact E|].
  rewrite H1, H2. split; vm_compute; reflexivity.
Defined.

Lemma transformed_invoice_has_no_nulls_witness :
  ∃ payload,
    @transform_stripe_to_infakt SampleRuntime.runtime (PDict paid_invoice) = Ok (Some payload)
    ∧ ∀ k v, payload !! k = Some v → v ≠ PNone ∧ (k ∈ invoice_keys ∨ k ∈ client_keys).
Proof.
  destruct (is_some_ok_true
              (@transform_stripe_to_infakt SampleRuntime.runtime (PDict paid_invoice)))
    as [payload E]; [vm_compute; reflexivity|].
  exists payload. split; [exact E|].
  exact (@transformed_invoice_has_no_nulls SampleRuntime.runtime paid_invoice payload E).
Defined.

Lemma transformed_invoice_carries_the_client_witness :
  ∃ (payload : gmap string pyval) (nip : pyval) (client_data : gmap string pyval),
    @transform_stripe_to_infakt SampleRuntime.runtime (PDict paid_invoice) = Ok (Some payload)
    ∧ extract_nip (PDict paid_invoice) = Ok nip
    ∧ payload !! "client_tax_code" = client_data !! "client_tax_code".
Proof.
  destruct (is_some_ok_true
              (@transform_stripe_to_infakt SampleRuntime.runtime (PDict paid_invoice)))
    as [payload E]; [vm_compute; reflexivity|].
  destruct (@transformed_invoice_carries_the_client SampleRuntime.runtime
              paid_invoice payload E)
    as (nip & cd & Hnip & _ & Hk).
  exists payload, nip, cd. split; [exact E|]. split; [exact Hnip|].
  apply Hk. unfold client_keys. rewrite !elem_of_cons. tauto.
Defined.

End TransformExamples.

(** ** The loop over the invoices *)

#[local] Set Warnings "-clear-no-such-hyp".

Lemma is_next_true r : is_next r = true → ∃ st, r = Orchestrator.Next st.
Proof. destruct r as [st|a st]; [eauto | discriminate]. Defined.

Lemma has_index_true {A} (l : list A) i : has_index l i = true → ∃ x, l !! i = Some x.
Proof. unfold has_index. destruct (l !! i) as [x|]; [eauto | discriminate]. Defined.

Section Run.
Context `{rt : Runtime}.
Import Orchestrator.

Lemma sent_enveloped post (p : gmap string pyval) :
  InfaktClient.sent (InfaktClient.create_invoice_async post {["invoice" := PDict p]})
  = [enveloped p].
Proof.
  unfold InfaktClient.create_invoice_async. rewrite lookup_singleton_eq. cbn zeta.
  change (InfaktClient.base_url +:+ "/async/invoices.json") with async_endpoint.
  fold (enveloped p).
  destruct (InfaktClient.try_body (post (enveloped p))) as [[? ?]|[[r|]|]]; try done.
  cbn. by destruct (InfaktClient.json r).
Qed.

(** What one pass does to the tally and to the outside. *)
Lemma process_invoice_effect typed post st invoice_data :
  let r := process_invoice typed post st invoice_data in
  let st' := state_after r in
  ∃ (prompts : list key) (posts : list (key * InfaktClient.request)),
    prompted st' = prompted st ++ prompts
    ∧ posted st' = posted st ++ posts
    ∧ (prompts = [] ∨ ∃ k, prompts = [k] ∧ id_key invoice_data = Some k
                           ∧ k ∉ processed_stripe_ids st)
    ∧ (posts = []
       ∨ ∃ k a p, posts = [(k, enveloped p)] ∧ prompts = [k]
                  ∧ typed = Some a ∧ answers_yes a = true
                  ∧ Main.transform_stripe_to_infakt invoice_data = Ok (Some p))
    ∧ success_count st <= success_count st'
    ∧ failure_count st <= failure_count st'
    ∧ skipped_by_user_count st <= skipped_by_user_count st'
    ∧ match r with
      | Next _ =>
          match id_key invoice_data with
          | Some k =>
              processed_stripe_ids st' = {[k]} ∪ processed_stripe_ids st
              ∧ counted st' = counted st + (if decide (k ∈ processed_stripe_ids st) then 0 else 1)
          | None => st' = st
          end
      | Stop _ _ =>
          processed_stripe_ids st' = processed_stripe_ids st
          ∧ counted st' = counted st
      end.
Proof.
  cbn zeta. unfold process_invoice, id_key.
  destruct (get invoice_data "id" PNone) as [stripe_id|e]; cbn [state_after].
  2:{ exists [], []. rewrite !app_nil_r. tally_leaf. }
  destruct (truthy stripe_id); cbn [negb].
  2:{ exists [], []. rewrite !app_nil_r. tally_leaf. }
  destruct (hash_key stripe_id) as [k|e]; cbn [state_after].
  2:{ exists [], []. rewrite !app_nil_r. tally_leaf. }
  destruct (decide (k ∈ processed_stripe_ids st)) as [Hin|Hnin]; cbn [state_after].
  { exists [], []. rewrite !app_nil_r. tally_leaf. }
  destruct (Main.transform_stripe_to_infakt invoice_data) as [[p|]|e] eqn:Htr;
    cbn [state_after].
  3:{ exists [], []. rewrite !app_nil_r. tally_leaf. }
  2:{ exists [], []. cbn. rewrite !app_nil_r. tally_leaf. }
  destruct (truthy (PDict p)); cbn [negb state_after].
  2:{ exists [], []. cbn. rewrite !app_nil_r. tally_leaf. }
  destruct (details_summary p) as [[]|e]; cbn [state_after].
  2:{ exists [], []. rewrite !app_nil_r. tally_leaf. }
  destruct typed as [a|]; cbn [state_after].
  2:{ exists [k], []. cbn. rewrite !app_nil_r. tally_leaf. }
  destruct (answers_yes a) eqn:Hyes; cbn [state_after].
  2:{ exists [k], []. cbn. rewrite !app_nil_r. tally_leaf. }
  rewrite sent_enveloped. cbn [fmap list_fmap].
  destruct (InfaktClient.returned _ ≫= task_accepted) as [[]|e]; cbn [state_after];
    exists [k], [(k, enveloped p)]; cbn; tally_leaf.
Qed.


Lemma size_add_key (k : key) (X : gset key) :
  Z.of_nat (size ({[k]} ∪ X))
  = Z.of_nat (size X) + (if decide (k ∈ X) then 0 else 1).
Proof.
  destruct (decide (k ∈ X)) as [Hin|Hnin].
  - rewrite (subseteq_union_1_L {[k]} X) by set_solver. lia.
  - rewrite size_union by set_solver. rewrite size_singleton. lia.
Qed.

(** What the loop does to the tally and to the outside, from any tally
    and any position. *)
Lemma process_loop_effect typed post stripe_invoices : ∀ i st,
  let r := process_loop typed post i st stripe_invoices in
  let st' := state_after r in
  ∃ (prompts : list key) (posts : list (key * InfaktClient.request)),
    prompted st' = prompted st ++ prompts
    ∧ posted st' = posted st ++ posts
    ∧ NoDup prompts
    ∧ (∀ k, k ∈ prompts → k ∉ processed_stripe_ids st)
    ∧ posts.*1 `sublist_of` prompts
    ∧ (∀ k req, (k, req) ∈ posts →
         ∃ j invoice_data a p,
           stripe_invoices !! j = Some invoice_data
           ∧ id_key invoice_data = Some k
           ∧ typed (i + j)%nat = Some a ∧ answers_yes a = true
           ∧ Main.transform_stripe_to_infakt invoice_data = Ok (Some p)
           ∧ req = enveloped p)
    ∧ success_count st <= success_count st'
    ∧ failure_count st <= failure_count st'
    ∧ skipped_by_user_count st <= skipped_by_user_count st'
    ∧ processed_stripe_ids st ⊆ processed_stripe_ids st'
    ∧ counted st' - counted st
      = Z.of_nat (size (processed_stripe_ids st'))
        - Z.of_nat (size (processed_stripe_ids st))
    ∧ (∀ st'', r = Next st'' →
         processed_stripe_ids st''
         = processed_stripe_ids st ∪ list_to_set (omap id_key stripe_invoices)
         ∧ ∀ k, k ∈ prompts → k ∈ processed_stripe_ids st'').
Proof.
  induction stripe_invoices as [|invoice_data rest IH]; intros i st; cbn zeta.
  { cbn [process_loop state_after]. exists [], []. rewrite !app_nil_r.
    split_and!;
      first [ done | lia | apply NoDup_nil_2 | apply sublist_nil_l
            | (intros k Hk; by apply elem_of_nil in Hk)
            | (intros k req Hk; by apply elem_of_nil in Hk)
            | idtac ].
    intros st'' [= <-]. split; [|intros k Hk; by apply elem_of_nil in Hk].
    cbn. set_solver. }
  cbn [process_loop].
  destruct (process_invoice_effect (typed i) (post i) st invoice_data)
    as (prompts1 & posts1 & Hpr1 & Hpo1 & Hprompts1 & Hposts1 & Hs1 & Hf1 & Hk1 & Hstep).
  cbn zeta in *.
  destruct (process_invoice (typed i) (post i) st invoice_data) as [st1|a st1] eqn:Hpi;
    cbn [state_after] in *.
  - (* the pass went through: continue with the rest *)
    destruct (IH (S i) st1)
      as (prompts2 & posts2 & Hpr2 & Hpo2 & Hnd2 & Hfresh2 & Hsub2 & Hposts2
          & Hs2 & Hf2 & Hk2 & Hmono2 & Hcount2 & Hnext2).
    cbn zeta in *.
    set (r := process_loop typed post (S i) st1 rest) in *.
    assert (Hproc1 : processed_stripe_ids st ⊆ processed_stripe_ids st1
                     ∧ counted st1 - counted st
                       = Z.of_nat (size (processed_stripe_ids st1))
                         - Z.of_nat (size (processed_stripe_ids st))
                     ∧ processed_stripe_ids st1
                       = processed_stripe_ids st
                         ∪ list_to_set (omap id_key [invoice_data])
                     ∧ ∀ k, k ∈ prompts1 → k ∈ processed_stripe_ids st1).
    { cbn [omap list_omap]. destruct (id_key invoice_data) as [k|] eqn:Hid.
      - destruct Hstep as [Hp Hc]. rewrite Hp. split_and!.
        + set_solver.
        + rewrite size_add_key. lia.
        + cbn. set_solver.
        + intros k' Hk'. destruct Hprompts1 as [->|(k0 & -> & [= <-] & _)]; set_solver.
      - subst st1. split_and!; try done; try lia.
        + cbn. set_solver.
        + intros k' Hk'. destruct Hprompts1 as [->|(k0 & _ & ? & _)]; [set_solver | done]. }
    destruct Hproc1 as (Hmono1 & Hcount1 & Hset1 & Hin1).
    exists (prompts1 ++ prompts2), (posts1 ++ posts2).
    split_and!.
    + by rewrite Hpr2, Hpr1, app_assoc.
    + by rewrite Hpo2, Hpo1, app_assoc.
    + apply NoDup_app. split_and!; [|intros k Hka Hkb; by apply (Hfresh2 k Hkb), Hin1|done].
      destruct Hprompts1 as [->|(k0 & -> & _)]; [constructor | apply NoDup_singleton].
    + intros k Hk. apply elem_of_app in Hk as [Hk|Hk].
      * destruct Hprompts1 as [->|(k0 & -> & _ & Hnin)]; set_solver.
      * intros Hin. apply (Hfresh2 k Hk). set_solver.
    + rewrite fmap_app. apply sublist_app; [|done].
      destruct Hposts1 as [->|(k0 & a0 & p0 & -> & -> & _)]; [apply sublist_nil_l | done].
    + intros k req Hkr. apply elem_of_app in Hkr as [Hkr|Hkr].
      * destruct Hposts1 as [->|(k0 & a0 & p0 & -> & -> & Hty & Hyes & Htr)];
          [set_solver|].
        apply list_elem_of_singleton in Hkr as [= -> ->].
        exists 0%nat, invoice_data, a0, p0. rewrite Nat.add_0_r.
        split_and!; try done.
        destruct Hprompts1 as [?|(k1 & [= <-] & Hid & _)]; done.
      * destruct (Hposts2 k req Hkr) as (j & inv & a0 & p0 & Hj & ? & Hty & ? & ? & ?).
        exists (S j), inv, a0, p0. split_and!; try done.
        by replace (i + S j)%nat with (S i + j)%nat by lia.
    + lia.
    + lia.
    + lia.
    + set_solver.
    + lia.
    + intros st'' Hr. destruct (Hnext2 st'' Hr) as [Hset2 Hin2]. split.
      * rewrite Hset2, Hset1. cbn [omap list_omap].
        destruct (id_key invoice_data); cbn; set_solver.
      * intros k Hk. apply elem_of_app in Hk as [Hk|Hk]; [|by apply Hin2].
        rewrite Hset2. set_solver.
  - (* the pass stopped the run *)
    destruct Hstep as [Hp Hc].
    exists prompts1, posts1. split_and!; try done; try lia.
    + destruct Hprompts1 as [->|(k0 & -> & _)]; [constructor | apply NoDup_singleton].
    + intros k Hk. destruct Hprompts1 as [->|(k0 & -> & _ & Hnin)]; set_solver.
    + destruct Hposts1 as [->|(k0 & a0 & p0 & -> & -> & _)]; [apply sublist_nil_l | done].
    + intros k req Hkr.
      destruct Hposts1 as [->|(k0 & a0 & p0 & -> & -> & Hty & Hyes & Htr)];
        [set_solver|].
      apply list_elem_of_singleton in Hkr as [= -> ->].
      exists 0%nat, invoice_data, a0, p0. rewrite Nat.add_0_r.
      split_and!; try done.
      destruct Hprompts1 as [?|(k1 & [= <-] & Hid & _)]; done.
    + by rewrite Hp.
    + rewrite Hp. lia.
Qed.


(** X20. However the loop over the invoices ends, the three counters of
    the summary split the processed identifiers: every recorded invoice was
    counted exactly once, as submitted, failed or skipped. *)
Theorem summary_counters_split_the_processed typed post stripe_invoices :
  let st := state_after (process_loop typed post 0 start stripe_invoices) in
  success_count st + failure_count st + skipped_by_user_count st
  = Z.of_nat (size (processed_stripe_ids st))
  ∧ 0 <= success_count st ∧ 0 <= failure_count st ∧ 0 <= skipped_by_user_count st.
Proof.
  cbn zeta.
  destruct (process_loop_effect typed post stripe_invoices 0%nat start)
    as (prompts & posts & _ & _ & _ & _ & _ & _ & Hs & Hf & Hk & _ & Hcount & _).
  cbn zeta in *. cbn [start success_count failure_count skipped_by_user_count
                      processed_stripe_ids] in *.
  unfold counted in Hcount.
  cbn [start success_count failure_count skipped_by_user_count processed_stripe_ids]
    in Hcount.
  rewrite size_empty in Hcount. lia.
Qed.

(** X21. No identifier is offered to the operator twice, no identifier is
    posted twice, and the identifiers posted are among the ones offered, in
    the same order. *)
Theorem no_invoice_is_offered_or_posted_twice typed post stripe_invoices :
  let st := state_after (process_loop typed post 0 start stripe_invoices) in
  NoDup (prompted st) ∧ NoDup (posted st).*1
  ∧ (posted st).*1 `sublist_of` prompted st.
Proof.
  cbn zeta.
  destruct (process_loop_effect typed post stripe_invoices 0%nat start)
    as (prompts & posts & Hpr & Hpo & Hnd & _ & Hsub & _).
  cbn zeta in *. cbn [start prompted posted app] in *.
  rewrite Hpr, Hpo. split_and!; [done| |done].
  by eapply sublist_NoDup.
Qed.

(** X22. Every request the loop posts carries, in its envelope and to the
    asynchronous endpoint, the transformation of one of the given invoices,
    and the operator answered the prompt for that invoice with y or Y. *)
Theorem posted_requests_were_confirmed typed post stripe_invoices k req :
  let st := state_after (process_loop typed post 0 start stripe_invoices) in
  (k, req) ∈ posted st →
  ∃ (j : nat) (invoice_data : pyval) (a : string) (p : gmap string pyval),
    stripe_invoices !! j = Some invoice_data
    ∧ id_key invoice_data = Some k
    ∧ typed j = Some a ∧ answers_yes a = true
    ∧ Main.transform_stripe_to_infakt invoice_data = Ok (Some p)
    ∧ req = enveloped p.
Proof.
  cbn zeta.
  destruct (process_loop_effect typed post stripe_invoices 0%nat start)
    as (prompts & posts & _ & Hpo & _ & _ & _ & Hposts & _).
  cbn zeta in *. cbn [start posted app] in *.
  rewrite Hpo. intros Hin. exact (Hposts k req Hin).
Qed.

(** X23. A loop that reaches the summary has recorded exactly the truthy
    identifiers of the given invoices, and every identifier it offered to
    the operator is among them. *)
Theorem completed_run_records_every_identifier typed post stripe_invoices st :
  process_loop typed post 0 start stripe_invoices = Next st →
  processed_stripe_ids st = list_to_set (omap id_key stripe_invoices)
  ∧ ∀ k, k ∈ prompted st → k ∈ processed_stripe_ids st.
Proof.
  intros Hrun.
  destruct (process_loop_effect typed post stripe_invoices 0%nat start)
    as (prompts & posts & Hpr & _ & _ & _ & _ & _ & _ & _ & _ & _ & _ & Hnext).
  cbn zeta in *. rewrite Hrun in Hpr. cbn [state_after start prompted app] in Hpr.
  destruct (Hnext st Hrun) as [Hset Hin]. split.
  - rewrite Hset. cbn [start processed_stripe_ids]. set_solver.
  - intros k Hk. apply Hin. by rewrite <- Hpr.
Qed.

End Run.

(** ** The script, end to end *)

Section Script.
Context `{rt : Runtime}.
Import Orchestrator.

(** Every invoice the pagination loop has collected was delivered in a
    page. *)
Lemma fetch_loop_raw_origin answers : ∀ st inv,
  inv ∈ StripeFetch.all_paid_invoices_raw (state_of (StripeFetch.fetch_loop answers st)) →
  inv ∈ StripeFetch.all_paid_invoices_raw st
  ∨ ∃ data more, StripeFetch.Page data more ∈ answers ∧ inv ∈ data.
Proof.
  induction answers as [|a rest IH]; intros st inv; [by left|].
  cbn [StripeFetch.fetch_loop StripeFetch.all_paid_invoices_raw
       StripeFetch.starting_after StripeFetch.cursors StripeFetch.slept].
  assert (Hrest : ∀ st', (∀ x, x ∈ StripeFetch.all_paid_invoices_raw st' →
                               x ∈ StripeFetch.all_paid_invoices_raw st
                               ∨ ∃ data more, StripeFetch.Page data more ∈ a :: rest
                                              ∧ x ∈ data) →
            inv ∈ StripeFetch.all_paid_invoices_raw
                    (state_of (StripeFetch.fetch_loop rest st')) →
            inv ∈ StripeFetch.all_paid_invoices_raw st
            ∨ ∃ data more, StripeFetch.Page data more ∈ a :: rest ∧ inv ∈ data).
  { intros st' Hst' Hin. destruct (IH st' inv Hin) as [Hin'|(data & more & Hp & Hd)].
    - by apply Hst'.
    - right. exists data, more. split; [by apply list_elem_of_further | done]. }
  destruct a as [data more| | |e]; cbn [state_of StripeFetch.all_paid_invoices_raw].
  - assert (Hdata : ∀ x, x ∈ StripeFetch.all_paid_invoices_raw st ++ data →
                         x ∈ StripeFetch.all_paid_invoices_raw st
                         ∨ ∃ data' more', StripeFetch.Page data' more' ∈
                                            StripeFetch.Page data more :: rest
                                          ∧ x ∈ data').
    { intros x Hx. apply elem_of_app in Hx as [Hx|Hx]; [by left|].
      right. exists data, more. split; [apply list_elem_of_here | done]. }
    destruct (last data) as [x|]; cbn [state_of StripeFetch.all_paid_invoices_raw];
      [|by left].
    destruct more; cbn [negb state_of StripeFetch.all_paid_invoices_raw];
      [|by apply Hdata].
    destruct (StripeFetch.attr_id x) as [id|e];
      cbn [state_of StripeFetch.all_paid_invoices_raw]; [|by apply Hdata].
    apply Hrest. cbn. exact Hdata.
  - apply Hrest. cbn. by left.
  - by left.
  - by left.
Qed.

(** X24. Whatever the script posts is the transformation of an invoice
    that a page of the source delivered, that was paid inside the range of
    the target month, and that the operator confirmed. *)
Theorem script_posts_only_invoices_paid_in_the_target_month
    cfg answers typed post (k : key) (req : InfaktClient.request) :
  (k, req) ∈ posted (tally_of (main cfg answers typed post)) →
  ∃ (year month start_ts end_ts : Z) (data : list pyval) (more : bool)
    (invoice_data : pyval) (paid : Z) (j : nat) (a : string)
    (p : gmap string pyval),
    TARGET cfg = Some (year, month)
    ∧ Utils.get_month_timestamps year month = Ok (start_ts, end_ts)
    ∧ StripeFetch.Page data more ∈ answers ∧ invoice_data ∈ data
    ∧ id_key invoice_data = Some k
    ∧ paid_time invoice_data = Some paid ∧ start_ts <= paid <= end_ts
    ∧ typed j = Some a ∧ answers_yes a = true
    ∧ Main.transform_stripe_to_infakt invoice_data = Ok (Some p)
    ∧ req = enveloped p.
Proof.
  unfold main.
  destruct (TARGET cfg) as [[year month]|]; cbn [tally_of start posted];
    [|by intros ?%elem_of_nil].
  destruct (negb _); cbn [tally_of start posted]; [by intros ?%elem_of_nil|].
  destruct (_ ← StripeFetch.init _; _) as [[start_ts end_ts]|e] eqn:Hinit;
    cbn [tally_of start posted]; [|by intros ?%elem_of_nil].
  assert (Hrange : Utils.get_month_timestamps year month = Ok (start_ts, end_ts)).
  { destruct (StripeFetch.init _); [|done]. cbn [mbind res_bind] in Hinit.
    destruct (InfaktInit.init _); [|done]. exact Hinit. }
  unfold StripeFetch.get_paid_invoices.
  pose proof (fetch_loop_raw_origin answers StripeFetch.initial) as Horigin.
  destruct (StripeFetch.fetch_loop answers StripeFetch.initial) as [fs|f fs|fs];
    cbn [tally_of start posted]; [|by intros ?%elem_of_nil|by intros ?%elem_of_nil].
  cbn [state_of] in Horigin.
  destruct (StripeClient.get_paid_invoices _ _ _) as [stripe_invoices|e] eqn:Hfilter;
    cbn [tally_of start posted]; [|by intros ?%elem_of_nil].
  apply get_paid_invoices_returns in Hfilter.
  destruct (negb _); cbn [tally_of start posted]; [by intros ?%elem_of_nil|].
  destruct (process_loop_effect typed post stripe_invoices 0%nat start)
    as (prompts & posts & _ & Hpo & _ & _ & _ & Hposts & _).
  cbn zeta in *. cbn [start posted app] in Hpo.
  intros Hin.
  assert (Hin' : (k, req) ∈ posts).
  { rewrite <- Hpo.
    by destruct (process_loop typed post 0 start stripe_invoices). }
  destruct (Hposts k req Hin') as (j & invoice_data & a & p & Hj & Hid & Hty & Hyes & Htr & ->).
  apply list_elem_of_lookup_2 in Hj. rewrite Hfilter in Hj.
  apply list_elem_of_In, filter_In in Hj as [Hraw Hpaid].
  apply list_elem_of_In in Hraw.
  destruct (Horigin invoice_data Hraw) as [Hnil|(data & more & Hpage & Hdata)];
    [by apply elem_of_nil in Hnil|].
  unfold paid_within in Hpaid.
  destruct (paid_time invoice_data) as [paid|] eqn:Hpt; [|discriminate].
  exists year, month, start_ts, end_ts, data, more, invoice_data, paid, j, a, p.
  split_and!; try done; lia.
Qed.

(** X25. The script ends with exit code 0 exactly when the configuration
    is complete, the target month exists, the source returned the filtered
    invoices, and the loop over them (none, possibly) ran to its end; the
    tally is the loop's. *)
Theorem script_succeeds_iff cfg answers typed post (st : tally) :
  main cfg answers typed post = Exit 0 st
  ↔ ∃ (year month start_ts end_ts : Z) (stripe_invoices : list pyval),
      TARGET cfg = Some (year, month)
      ∧ truthy (STRIPE_SECRET_KEY cfg) = true ∧ truthy (INFAKT_API_KEY cfg) = true
      ∧ year ≠ 0 ∧ month ≠ 0
      ∧ Utils.get_month_timestamps year month = Ok (start_ts, end_ts)
      ∧ StripeFetch.get_paid_invoices answers start_ts end_ts
        = StripeFetch.Returned stripe_invoices
      ∧ process_loop typed post 0 start stripe_invoices = Next st.
Proof.
  unfold main. split.
  - destruct (TARGET cfg) as [[year month]|]; [|discriminate].
    destruct (truthy (STRIPE_SECRET_KEY cfg)) eqn:Hs; cbn [andb negb]; [|discriminate].
    destruct (truthy (INFAKT_API_KEY cfg)) eqn:Hi; cbn [andb negb]; [|discriminate].
    cbn [truthy].
    destruct (year =? 0) eqn:Hy; cbn [andb negb]; [discriminate|].
    destruct (month =? 0) eqn:Hm; cbn [andb negb]; [discriminate|].
    unfold StripeFetch.init, InfaktInit.init. rewrite Hs, Hi. cbn [negb mbind res_bind].
    destruct (Utils.get_month_timestamps year month) as [[start_ts end_ts]|e] eqn:Hrange;
      [|discriminate].
    destruct (StripeFetch.get_paid_invoices answers start_ts end_ts)
      as [stripe_invoices|f|] eqn:Hfetch; [|discriminate|discriminate].
    intros H. exists year, month, start_ts, end_ts, stripe_invoices.
    apply Z.eqb_neq in Hy, Hm.
    split_and!; try done.
    destruct stripe_invoices as [|inv rest]; cbn [truthy negb] in H.
    + by injection H as <-.
    + destruct (process_loop typed post 0 start (inv :: rest)) as [st'|a st'];
        [by injection H as <- | discriminate].
  - intros (year & month & start_ts & end_ts & stripe_invoices
            & -> & Hs & Hi & Hy & Hm & Hrange & Hfetch & Hloop).
    rewrite Hs, Hi. cbn [truthy andb].
    apply Z.eqb_neq in Hy, Hm. rewrite Hy, Hm. cbn [andb negb].
    unfold StripeFetch.init, InfaktInit.init. rewrite Hs, Hi. cbn [negb mbind res_bind].
    rewrite Hrange, Hfetch.
    destruct stripe_invoices as [|inv rest]; cbn [truthy negb].
    + cbn in Hloop. by injection Hloop as <-.
    + by rewrite Hloop.
Qed.

End Script.

Lemma posted_requests_were_confirmed_witness :
  ∃ k req,
    (k, req) ∈ Orchestrator.posted
                 (state_after (@Orchestrator.process_loop SampleRuntime.runtime
                                 always_yes accepting 0 Orchestrator.start
                                 [PDict paid_invoice]))
    ∧ ∃ p, @Main.transform_stripe_to_infakt SampleRuntime.runtime (PDict paid_invoice)
           = Ok (Some p)
           ∧ req = enveloped p.
Proof.
  destruct (has_index_true
              (Orchestrator.posted
                 (state_after (@Orchestrator.process_loop SampleRuntime.runtime
                                 always_yes accepting 0 Orchestrator.start
                                 [PDict paid_invoice]))) 0)
    as [[k req] Hkr]; [vm_compute; reflexivity|].
  apply list_elem_of_lookup_2 in Hkr.
  exists k, req. split; [exact Hkr|].
  destruct (@posted_requests_were_confirmed SampleRuntime.runtime
              always_yes accepting [PDict paid_invoice] k req Hkr)
    as (j & invoice_data & a & p & Hj & _ & _ & _ & Htr & Hreq).
  exists p. split; [|exact Hreq].
  destruct j as [|j]; [|destruct j; discriminate Hj].
  injection Hj as <-. exact Htr.
Defined.

Lemma completed_run_records_every_identifier_witness :
  ∃ st,
    @Orchestrator.process_loop SampleRuntime.runtime always_yes accepting 0
      Orchestrator.start [PDict paid_invoice; PDict paid_invoice] = Orchestrator.Next st
    ∧ Orchestrator.processed_stripe_ids st
      = list_to_set (omap id_key [PDict paid_invoice; PDict paid_invoice]).
Proof.
  destruct (is_next_true
              (@Orchestrator.process_loop SampleRuntime.runtime always_yes accepting 0
                 Orchestrator.start [PDict paid_invoice; PDict paid_invoice]))
    as [st Hst]; [vm_compute; reflexivity|].
  exists st. split; [exact Hst|].
  exact (proj1 (@completed_run_records_every_identifier SampleRuntime.runtime
                  always_yes accepting _ st Hst)).
Defined.

Lemma script_posts_only_invoices_paid_in_the_target_month_witness :
  ∃ k req,
    (k, req) ∈ Orchestrator.posted
                 (tally_of (@Orchestrator.main SampleRuntime.runtime
                              february_2024_config one_page always_yes accepting))
    ∧ ∃ invoice_data paid,
        id_key invoice_data = Some k
        ∧ paid_time invoice_data = Some paid
        ∧ 1706745600 <= paid <= 1709251199.
Proof.
  destruct (has_index_true
              (Orchestrator.posted
                 (tally_of (@Orchestrator.main SampleRuntime.runtime
                              february_2024_config one_page always_yes accepting))) 0)
    as [[k req] Hkr]; [vm_compute; reflexivity|].
  apply list_elem_of_lookup_2 in Hkr.
  exists k, req. split; [exact Hkr|].
  destruct (@script_posts_only_invoices_paid_in_the_target_month SampleRuntime.runtime
              february_2024_config one_page always_yes accepting k req Hkr)
    as (year & month & start_ts & end_ts & data & more & invoice_data & paid & j & a & p
        & Htarget & Hrange & _ & _ & Hid & Hpaid & Hin & _).
  exists invoice_data, paid. split; [exact Hid|]. split; [exact Hpaid|].
  injection Htarget as <- <-.
  assert (Hfeb : Utils.get_month_timestamps 2024 2 = Ok (1706745600, 1709251199))
    by (vm_compute; reflexivity).
  rewrite Hfeb in Hrange. injection Hrange as <- <-. exact Hin.
Defined.

(** ** Sanity checks of the embedding on concrete inputs *)

Example int_truediv_4000_2 : Float64.int_truediv 4000 2 = Ok 2000.
Proof. vm_compute. reflexivity. Qed.

Example int_truediv_rounds_toward_zero : Float64.int_truediv (-5) 2 = Ok (-2).
Proof. vm_compute. reflexivity. Qed.

Example int_truediv_7_3 : Float64.int_truediv 7 3 = Ok 2.
Proof. vm_compute. reflexivity. Qed.

(** Beyond [2^53] the binary64 quotient is no longer the exact one. *)
Example int_truediv_loses_low_bit : Float64.int_truediv (2 ^ 53 + 1) 1 = Ok (2 ^ 53).
Proof. vm_compute. reflexivity. Qed.

Example int_truediv_rounds_up_to_integer :
  Float64.int_truediv (2 ^ 53 * 3 - 1) 3 = Ok (2 ^ 53).
Proof. vm_compute. reflexivity. Qed.

Example int_truediv_overflow : Float64.int_truediv (2 ^ 1024) 1 = Raise OverflowError.
Proof. vm_compute. reflexivity. Qed.

Example january_1970 : Utils.get_month_timestamps 1970 1 = Ok (0, 2678399).
Proof. vm_compute. reflexivity. Qed.

Example february_2024 :
  Utils.get_month_timestamps 2024 2 = Ok (1706745600, 1709251199).
Proof. vm_compute. reflexivity. Qed.

Example december_2023 :
  Utils.get_month_timestamps 2023 12 = Ok (1701388800, 1704067199).
Proof. vm_compute. reflexivity. Qed.

Example month_13 : Utils.get_month_timestamps 2024 13 = Raise ValueError.
Proof. vm_compute. reflexivity. Qed.

Example year_0 : Utils.get_month_timestamps 0 6 = Raise ValueError.
Proof. vm_compute. reflexivity. Qed.

Example max_ordinal : Datetime.ymd2ord 9999 12 31 = Datetime.MAXORDINAL.
Proof. vm_compute. reflexivity. Qed.

Example epoch_ordinal : Datetime.ymd2ord 1970 1 1 = Datetime.EPOCH_ORDINAL.
Proof. vm_compute. reflexivity. Qed.

Example strftime_leap_day :
  SampleRuntime.strftime (PInt 1709251199) = Some "2024-02-29".
Proof. vm_compute. reflexivity. Qed.

Example strftime_epoch : SampleRuntime.strftime (PInt 0) = Some "1970-01-01".
Proof. vm_compute. reflexivity. Qed.

Example strftime_new_year_eve :
  SampleRuntime.strftime (PInt 1704067199) = Some "2023-12-31".
Proof. vm_compute. reflexivity. Qed.

Example strftime_new_year :
  SampleRuntime.strftime (PInt 1704067200) = Some "2024-01-01".
Proof. vm_compute. reflexivity. Qed.

Example strftime_before_epoch :
  SampleRuntime.strftime (PInt (-1)) = Some "1969-12-31".
Proof. vm_compute. reflexivity. Qed.

Example upper_pln : SampleRuntime.upper "pln" = "PLN".
Proof. vm_compute. reflexivity. Qed.

(** Scenario A: a zero total is skipped. *)
Example scenario_a :
  @Main.transform_stripe_to_infakt SampleRuntime.runtime
    (PDict {["total" := PInt 0]}) = Ok None.
Proof. vm_compute. reflexivity. Qed.

(** Scenarios B and C together: the invoice of scenario B for the customer
    of scenario C, paid on 29 February 2024. *)
Example scenario_b_c :
  (λ o : option (gmap string pyval),
     p ← o;
     Some (p !! "invoice_date", p !! "sale_date", p !! "currency",
           p !! "payment_method", p !! "gross_price",
           p !! "client_first_name", p !! "client_last_name",
           p !! "client_business_activity_kind", p !! "client_tax_code",
           (λ v, match v with
                 | PList [PDict s] =>
                     Some (s !! "net_price", s !! "tax_price", s !! "gross_price",
                           s !! "unit_net_price", s !! "quantity", s !! "unit",
                           s !! "name", s !! "tax_symbol")
                 | _ => None
                 end) <$> p !! "services"))
  <$> @Main.transform_stripe_to_infakt SampleRuntime.runtime sample_invoice
  = Ok (Some (Some (PStr "2024-02-29"), Some (PStr "2024-02-29"), Some (PStr "PLN"),
              Some (PStr "other"), Some (PInt 5000),
              Some (PStr "Jan"), Some (PStr "Kowalski"),
              Some (PStr "private_person"), None,
              Some (Some (Some (PInt 4000), Some (PInt 800), Some (PInt 4800),
                          Some (PInt 2000), Some (PInt 2), Some (PStr "szt."),
                          Some (PStr "N/A"), Some (PStr "zw"))))).
Proof. vm_compute. reflexivity. Qed.

(** Scenario D: a tax code makes a company. *)
Example scenario_d :
  (λ d : gmap string pyval,
     (d !! "client_company_name", d !! "client_tax_code",
      d !! "client_business_activity_kind", d !! "client_first_name"))
  <$> Utils.get_client_details (PDict {["name" := PStr "Acme Corp"]}) (PStr "PL1234567890")
  = Ok (Some (PStr "Acme Corp"), Some (PStr "PL1234567890"),
        Some (PStr "other_business"), None).
Proof. vm_compute. reflexivity. Qed.

(** The run of [february_2024_config]: after one rate limit the source
    delivers the paid invoice, the operator confirms, the destination
    accepts. *)
Example script_run_confirmed :
  (λ x, match x with
        | Orchestrator.Exit code st =>
            Some (code, Orchestrator.success_count st, Orchestrator.failure_count st,
                  Orchestrator.skipped_by_user_count st,
                  length (Orchestrator.posted st))
        | Orchestrator.NoExit => None
        end)
    (@Orchestrator.main SampleRuntime.runtime february_2024_config one_page
       always_yes accepting)
  = Some (0, 1, 0, 0, 1%nat).
Proof. vm_compute. reflexivity. Qed.

(** The same run with an operator who declines: nothing is posted. *)
Example script_run_declined :
  (λ x, match x with
        | Orchestrator.Exit code st =>
            Some (code, Orchestrator.success_count st, Orchestrator.failure_count st,
                  Orchestrator.skipped_by_user_count st,
                  length (Orchestrator.posted st))
        | Orchestrator.NoExit => None
        end)
    (@Orchestrator.main SampleRuntime.runtime february_2024_config one_page
       (λ _, Some "n") accepting)
  = Some (0, 0, 0, 1, 0%nat).
Proof. vm_compute. reflexivity. Qed.

(** The same run with the input closed at the prompt: exit code 1. *)
Example script_run_end_of_input :
  (λ x, match x with
        | Orchestrator.Exit code st => Some (code, length (Orchestrator.prompted st))
        | Orchestrator.NoExit => None
        end)
    (@Orchestrator.main SampleRuntime.runtime february_2024_config one_page
       (λ _, None) accepting)
  = Some (1, 1%nat).
Proof. vm_compute. reflexivity. Qed.

(** The same run for March 2024: the invoice is filtered out and the
    script ends before the loop. *)
Example script_run_other_month :
  (λ x, match x with
        | Orchestrator.Exit code st => Some (code, length (Orchestrator.prompted st))
        | Orchestrator.NoExit => None
        end)
    (@Orchestrator.main SampleRuntime.runtime
       (Orchestrator.mk_config (PStr "sk_test") (PStr "key") (Some (2024, 3)))
       one_page always_yes accepting)
  = Some (0, 0%nat).
Proof. vm_compute. reflexivity. Qed.
